(** * file-type: verification of the format-detection engine

    A shallow embedding of the detection engine of the repository
    (core detector battery, imprecise detector, detection pipeline and the
    helpers of [util]) together with the properties the specification states
    about them.

    Conventions of the embedding.
    - A JavaScript number that holds an integer is a [Z]; the 32-bit
      operators [&], [|], [<<], [>>], [^] are written with their wrap-around.
    - A [Uint8Array] is a [list Z] whose elements are in [0, 256); reading an
      index outside the array gives [undefined], modelled by [None].
    - A JavaScript string is the list of its UTF-16 code units.
    - Code that reads or moves the tokenizer is written in a state and error
      monad; a [return] in the middle of a function body is modelled by
      statements that either fall through or leave the function. *)

From Stdlib Require Import ZArith List String Ascii Bool Lia.
Import ListNotations.
Open Scope Z_scope.

(* ================================================================== *)
(** * JavaScript values *)
(* ================================================================== *)

Module JS.

(** [ToInt32] of an integral number. *)
Definition toInt32 (z : Z) : Z := (z + 2 ^ 31) mod 2 ^ 32 - 2 ^ 31.

(** [a & b], [a | b], [a ^ b], [a << n], [a >> n] on numbers. *)
Definition bitAnd (a b : Z) : Z := Z.land (toInt32 a) (toInt32 b).
Definition bitOr (a b : Z) : Z := Z.lor (toInt32 a) (toInt32 b).
Definition bitXor (a b : Z) : Z := Z.lxor (toInt32 a) (toInt32 b).
Definition shl (a n : Z) : Z := toInt32 (Z.shiftl (toInt32 a) (n mod 32)).
Definition shr (a n : Z) : Z := Z.shiftr (toInt32 a) (n mod 32).

(** [array[i]]: [undefined] outside the array. *)
Definition get {A : Type} (array : list A) (i : Z) : option A :=
  if i <? 0 then None else nth_error array (Z.to_nat i).

(** [x ?? d]. *)
Definition nullish {A : Type} (x : option A) (d : A) : A :=
  match x with Some v => v | None => d end.

(** [array.subarray(from, to)] for [0 <= from]. *)
Definition subarray {A : Type} (array : list A) (from to : Z) : list A :=
  firstn (Z.to_nat (to - from)) (skipn (Z.to_nat from) array).

(** [Number.MAX_SAFE_INTEGER]. *)
Definition MAX_SAFE_INTEGER : Z := 2 ^ 53 - 1.

(** A string is the sequence of its UTF-16 code units. *)
Definition JSString := list Z.

(** A source literal made of ASCII characters. *)
Fixpoint lit (s : string) : JSString :=
  match s with
  | EmptyString => []
  | String c rest => Z.of_nat (nat_of_ascii c) :: lit rest
  end.

Definition isHighSurrogate (c : Z) : bool := (0xD800 <=? c) && (c <=? 0xDBFF).
Definition isLowSurrogate (c : Z) : bool := (0xDC00 <=? c) && (c <=? 0xDFFF).

Fixpoint eqs (a b : JSString) : bool :=
  match a, b with
  | [], [] => true
  | x :: a', y :: b' => (x =? y) && eqs a' b'
  | _, _ => false
  end.

Fixpoint startsWith (s prefix : JSString) : bool :=
  match prefix, s with
  | [], _ => true
  | p :: prefix', c :: s' => (p =? c) && startsWith s' prefix'
  | _ :: _, [] => false
  end.

(** WhiteSpace and LineTerminator code units, as [trim] and [parseInt]
    skip them. *)
Definition isLineTerminator (c : Z) : bool :=
  (c =? 0x0A) || (c =? 0x0D) || (c =? 0x2028) || (c =? 0x2029).

Definition isWhiteSpace (c : Z) : bool :=
  (c =? 0x09) || (c =? 0x0B) || (c =? 0x0C) || (c =? 0x20) || (c =? 0xA0)
  || (c =? 0x1680) || ((0x2000 <=? c) && (c <=? 0x200A))
  || (c =? 0x202F) || (c =? 0x205F) || (c =? 0x3000) || (c =? 0xFEFF)
  || isLineTerminator c.

Fixpoint trimStart (s : JSString) : JSString :=
  match s with
  | c :: rest => if isWhiteSpace c then trimStart rest else s
  | [] => []
  end.

Definition trimEnd (s : JSString) : JSString := rev (trimStart (rev s)).

Definition trim (s : JSString) : JSString := trimEnd (trimStart s).

(** [s.replace(/\0.*$/, "")]: the match starts at the first NUL that is
    followed by no line terminator up to the end of the string ([.] does
    not match a line terminator and [$] only matches at the end) and runs
    to the end; [replaceAll] with the [g] flag gives the same string. *)
Fixpoint replaceNulTail (s : JSString) : JSString :=
  match s with
  | [] => []
  | c :: rest =>
      if (c =? 0) && forallb (fun d => negb (isLineTerminator d)) rest
      then []
      else c :: replaceNulTail rest
  end.

(** [s.replace("\0", " ")]: the first NUL only. *)
Fixpoint replaceFirstNul (s : JSString) : JSString :=
  match s with
  | [] => []
  | c :: rest => if c =? 0 then 0x20 :: rest else c :: replaceFirstNul rest
  end.

(** Value of a digit of [parseInt] in the given radix. *)
Definition digitValue (c : Z) : option Z :=
  if (48 <=? c) && (c <=? 57) then Some (c - 48)
  else if (97 <=? c) && (c <=? 122) then Some (c - 97 + 10)
  else if (65 <=? c) && (c <=? 90) then Some (c - 65 + 10)
  else None.

Definition radixDigit (radix c : Z) : option Z :=
  match digitValue c with
  | Some d => if d <? radix then Some d else None
  | None => None
  end.

(** The longest prefix of digits, folded into its value; [None] when the
    prefix is empty. *)
Fixpoint digitsValue (radix : Z) (acc : option Z) (s : JSString) : option Z :=
  match s with
  | [] => acc
  | c :: rest =>
      match radixDigit radix c with
      | Some d => digitsValue radix (Some (nullish acc 0 * radix + d)) rest
      | None => acc
      end
  end.

(** An optional sign in front of a numeric string. *)
Definition signOf (s : JSString) : Z * JSString :=
  match s with
  | c :: r => if c =? 45 then (-1, r) else if c =? 43 then (1, r) else (1, s)
  | [] => (1, s)
  end.

(** The prefix [0x] or [0X] that [parseInt] skips for radix 16. *)
Definition stripHexPrefix (s : JSString) : JSString :=
  match s with
  | a :: b :: r => if (a =? 48) && ((b =? 120) || (b =? 88)) then r else s
  | _ => s
  end.

(** [Number.parseInt(s, radix)] for an explicit radix; [None] is [NaN]. *)
Definition parseInt (s : JSString) (radix : Z) : option Z :=
  let '(sign, s2) := signOf (trimStart s) in
  if (radix <? 2) || (36 <? radix) then None
  else
    let s3 := if radix =? 16 then stripHexPrefix s2 else s2 in
    match digitsValue radix None s3 with
    | Some v => Some (sign * v)
    | None => None
    end.

End JS.

(* ================================================================== *)
(** * Text decoding of the platform *)
(* ================================================================== *)

(** The decoders behind [new TextDecoder(label).decode(bytes)], after the
    WHATWG Encoding Standard, in replacement mode and with the byte order
    mark removed, as the constructor's defaults have it.  They are not code
    of the repository; its tests decode with them and the token readers of
    the token library use string decoders of the same kind. *)
Module TextDecoder.
Import JS.

(** A code point as UTF-16 code units. *)
Definition codeUnits (cp : Z) : list Z :=
  if cp <? 0x10000 then [cp]
  else [0xD800 + (cp - 0x10000) / 1024; 0xDC00 + (cp - 0x10000) mod 1024].

(** The first emitted code point is dropped when it is U+FEFF. *)
Definition stripBOM (s : JSString) : JSString :=
  match s with
  | c :: rest => if c =? 0xFEFF then rest else s
  | [] => s
  end.

(** State after a UTF-8 lead byte: code point bits so far, continuation
    bytes still needed, and the bounds of the next continuation byte. *)
Definition utf8Lead (b : Z) : option (Z * nat * Z * Z) :=
  if (0xC2 <=? b) && (b <=? 0xDF) then Some (Z.land b 0x1F, 1%nat, 0x80, 0xBF)
  else if (0xE0 <=? b) && (b <=? 0xEF) then
    Some (Z.land b 0xF, 2%nat,
          (if b =? 0xE0 then 0xA0 else 0x80), (if b =? 0xED then 0x9F else 0xBF))
  else if (0xF0 <=? b) && (b <=? 0xF4) then
    Some (Z.land b 0x7, 3%nat,
          (if b =? 0xF0 then 0x90 else 0x80), (if b =? 0xF4 then 0x8F else 0xBF))
  else None.

Fixpoint utf8Run (pending : option (Z * nat * Z * Z)) (bytes : list Z)
  : JSString :=
  match bytes with
  | [] => match pending with Some _ => [0xFFFD] | None => [] end
  | b :: rest =>
      match pending with
      | Some (cp, needed, lower, upper) =>
          if (lower <=? b) && (b <=? upper) then
            match needed with
            | S (S n) => utf8Run (Some (cp * 64 + Z.land b 0x3F, S n, 0x80, 0xBF)) rest
            | _ => codeUnits (cp * 64 + Z.land b 0x3F) ++ utf8Run None rest
            end
          else
            (* the byte is put back and read again as a first byte *)
            0xFFFD ::
            (if b <=? 0x7F then b :: utf8Run None rest
             else match utf8Lead b with
                  | Some p => utf8Run (Some p) rest
                  | None => 0xFFFD :: utf8Run None rest
                  end)
      | None =>
          if b <=? 0x7F then b :: utf8Run None rest
          else match utf8Lead b with
               | Some p => utf8Run (Some p) rest
               | None => 0xFFFD :: utf8Run None rest
               end
      end
  end.

Definition utf8 (bytes : list Z) : JSString := stripBOM (utf8Run None bytes).

(** The shared UTF-16 decoder: [leadByte] is the pending first byte of a
    code unit, [leadSurrogate] a pending high surrogate. *)
Fixpoint utf16Run (be : bool) (leadByte leadSurrogate : option Z)
    (bytes : list Z) : JSString :=
  match bytes with
  | [] =>
      match leadByte, leadSurrogate with
      | None, None => []
      | _, _ => [0xFFFD]
      end
  | b :: rest =>
      match leadByte with
      | None => utf16Run be (Some b) leadSurrogate rest
      | Some lb =>
          let unit := if be then lb * 256 + b else b * 256 + lb in
          match leadSurrogate with
          | Some lead =>
              if isLowSurrogate unit
              then lead :: unit :: utf16Run be None None rest
              else
                (* the code unit is put back and read again *)
                0xFFFD ::
                (if isHighSurrogate unit
                 then utf16Run be None (Some unit) rest
                 else unit :: utf16Run be None None rest)
          | None =>
              if isHighSurrogate unit then utf16Run be None (Some unit) rest
              else if isLowSurrogate unit then 0xFFFD :: utf16Run be None None rest
              else unit :: utf16Run be None None rest
          end
      end
  end.

Definition utf16 (be : bool) (bytes : list Z) : JSString :=
  stripBOM (utf16Run be None None bytes).

(** windows-1252, the encoding behind the labels [latin1] and [ascii]. *)
Definition windows1252High : list Z :=
  [0x20AC; 0x0081; 0x201A; 0x0192; 0x201E; 0x2026; 0x2020; 0x2021;
   0x02C6; 0x2030; 0x0160; 0x2039; 0x0152; 0x008D; 0x017D; 0x008F;
   0x0090; 0x2018; 0x2019; 0x201C; 0x201D; 0x2022; 0x2013; 0x2014;
   0x02DC; 0x2122; 0x0161; 0x203A; 0x0153; 0x009D; 0x017E; 0x0178].

Definition windows1252 (bytes : list Z) : JSString :=
  map (fun b => if (0x80 <=? b) && (b <=? 0x9F)
                then nth (Z.to_nat (b - 0x80)) windows1252High b
                else b) bytes.

Definition decode (label : string) (bytes : list Z) : JSString :=
  if String.eqb label "utf8" || String.eqb label "utf-8" then utf8 bytes
  else if String.eqb label "utf-16le" then utf16 false bytes
  else if String.eqb label "utf-16be" then utf16 true bytes
  else windows1252 bytes.

End TextDecoder.

(* ================================================================== *)
(** * Detection results and the external collaborators *)
(* ================================================================== *)

Record FileTypeResult : Type := mkFileType { ext : string; mime : string }.

(** Modelled from the spec: the tokenizer contract of section 4.1.  A
    positioned cursor over a byte source: [data] are the bytes of the source,
    [position] the cursor, [size] the known size of the source
    ([fileInfo.size], absent for a source of unknown size). *)
Record Tokenizer : Type := mkTokenizer {
  data : list Z;
  position : Z;
  size : option Z
}.

(** What the engine takes from outside the repository: the string decoder of
    the token library, the two decompressors, [JSON.parse] and [Number].
    - [decodeText label bytes] is the string a [StringType] of that encoding
      reads from the bytes;
    - [inflate t] is the content of the stream [new GzipHandler(t).inflate()]
      delivers and the tokenizer it leaves;
    - [unzip t] is the walk of [new ZipHandler(t).unzip(callback)] with the
      callback of the detector: the value of its variable [fileType] when
      the walk ends and the tokenizer it leaves, or no value when the walk
      throws;
    - [jsonHasFiles bytes] says that decoding these bytes and parsing them
      as JSON succeeds with a value whose [files] property is truthy;
    - [numberInRange s lo hi] is [Number(s) >= lo && Number(s) <= hi]. *)
Record Host : Type := mkHost {
  decodeText : string -> list Z -> JS.JSString;
  inflate : Tokenizer -> list Z * Tokenizer;
  unzip : Tokenizer -> option (option FileTypeResult * Tokenizer);
  jsonHasFiles : list Z -> bool;
  numberInRange : JS.JSString -> Z -> Z -> bool
}.

(* ================================================================== *)
(** * util: stringToBytes, the ID3 sync-safe token *)
(* ================================================================== *)

Module Util.
Import JS.

(** [[...string].map(character => character.charCodeAt(0))]: the string
    iterator walks code points, so of a surrogate pair only the first code
    unit is kept. *)
Fixpoint codePointHeads (s : JSString) : list Z :=
  match s with
  | [] => []
  | c :: rest =>
      match rest with
      | d :: rest' =>
          if isHighSurrogate c && isLowSurrogate d
          then c :: codePointHeads rest'
          else c :: codePointHeads rest
      | [] => [c]
      end
  end.

Fixpoint utf16leBytes (s : JSString) : list Z :=
  match s with
  | [] => []
  | code :: rest => bitAnd code 0xff :: bitAnd (shr code 8) 0xff :: utf16leBytes rest
  end.

Fixpoint utf16beBytes (s : JSString) : list Z :=
  match s with
  | [] => []
  | code :: rest => bitAnd (shr code 8) 0xff :: bitAnd code 0xff :: utf16beBytes rest
  end.

Definition stringToBytes (string : JSString) (encoding : option String.string)
  : list Z :=
  match encoding with
  | Some e =>
      if String.eqb e "utf-16le" then utf16leBytes string
      else if String.eqb e "utf-16be" then utf16beBytes string
      else codePointHeads string
  | None => codePointHeads string
  end.

(** [uint32SyncSafeToken.get(buffer, offset)]. *)
Definition uint32SyncSafeToken_get (buffer : list Z) (offset : Z) : Z :=
  bitOr (bitOr (bitOr (bitAnd (nullish (get buffer (offset + 3)) 0) 0x7f)
                      (shl (nullish (get buffer (offset + 2)) 0) 7))
               (shl (nullish (get buffer (offset + 1)) 0) 14))
        (shl (nullish (get buffer offset) 0) 21).

Definition uint32SyncSafeToken_len : Z := 4.

(** [new StringType(len, encoding).get(array, offset)]. *)
Definition StringType_get (H : Host) (len : Z) (encoding : String.string)
    (array : list Z) (offset : Z) : JSString :=
  decodeText H encoding (subarray array offset (offset + len)).

(** [for (let index = from; ...; index++) { sum += arrayBuffer[index] ?? 0 }],
    [count] iterations from [index] on. *)
Fixpoint sumLoop (arrayBuffer : list Z) (index : Z) (count : nat) (sum : Z) : Z :=
  match count with
  | O => sum
  | S n => sumLoop arrayBuffer (index + 1) n (sum + nullish (get arrayBuffer index) 0)
  end.

Definition tarHeaderChecksumMatches (H : Host) (arrayBuffer : list Z)
    (offset : Z) : bool :=
  let readSum :=
    parseInt (trim (replaceNulTail (StringType_get H 6 "utf8" arrayBuffer 148))) 8 in
  match readSum with
  | None => false
  | Some readSum =>
      let sum := 8 * 0x20 in
      let sum := sumLoop arrayBuffer offset (Z.to_nat (offset + 148 - offset)) sum in
      let sum := sumLoop arrayBuffer (offset + 156)
                         (Z.to_nat (offset + 512 - (offset + 156))) sum in
      readSum =? sum
  end.

End Util.

(* ================================================================== *)
(** * The pattern predicate *)
(* ================================================================== *)

Module Pattern.
Import JS.

(** The loop of [_check] over [headers.entries()], from [index] on. *)
Fixpoint checkFrom (buffer : list Z) (offset : Z) (mask : option (list Z))
    (index : Z) (headers : list Z) : bool :=
  match headers with
  | [] => true
  | header :: rest =>
      match mask with
      | Some m =>
          let maskBit := nullish (get m index) 0 in
          let bit := nullish (get buffer (index + offset)) 0 in
          if negb (header =? bitAnd maskBit bit) then false
          else checkFrom buffer offset mask (index + 1) rest
      | None =>
          match get buffer (index + offset) with
          | Some b =>
              if negb (header =? b) then false
              else checkFrom buffer offset mask (index + 1) rest
          | None => false
          end
      end
  end.

Definition _check (buffer : list Z) (headers : list Z)
    (offset : option Z) (mask : option (list Z)) : bool :=
  checkFrom buffer (nullish offset 0) mask 0 headers.

End Pattern.

(* ================================================================== *)
(** * Tokenizer operations and the detection monad *)
(* ================================================================== *)

Inductive Error : Type :=
| EndOfStreamError   (* a read or skip needs more bytes than the source has *)
| CollaboratorError  (* a decompressor failed *)
| OutOfFuel.         (* the run did not end within the given number of steps *)

Inductive Outcome (S A : Type) : Type :=
| Done (a : A) (s : S)
| Throw (e : Error).
Arguments Done {S A} a s.
Arguments Throw {S A} e.

(** The parser and its tokenizer: [buffer] is the field [this.buffer], the
    sample the predicates look at. *)
Record State : Type := mkState {
  tokenizer : Tokenizer;
  buffer : list Z
}.

Definition M (A : Type) : Type := State -> Outcome State A.

Definition ret {A : Type} (a : A) : M A := fun st => Done a st.

Definition bind {A B : Type} (m : M A) (k : A -> M B) : M B :=
  fun st =>
    match m st with
    | Done a st' => k a st'
    | Throw e => Throw e
    end.

Definition throw {A : Type} (e : Error) : M A := fun _ => Throw e.

Declare Scope detect_scope.
Delimit Scope detect_scope with detect.
Notation "x <- m ;; k" := (bind m (fun x => k))
  (at level 61, m at next level, right associativity) : detect_scope.
Notation "m ;;; k" := (bind m (fun _ => k))
  (at level 61, right associativity) : detect_scope.

Module Tok.
Import JS.

(** Modelled from the spec: the operations of the tokenizer contract
    (section 4.1): [peek] fills the destination with the bytes at the cursor
    and leaves the cursor where it is, [read] does the same and advances by
    what it delivered, [skip] advances by exactly [n] or fails; a read that
    may not be short fails when the source has fewer bytes. *)
Definition remaining (t : Tokenizer) : list Z :=
  skipn (Z.to_nat (position t)) (data t).

Definition advance (t : Tokenizer) (n : Z) : Tokenizer :=
  mkTokenizer (data t) (position t + n) (size t).

(** [tokenizer.peekBuffer(this.buffer, {length, mayBeLess: true})].  The
    destination is an array of fixed length: it keeps its length, and bytes
    that would fall behind its end are not stored. *)
Definition peekBuffer (length : Z) : M unit :=
  fun st =>
    let bytes := firstn (Z.to_nat length) (remaining (tokenizer st)) in
    Done tt (mkState (tokenizer st)
                     (firstn (List.length (buffer st))
                             (bytes ++ skipn (List.length bytes) (buffer st)))).

(** [tokenizer.readBuffer(new Uint8Array(length))], and the bytes of a
    token of that length read by [tokenizer.readToken]. *)
Definition readBuffer (length : Z) : M (list Z) :=
  fun st =>
    let bytes := firstn (Z.to_nat length) (remaining (tokenizer st)) in
    if Z.of_nat (List.length bytes) <? length then Throw EndOfStreamError
    else Done bytes (mkState (advance (tokenizer st) (Z.of_nat (List.length bytes)))
                             (buffer st)).

(** [tokenizer.peekNumber(Token.UINT8)]. *)
Definition peekUint8 : M Z :=
  fun st =>
    match remaining (tokenizer st) with
    | b :: _ => Done b st
    | [] => Throw EndOfStreamError
    end.

(** [tokenizer.ignore(n)]. *)
Definition ignore (n : Z) : M unit :=
  fun st =>
    if Z.of_nat (List.length (remaining (tokenizer st))) <? n then Throw EndOfStreamError
    else Done tt (mkState (advance (tokenizer st) n) (buffer st)).

Definition getPosition : M Z := fun st => Done (position (tokenizer st)) st.

(** [tokenizer.fileInfo.size] once the detector has replaced an unknown
    size by [Number.MAX_SAFE_INTEGER]. *)
Definition fileSize (t : Tokenizer) : Z := nullish (size t) MAX_SAFE_INTEGER.

Definition getSize : M Z := fun st => Done (fileSize (tokenizer st)) st.

(** [if (tokenizer.fileInfo.size === undefined)
       tokenizer.fileInfo.size = Number.MAX_SAFE_INTEGER]. *)
Definition defaultSize : M unit :=
  fun st =>
    Done tt (mkState (mkTokenizer (data (tokenizer st)) (position (tokenizer st))
                                  (Some (fileSize (tokenizer st))))
                     (buffer st)).

(** [strtok3.fromBuffer(bytes)]. *)
Definition fromBuffer (bytes : list Z) : Tokenizer :=
  mkTokenizer bytes 0 (Some (Z.of_nat (List.length bytes))).

(** The tokenizer over a stream: the size of the source is not known. *)
Definition fromStream (bytes : list Z) : Tokenizer :=
  mkTokenizer bytes 0 None.

End Tok.

(** Fixed tokens of the token library, read from an array at an offset. *)
Module Token.
Import JS.

Definition u8 (array : list Z) (i : Z) : Z := nullish (get array i) 0.

Definition UINT16_LE (array : list Z) (o : Z) : Z := u8 array o + 256 * u8 array (o + 1).
Definition UINT16_BE (array : list Z) (o : Z) : Z := 256 * u8 array o + u8 array (o + 1).
Definition UINT32_LE (array : list Z) (o : Z) : Z :=
  u8 array o + 2 ^ 8 * u8 array (o + 1) + 2 ^ 16 * u8 array (o + 2) + 2 ^ 24 * u8 array (o + 3).
Definition UINT32_BE (array : list Z) (o : Z) : Z :=
  2 ^ 24 * u8 array o + 2 ^ 16 * u8 array (o + 1) + 2 ^ 8 * u8 array (o + 2) + u8 array (o + 3).
Definition INT32_BE (array : list Z) (o : Z) : Z := toInt32 (UINT32_BE array o).
Definition UINT64_LE (array : list Z) (o : Z) : Z :=
  UINT32_LE array o + 2 ^ 32 * UINT32_LE array (o + 4).

Definition UINT16 (bigEndian : bool) := if bigEndian then UINT16_BE else UINT16_LE.
Definition UINT32 (bigEndian : bool) := if bigEndian then UINT32_BE else UINT32_LE.

(** [Number(n)] of a non-negative [bigint]: the nearest double, ties to
    even. *)
Definition Number_ofBigInt (n : Z) : Z :=
  if n <? 2 ^ 53 then n
  else
    let shift := Z.log2 n + 1 - 53 in
    let q := Z.shiftr n shift in
    let r := n mod 2 ^ shift in
    let half := 2 ^ (shift - 1) in
    let q' := if (half <? r) || ((r =? half) && Z.odd q) then q + 1 else q in
    Z.shiftl q' shift.

(** [getUintBE(view)] of the array helpers: big-endian, for views of one
    to six bytes; no value for any other length. *)
Definition getUintBE (view : list Z) : option Z :=
  if (1 <=? Z.of_nat (List.length view)) && (Z.of_nat (List.length view) <=? 6)
  then Some (fold_left (fun acc b => acc * 256 + b) view 0)
  else None.

End Token.

(* ================================================================== *)
(** * core: the parser *)
(* ================================================================== *)

Module Core.
Import JS Util Pattern.
Local Open Scope detect_scope.

Definition reasonableDetectionSizeInBytes : Z := 4100.

(** A detector as the options take it: it is handed the tokenizer. *)
Record Detector : Type := mkDetector {
  id : string;
  detect : Tokenizer -> Outcome Tokenizer (option FileTypeResult)
}.

(** An entry of [this.detectors]: a detector bound to the parser, which may
    also use the parser's sample buffer. *)
Record Registered : Type := mkRegistered {
  rid : string;
  run : M (option FileTypeResult)
}.

Record Options : Type := mkOptions {
  mpegOffsetTolerance : Z;
  customDetectors : list Detector
}.

(** A user-supplied detector among [this.detectors]: it moves the tokenizer
    and leaves the parser's buffer alone. *)
Definition registerCustom (d : Detector) : Registered :=
  mkRegistered (id d)
    (fun st =>
       match detect d (tokenizer st) with
       | Done r t' => Done r (mkState t' (buffer st))
       | Throw e => Throw e
       end).

(** ** Statements with early return

    A statement of a function body either completes ([None]) and the next
    statement runs, or leaves the function with [return v] ([Some v]). *)
Definition Stmt : Type := M (option (option FileTypeResult)).

Definition next : Stmt := ret None.
Definition returns (v : option FileTypeResult) : Stmt := ret (Some v).
Definition found (e m : string) : Stmt := returns (Some (mkFileType e m)).

Fixpoint block (statements : list Stmt) : Stmt :=
  match statements with
  | [] => next
  | s :: rest =>
      fun st =>
        match s st with
        | Done None st' => block rest st'
        | Done (Some v) st' => Done (Some v) st'
        | Throw e => Throw e
        end
  end.

(** A function body: falling off its end returns [undefined]. *)
Definition body (statements : list Stmt) : M (option FileTypeResult) :=
  r <- block statements ;;
  ret (match r with Some v => v | None => None end).

(** [await m;] as a statement. *)
Definition exec (m : M unit) : Stmt := m ;;; next.

(** [return await m;]. *)
Definition returnOf (m : M (option FileTypeResult)) : Stmt :=
  r <- m ;; returns r.

(** A condition on the sample buffer. *)
Definition Cond : Type := list Z -> bool.

(** [if (c) { s }]. *)
Definition when (c : Cond) (s : Stmt) : Stmt :=
  fun st => if c (buffer st) then s st else Done None st.

(** [if (c) { return {ext, mime}; }]. *)
Definition sig (c : Cond) (e m : string) : Stmt := when c (found e m).

Definition cor (p q : Cond) : Cond := fun b => p b || q b.
Definition cand (p q : Cond) : Cond := fun b => p b && q b.
Infix "|||" := cor (at level 50, left associativity) : detect_scope.
Infix "&&&" := cand (at level 40, left associativity) : detect_scope.

(** [this.check(header, {offset, mask})] and
    [this.checkString(header, {offset, encoding})]. *)
Definition check (header : list Z) (offset : option Z) (mask : option (list Z))
  : Cond :=
  fun buffer => _check buffer header offset mask.

Definition checkString (header : JSString) (offset : option Z)
    (encoding : option string) : Cond :=
  check (stringToBytes header encoding) offset None.

(** [this.buffer[i] === v]. *)
Definition byteIs (i v : Z) : Cond :=
  fun buffer => match get buffer i with Some b => b =? v | None => false end.

(** Short forms for the calls without options and with an offset only. *)
Definition chk (header : list Z) : Cond := check header None None.
Definition chkAt (header : list Z) (offset : Z) : Cond := check header (Some offset) None.
Definition str (s : string) : Cond := checkString (lit s) None None.
Definition strAt (s : string) (offset : Z) : Cond := checkString (lit s) (Some offset) None.

(** ** scanMpeg *)
Definition scanMpeg (offset : Z) (buffer : list Z) : option FileTypeResult :=
  if check [0xff; 0xe0] (Some offset) (Some [0xff; 0xe0]) buffer then
    if check [0x10] (Some (offset + 1)) (Some [0x16]) buffer then
      if check [0x08] (Some (offset + 1)) (Some [0x08]) buffer
      then Some (mkFileType "aac" "audio/aac")
      else Some (mkFileType "aac" "audio/aac")
    else if check [0x02] (Some (offset + 1)) (Some [0x06]) buffer
    then Some (mkFileType "mp3" "audio/mpeg")
    else if check [0x04] (Some (offset + 1)) (Some [0x06]) buffer
    then Some (mkFileType "mp2" "audio/mpeg")
    else if check [0x06] (Some (offset + 1)) (Some [0x06]) buffer
    then Some (mkFileType "mp1" "audio/mpeg")
    else None
  else None.

(** [for (let depth = from; depth <= tolerance; ++depth)], [count]
    iterations from [depth] on. *)
Fixpoint scanDepths (buffer : list Z) (depth : Z) (count : nat)
  : option FileTypeResult :=
  match count with
  | O => None
  | S n =>
      match scanMpeg depth buffer with
      | Some type => Some type
      | None => scanDepths buffer (depth + 1) n
      end
  end.

Section WithHost.
Variable H : Host.
Variable options : Options.

(** ** TIFF *)
Definition readTiffTag (bigEndian : bool) : M (option FileTypeResult) :=
  bytes <- Tok.readBuffer 2 ;;
  let tagId := Token.UINT16 bigEndian bytes 0 in
  Tok.ignore 10 ;;;
  ret (if tagId =? 50341 then Some (mkFileType "arw" "image/x-sony-arw")
       else if tagId =? 50706 then Some (mkFileType "dng" "image/x-adobe-dng")
       else None).

(** The loop of [readTiffIFD], [count] tags left. *)
Fixpoint readTiffTags (bigEndian : bool) (count : nat)
  : M (option FileTypeResult) :=
  match count with
  | O => ret None
  | S n =>
      fileType <- readTiffTag bigEndian ;;
      match fileType with
      | Some r => ret (Some r)
      | None => readTiffTags bigEndian n
      end
  end.

Definition readTiffIFD (bigEndian : bool) : M (option FileTypeResult) :=
  bytes <- Tok.readBuffer 2 ;;
  let numberOfTags := Token.UINT16 bigEndian bytes 0 in
  if numberOfTags =? 0 then ret None
  else readTiffTags bigEndian (Z.to_nat numberOfTags).

Definition readTiffHeader (bigEndian : bool) : M (option FileTypeResult) :=
  fun st =>
    let version := Token.UINT16 bigEndian (buffer st) 2 in
    let ifdOffset := Token.UINT32 bigEndian (buffer st) 4 in
    if version =? 42 then
      if (6 <=? ifdOffset) && strAt "CR" 8 (buffer st)
      then Done (Some (mkFileType "cr2" "image/x-canon-cr2")) st
      else
        let someId1 := Token.UINT16 bigEndian (buffer st) 8 in
        let someId2 := Token.UINT16 bigEndian (buffer st) 10 in
        if (6 <=? ifdOffset) && (8 <=? ifdOffset)
           && (((someId1 =? 0x1c) && (someId2 =? 0xfe))
               || ((someId1 =? 0x1f) && (someId2 =? 0x0b)))
        then Done (Some (mkFileType "nef" "image/x-nikon-nef")) st
        else
          (Tok.ignore ifdOffset ;;;
           fileType <- readTiffIFD bigEndian ;;
           ret (Some (nullish fileType (mkFileType "tif" "image/tiff")))) st
    else if version =? 43 then Done (Some (mkFileType "tif" "image/tiff")) st
    else Done None st.

(** [if (this.check(magic)) { const fileType = await
    this.readTiffHeader(bigEndian); if (fileType) return fileType; }]. *)
Definition tiffArm (magic : list Z) (bigEndian : bool) : Stmt :=
  when (chk magic)
    (fileType <- readTiffHeader bigEndian ;;
     match fileType with
     | Some r => returns (Some r)
     | None => next
     end).

(** ** EBML (Matroska, WebM) *)

(** [while ((msb & mask) === 0 && mask !== 0) { ++ic; mask >>= 1; }];
    the mask is zero after eight shifts, [steps] bounds the loop. *)
Fixpoint fieldWidth (msb mask ic : Z) (steps : nat) : Z :=
  match steps with
  | O => ic
  | S n =>
      if (bitAnd msb mask =? 0) && negb (mask =? 0)
      then fieldWidth msb (shr mask 1) (ic + 1) n
      else ic
  end.

Definition readField : M (list Z) :=
  msb <- Tok.peekUint8 ;;
  let ic := fieldWidth msb 0x80 0 9 in
  Tok.readBuffer (ic + 1).

(** The element header: its id ([undefined] for an id field of more than
    six bytes) and the length of its payload; the view of the length has
    between one and six bytes. *)
Definition readElement : M (option Z * Z) :=
  idField <- readField ;;
  lengthField <- readField ;;
  let n := Z.of_nat (List.length lengthField) in
  let first := bitXor (nth 0 lengthField 0) (shr 0x80 (n - 1)) mod 256 in
  let lengthField := first :: tl lengthField in
  let nrLength := Z.min 6 n in
  let lengthView := subarray lengthField (n - nrLength) n in
  ret (Token.getUintBE idField, nullish (Token.getUintBE lengthView) 0).

Fixpoint readChildren (fuel : nat) (children : Z) : M (option JSString) :=
  match fuel with
  | O => throw OutOfFuel
  | S f =>
      if 0 <? children then
        element <- readElement ;;
        match fst element with
        | Some 0x4282 =>
            bytes <- Tok.readBuffer (snd element) ;;
            ret (Some (replaceNulTail (decodeText H "utf8" bytes)))
        | _ =>
            Tok.ignore (snd element) ;;;
            readChildren f (children - 1)
        end
      else ret None
  end.

Definition ebmlArm (fuel : nat) : Stmt :=
  when (chk [0x1a; 0x45; 0xdf; 0xa3])
    (re <- readElement ;;
     documentType <- readChildren fuel (snd re) ;;
     match documentType with
     | Some t =>
         if eqs t (lit "webm") then found "webm" "video/webm"
         else if eqs t (lit "matroska") then found "mkv" "video/matroska"
         else returns None
     | None => returns None
     end).

(** ** OGG *)
Definition oggArm : Stmt :=
  when (str "OggS")
    (Tok.ignore 28 ;;;
     type <- Tok.readBuffer 8 ;;
     if _check type [0x4f; 0x70; 0x75; 0x73; 0x48; 0x65; 0x61; 0x64] None None
     then found "opus" "audio/ogg; codecs=opus"
     else if _check type [0x80; 0x74; 0x68; 0x65; 0x6f; 0x72; 0x61] None None
     then found "ogv" "video/ogg"
     else if _check type [0x01; 0x76; 0x69; 0x64; 0x65; 0x6f; 0x00] None None
     then found "ogm" "video/ogg"
     else if _check type [0x7f; 0x46; 0x4c; 0x41; 0x43] None None
     then found "oga" "audio/ogg"
     else if _check type [0x53; 0x70; 0x65; 0x65; 0x78; 0x20; 0x20] None None
     then found "spx" "audio/ogg"
     else if _check type [0x01; 0x76; 0x6f; 0x72; 0x62; 0x69; 0x73] None None
     then found "ogg" "audio/ogg"
     else found "ogx" "application/ogg").

(** ** PNG: the chunk walk, a [do ... while] loop *)
Fixpoint pngChunks (fuel : nat) : M (option FileTypeResult) :=
  match fuel with
  | O => throw OutOfFuel
  | S f =>
      lengthBytes <- Tok.readBuffer 4 ;;
      typeBytes <- Tok.readBuffer 4 ;;
      let length := Token.INT32_BE lengthBytes 0 in
      let type := decodeText H "latin1" typeBytes in
      if length <? 0 then ret None
      else if eqs type (lit "IDAT") then ret (Some (mkFileType "png" "image/png"))
      else if eqs type (lit "acTL") then ret (Some (mkFileType "apng" "image/apng"))
      else
        Tok.ignore (length + 4) ;;;
        pos <- Tok.getPosition ;;
        size <- Tok.getSize ;;
        if pos + 8 <? size then pngChunks f
        else ret (Some (mkFileType "png" "image/png"))
  end.

Definition pngArm (fuel : nat) : Stmt :=
  when (chk [0x89; 0x50; 0x4e; 0x47; 0x0d; 0x0a; 0x1a; 0x0a])
    (Tok.ignore 8 ;;; returnOf (pngChunks fuel)).

(** ** ASF: the walk over the header objects *)
Fixpoint asfHeaders (fuel : nat) : M (option FileTypeResult) :=
  match fuel with
  | O => throw OutOfFuel
  | S f =>
      pos <- Tok.getPosition ;;
      size <- Tok.getSize ;;
      if pos + 24 <? size then
        guid <- Tok.readBuffer 16 ;;
        sizeBytes <- Tok.readBuffer 8 ;;
        let payload := Token.Number_ofBigInt (Token.UINT64_LE sizeBytes 0) - 24 in
        if _check guid [0x91; 0x07; 0xdc; 0xb7; 0xb7; 0xa9; 0xcf; 0x11;
                        0x8e; 0xe6; 0x00; 0xc0; 0x0c; 0x20; 0x53; 0x65] None None
        then
          typeId <- Tok.readBuffer 16 ;;
          if _check typeId [0x40; 0x9e; 0x69; 0xf8; 0x4d; 0x5b; 0xcf; 0x11;
                            0xa8; 0xfd; 0x00; 0x80; 0x5f; 0x5c; 0x44; 0x2b] None None
          then ret (Some (mkFileType "asf" "audio/x-ms-asf"))
          else if _check typeId [0xc0; 0xef; 0x19; 0xbc; 0x4d; 0x5b; 0xcf; 0x11;
                                 0xa8; 0xfd; 0x00; 0x80; 0x5f; 0x5c; 0x44; 0x2b] None None
          then ret (Some (mkFileType "asf" "video/x-ms-asf"))
          else ret (Some (mkFileType "asf" "application/vnd.ms-asf"))
        else
          Tok.ignore payload ;;;
          asfHeaders f
      else ret (Some (mkFileType "asf" "application/vnd.ms-asf"))
  end.

Definition asfArm (fuel : nat) : Stmt :=
  when (chk [0x30; 0x26; 0xb2; 0x75; 0x8e; 0x66; 0xcf; 0x11; 0xa6; 0xd9])
    (Tok.ignore 30 ;;; returnOf (asfHeaders fuel)).

(** ** JPEG-2000 *)
Definition jp2Arm : Stmt :=
  when (chk [0x00; 0x00; 0x00; 0x0c; 0x6a; 0x50; 0x20; 0x20; 0x0d; 0x0a; 0x87; 0x0a])
    (Tok.ignore 20 ;;;
     bytes <- Tok.readBuffer 4 ;;
     let type := decodeText H "ascii" bytes in
     if eqs type (lit "jp2 ") then found "jp2" "image/jp2"
     else if eqs type (lit "jpx ") then found "jpx" "image/jpx"
     else if eqs type (lit "jpm ") then found "jpm" "image/jpm"
     else if eqs type (lit "mjp2") then found "mj2" "image/mj2"
     else returns None).

(** ** ar and deb *)
Definition archArm : Stmt :=
  when (str "!<arch>")
    (Tok.ignore 8 ;;;
     bytes <- Tok.readBuffer 13 ;;
     if eqs (decodeText H "ascii" bytes) (lit "debian-binary")
     then found "deb" "application/x-deb"
     else found "ar" "application/x-unix-archive").

(** ** Arms of the core detector that need more than a byte pattern *)

Definition withBuffer (f : list Z -> Stmt) : Stmt := fun st => f (buffer st) st.

Definition setBuffer (b : list Z) : M unit :=
  fun st => Done tt (mkState (tokenizer st) b).

Definition freshBuffer : list Z :=
  repeat 0 (Z.to_nat reasonableDetectionSizeInBytes).

(** PostScript: [%!]. *)
Definition psArm : Stmt :=
  when (chk [0x25; 0x21])
    (Tok.peekBuffer 24 ;;;
     block [ sig (strAt "PS-Adobe-" 2 &&& strAt " EPSF-" 14) "eps" "application/eps";
             found "ps" "application/postscript" ]).

(** UTF-8 byte order mark: strip it and detect again. *)
Definition bomArm (self : M (option FileTypeResult)) : Stmt :=
  when (chk [0xef; 0xbb; 0xbf]) (Tok.ignore 3 ;;; returnOf self).

(** gzip: the nested detection [this.fromStream(stream)] runs the whole
    pipeline of this parser on a tokenizer over the inflated stream. *)
Definition gzipArm (pipeline : M (option FileTypeResult)) : Stmt :=
  when (chk [0x1f; 0x8b; 0x8])
    (fun st =>
       let '(inflated, t') := inflate H (tokenizer st) in
       match pipeline (mkState (Tok.fromStream inflated) (buffer st)) with
       | Done compressedFileType st2 =>
           let st' := mkState t' (buffer st2) in
           match compressedFileType with
           | Some ft =>
               if String.eqb (ext ft) "tar"
               then found "tar.gz" "application/gzip" st'
               else found "gz" "application/gzip" st'
           | None => found "gz" "application/gzip" st'
           end
       | Throw e => Throw e
       end).

(** ID3: skip the tag and run the whole pipeline on what follows. *)
Definition id3Arm (pipeline : M (option FileTypeResult)) : Stmt :=
  when (str "ID3")
    (Tok.ignore 6 ;;;
     bytes <- Tok.readBuffer uint32SyncSafeToken_len ;;
     let id3HeaderLength := uint32SyncSafeToken_get bytes 0 in
     pos <- Tok.getPosition ;;
     size <- Tok.getSize ;;
     if size <? pos + id3HeaderLength then found "mp3" "audio/mpeg"
     else Tok.ignore id3HeaderLength ;;; returnOf pipeline).

(** ZIP local file header: the walk of the archive is the collaborator's. *)
Definition zipArm : Stmt :=
  when (chk [0x50; 0x4b; 0x3; 0x4])
    (fun st =>
       match unzip H (tokenizer st) with
       | Some (fileType, t') =>
           returns (Some (nullish fileType (mkFileType "zip" "application/zip")))
                   (mkState t' (buffer st))
       | None => Throw CollaboratorError
       end).

(** AutoCAD: [AC] and a version number. *)
Definition dwgArm : Stmt :=
  when (str "AC")
    (withBuffer (fun b =>
       let version := StringType_get H 4 "latin1" b 2 in
       if numberInRange H version 1000 1050 then found "dwg" "image/vnd.dwg"
       else next)).

(** [case s:] of a [switch] over a string. *)
Definition caseOf (subject : JSString) (s : string) : bool := eqs subject (lit s).

(** ISO base media: the brand major of the [ftyp] box. *)
Definition ftypBrand (b : list Z) : FileTypeResult :=
  let brandMajor := trim (replaceFirstNul (StringType_get H 4 "latin1" b 8)) in
  if caseOf brandMajor "avif" || caseOf brandMajor "avis" then mkFileType "avif" "image/avif"
  else if caseOf brandMajor "mif1" then mkFileType "heic" "image/heif"
  else if caseOf brandMajor "msf1" then mkFileType "heic" "image/heif-sequence"
  else if caseOf brandMajor "heic" || caseOf brandMajor "heix" then mkFileType "heic" "image/heic"
  else if caseOf brandMajor "hevc" || caseOf brandMajor "hevx" then mkFileType "heic" "image/heic-sequence"
  else if caseOf brandMajor "qt" then mkFileType "mov" "video/quicktime"
  else if caseOf brandMajor "M4V" || caseOf brandMajor "M4VH" || caseOf brandMajor "M4VP" then mkFileType "m4v" "video/x-m4v"
  else if caseOf brandMajor "M4P" then mkFileType "m4p" "video/mp4"
  else if caseOf brandMajor "M4B" then mkFileType "m4b" "audio/mp4"
  else if caseOf brandMajor "M4A" then mkFileType "m4a" "audio/x-m4a"
  else if caseOf brandMajor "F4V" then mkFileType "f4v" "video/mp4"
  else if caseOf brandMajor "F4P" then mkFileType "f4p" "video/mp4"
  else if caseOf brandMajor "F4A" then mkFileType "f4a" "audio/mp4"
  else if caseOf brandMajor "F4B" then mkFileType "f4b" "audio/mp4"
  else if caseOf brandMajor "crx" then mkFileType "cr3" "image/x-canon-cr3"
  else if startsWith brandMajor (lit "3g") then
    if startsWith brandMajor (lit "3g2") then mkFileType "3g2" "video/3gpp2"
    else mkFileType "3gp" "video/3gpp"
  else mkFileType "mp4" "video/mp4".

Definition ftypArm : Stmt :=
  when (strAt "ftyp" 4
        &&& (fun b => negb (bitAnd (nullish (get b 8) 0) 0x60 =? 0x00)))
    (withBuffer (fun b => returns (Some (ftypBrand b)))).

(** Pickle/ASAR. *)
Definition asarArm : Stmt :=
  when (chk [0x04; 0x00; 0x00; 0x00] &&& (fun b => 16 <=? Z.of_nat (List.length b)))
    (withBuffer (fun b =>
       let jsonSize := Token.UINT32_LE b 12 in
       if (12 <? jsonSize) && (jsonSize + 16 <=? Z.of_nat (List.length b)) then
         if jsonHasFiles H (subarray b 16 (jsonSize + 16))
         then found "asar" "application/x-asar"
         else next
       else next)).

(** [await tokenizer.peekBuffer(this.buffer,
      {length: Math.min(n, tokenizer.fileInfo.size), mayBeLess: true})]. *)
Definition expandSample (n : Z) : Stmt :=
  exec (size <- Tok.getSize ;; Tok.peekBuffer (Z.min n size)).

(** ** The battery of the core detector

    The statements of [detectConfident] after its first peek, in source
    order; [self] is the recursive call [this.detectConfident(tokenizer)]
    and [pipeline] the call [this.fromTokenizer(tokenizer)]. *)
Definition statements32 (fuel : nat) (self pipeline : M (option FileTypeResult))
  : list Stmt :=
  [ (* -- 2-byte signatures -- *)
    sig (chk [0x42; 0x4d]) "bmp" "image/bmp";
    sig (chk [0x0b; 0x77]) "ac3" "audio/vnd.dolby.dd-raw";
    sig (chk [0x78; 0x01]) "dmg" "application/x-apple-diskimage";
    sig (chk [0x4d; 0x5a]) "exe" "application/x-msdownload";
    psArm;
    sig (chk [0x1f; 0xa0] ||| chk [0x1f; 0x9d]) "Z" "application/x-compress";
    sig (chk [0xc7; 0x71]) "cpio" "application/x-cpio";
    sig (chk [0x60; 0xea]) "arj" "application/x-arj";
    (* -- 3-byte signatures -- *)
    bomArm self;
    sig (chk [0x47; 0x49; 0x46]) "gif" "image/gif";
    sig (chk [0x49; 0x49; 0xbc]) "jxr" "image/vnd.ms-photo";
    gzipArm pipeline;
    sig (chk [0x42; 0x5a; 0x68]) "bz2" "application/x-bzip2";
    id3Arm pipeline;
    sig (str "MP+") "mpc" "audio/x-musepack";
    sig ((byteIs 0 0x43 ||| byteIs 0 0x46) &&& chkAt [0x57; 0x53] 1)
        "swf" "application/x-shockwave-flash";
    (* -- 4-byte signatures -- *)
    when (chk [0xff; 0xd8; 0xff])
      (block [ sig (chkAt [0xf7] 3) "jls" "image/jls";
               found "jpg" "image/jpeg" ]);
    sig (chk [0x4f; 0x62; 0x6a; 0x01]) "avro" "application/avro";
    sig (str "FLIF") "flif" "image/flif";
    sig (str "8BPS") "psd" "image/vnd.adobe.photoshop";
    sig (str "MPCK") "mpc" "audio/x-musepack";
    sig (str "FORM") "aif" "audio/aiff";
    sig (strAt "icns" 0) "icns" "image/icns";
    zipArm;
    oggArm;
    sig (chk [0x50; 0x4b]
         &&& (byteIs 2 0x3 ||| byteIs 2 0x5 ||| byteIs 2 0x7)
         &&& (byteIs 3 0x4 ||| byteIs 3 0x6 ||| byteIs 3 0x8))
        "zip" "application/zip";
    sig (str "MThd") "mid" "audio/midi";
    sig (str "wOFF" &&& (chkAt [0x00; 0x01; 0x00; 0x00] 4 ||| strAt "OTTO" 4))
        "woff" "font/woff";
    sig (str "wOF2" &&& (chkAt [0x00; 0x01; 0x00; 0x00] 4 ||| strAt "OTTO" 4))
        "woff2" "font/woff2";
    sig (chk [0xd4; 0xc3; 0xb2; 0xa1] ||| chk [0xa1; 0xb2; 0xc3; 0xd4])
        "pcap" "application/vnd.tcpdump.pcap";
    sig (str "DSD ") "dsf" "audio/x-dsf";
    sig (str "LZIP") "lz" "application/x-lzip";
    sig (str "fLaC") "flac" "audio/flac";
    sig (chk [0x42; 0x50; 0x47; 0xfb]) "bpg" "image/bpg";
    sig (str "wvpk") "wv" "audio/wavpack";
    sig (str "%PDF") "pdf" "application/pdf";
    sig (chk [0x00; 0x61; 0x73; 0x6d]) "wasm" "application/wasm";
    tiffArm [0x49; 0x49] false;
    tiffArm [0x4d; 0x4d] true;
    sig (str "MAC ") "ape" "audio/ape";
    ebmlArm fuel;
    sig (str "SQLi") "sqlite" "application/x-sqlite3";
    sig (chk [0x4e; 0x45; 0x53; 0x1a]) "nes" "application/x-nintendo-nes-rom";
    sig (str "Cr24") "crx" "application/x-google-chrome-extension";
    sig (str "MSCF" ||| str "ISc(") "cab" "application/vnd.ms-cab-compressed";
    sig (chk [0xed; 0xab; 0xee; 0xdb]) "rpm" "application/x-rpm";
    sig (chk [0xc5; 0xd0; 0xd3; 0xc6]) "eps" "application/eps";
    sig (chk [0x28; 0xb5; 0x2f; 0xfd]) "zst" "application/zstd";
    sig (chk [0x7f; 0x45; 0x4c; 0x46]) "elf" "application/x-elf";
    sig (chk [0x21; 0x42; 0x44; 0x4e]) "pst" "application/vnd.ms-outlook";
    sig (str "PAR1" ||| str "PARE") "parquet" "application/vnd.apache.parquet";
    sig (str "ttcf") "ttc" "font/collection";
    sig (chk [0xcf; 0xfa; 0xed; 0xfe]) "macho" "application/x-mach-binary";
    sig (chk [0x04; 0x22; 0x4d; 0x18]) "lz4" "application/x-lz4";
    sig (str "regf") "dat" "application/x-ft-windows-registry-hive";
    (* -- 5-byte signatures -- *)
    sig (chk [0x4f; 0x54; 0x54; 0x4f; 0x00]) "otf" "font/otf";
    sig (str "#!AMR") "amr" "audio/amr";
    sig (str "{\rtf") "rtf" "application/rtf";
    sig (chk [0x46; 0x4c; 0x56; 0x01]) "flv" "video/x-flv";
    sig (str "IMPM") "it" "audio/x-it";
    sig (strAt "-lh0-" 2 ||| strAt "-lh1-" 2 ||| strAt "-lh2-" 2 ||| strAt "-lh3-" 2
         ||| strAt "-lh4-" 2 ||| strAt "-lh5-" 2 ||| strAt "-lh6-" 2 ||| strAt "-lh7-" 2
         ||| strAt "-lzs-" 2 ||| strAt "-lz4-" 2 ||| strAt "-lz5-" 2 ||| strAt "-lhd-" 2)
        "lzh" "application/x-lzh-compressed";
    when (chk [0x00; 0x00; 0x01; 0xba])
      (block [ sig (check [0x21] (Some 4) (Some [0xf1])) "mpg" "video/MP1S";
               sig (check [0x44] (Some 4) (Some [0xc4])) "mpg" "video/MP2P" ]);
    sig (str "ITSF") "chm" "application/vnd.ms-htmlhelp";
    sig (chk [0xca; 0xfe; 0xba; 0xbe]) "class" "application/java-vm";
    sig (str ".RMF") "rm" "application/vnd.rn-realmedia";
    sig (str "DRACO") "drc" "application/vnd.google.draco";
    (* -- 6-byte signatures -- *)
    sig (chk [0xfd; 0x37; 0x7a; 0x58; 0x5a; 0x00]) "xz" "application/x-xz";
    sig (str "<?xml ") "xml" "application/xml";
    sig (chk [0x37; 0x7a; 0xbc; 0xaf; 0x27; 0x1c]) "7z" "application/x-7z-compressed";
    sig (chk [0x52; 0x61; 0x72; 0x21; 0x1a; 0x7] &&& (byteIs 6 0x0 ||| byteIs 6 0x1))
        "rar" "application/x-rar-compressed";
    sig (str "solid ") "stl" "model/stl";
    dwgArm;
    sig (str "070707") "cpio" "application/x-cpio";
    (* -- 7-byte signatures -- *)
    sig (str "BLENDER") "blend" "application/x-blender";
    archArm;
    sig (str "WEBVTT"
         &&& (checkString [10] (Some 6) None ||| checkString [13] (Some 6) None
              ||| checkString [9] (Some 6) None ||| checkString [32] (Some 6) None
              ||| checkString [0] (Some 6) None))
        "vtt" "text/vtt";
    (* -- 8-byte signatures -- *)
    pngArm fuel;
    sig (chk [0x41; 0x52; 0x52; 0x4f; 0x57; 0x31; 0x00; 0x00])
        "arrow" "application/vnd.apache.arrow.file";
    sig (chk [0x67; 0x6c; 0x54; 0x46; 0x02; 0x00; 0x00; 0x00]) "glb" "model/gltf-binary";
    sig (chkAt [0x66; 0x72; 0x65; 0x65] 4 ||| chkAt [0x6d; 0x64; 0x61; 0x74] 4
         ||| chkAt [0x6d; 0x6f; 0x6f; 0x76] 4 ||| chkAt [0x77; 0x69; 0x64; 0x65] 4)
        "mov" "video/quicktime";
    (* -- 9-byte signatures -- *)
    sig (chk [0x49; 0x49; 0x52; 0x4f; 0x08; 0x00; 0x00; 0x00; 0x18])
        "orf" "image/x-olympus-orf";
    sig (str "gimp xcf ") "xcf" "image/x-xcf";
    ftypArm;
    (* -- 10-byte signatures -- *)
    sig (checkString (lit "REGEDIT4" ++ [13; 10]) None None) "reg" "application/x-ms-regedit";
    (* -- 12-byte signatures -- *)
    when (chk [0x52; 0x49; 0x46; 0x46])
      (block [ sig (strAt "WEBP" 8) "webp" "image/webp";
               sig (chkAt [0x41; 0x56; 0x49] 8) "avi" "video/vnd.avi";
               sig (chkAt [0x57; 0x41; 0x56; 0x45] 8) "wav" "audio/wav";
               sig (chkAt [0x51; 0x4c; 0x43; 0x4d] 8) "qcp" "audio/qcelp" ]);
    sig (chk [0x49; 0x49; 0x55; 0x00; 0x18; 0x00; 0x00; 0x00; 0x88; 0xe7; 0x74; 0xd8])
        "rw2" "image/x-panasonic-rw2";
    asfArm fuel;
    sig (chk [0xab; 0x4b; 0x54; 0x58; 0x20; 0x31; 0x31; 0xbb; 0x0d; 0x0a; 0x1a; 0x0a])
        "ktx" "image/ktx";
    sig ((chk [0x7e; 0x10; 0x04] ||| chk [0x7e; 0x18; 0x04])
         &&& chkAt [0x30; 0x4d; 0x49; 0x45] 4)
        "mie" "application/x-mie";
    sig (chkAt [0x27; 0x0a; 0x00; 0x00; 0x00; 0x00; 0x00; 0x00; 0x00; 0x00; 0x00; 0x00] 2)
        "shp" "application/x-esri-shape";
    sig (chk [0xff; 0x4f; 0xff; 0x51]) "j2c" "image/j2c";
    jp2Arm;
    sig (chk [0xff; 0x0a]
         ||| chk [0x00; 0x00; 0x00; 0x0c; 0x4a; 0x58; 0x4c; 0x20; 0x0d; 0x0a; 0x87; 0x0a])
        "jxl" "image/jxl";
    when (chk [0xfe; 0xff])
      (block [ sig (checkString (lit "<?xml ") (Some 2) (Some "utf-16be"%string))
                   "xml" "application/xml";
               returns None ]);
    sig (chk [0xd0; 0xcf; 0x11; 0xe0; 0xa1; 0xb1; 0x1a; 0xe1]) "cfb" "application/x-cfb"
  ].

(** The statements after the sample has grown to 256 bytes. *)
Definition statements256 : list Stmt :=
  [ sig (chkAt [0x61; 0x63; 0x73; 0x70] 36) "icc" "application/vnd.iccprofile";
    sig (strAt "**ACE" 7 &&& strAt "**" 12) "ace" "application/x-ace-compressed";
    (* -- 15-byte signatures -- *)
    when (str "BEGIN:")
      (block [ sig (strAt "VCARD" 6) "vcf" "text/vcard";
               sig (strAt "VCALENDAR" 6) "ics" "text/calendar" ]);
    sig (str "FUJIFILMCCD-RAW") "raf" "image/x-fujifilm-raf";
    sig (str "Extended Module:") "xm" "audio/x-xm";
    sig (str "Creative Voice File") "voc" "audio/x-voc";
    asarArm;
    sig (chk [0x06; 0x0e; 0x2b; 0x34; 0x02; 0x05; 0x01; 0x01; 0x0d; 0x01; 0x02; 0x01;
              0x01; 0x02])
        "mxf" "application/mxf";
    sig (strAt "SCRM" 44) "s3m" "audio/x-s3m";
    sig (chk [0x47] &&& chkAt [0x47] 188) "mts" "video/mp2t";
    sig (chkAt [0x47] 4 &&& chkAt [0x47] 196) "mts" "video/mp2t";
    sig (chkAt [0x42; 0x4f; 0x4f; 0x4b; 0x4d; 0x4f; 0x42; 0x49] 60)
        "mobi" "application/x-mobipocket-ebook";
    sig (chkAt [0x44; 0x49; 0x43; 0x4d] 128) "dcm" "application/dicom";
    sig (chk [0x4c; 0x00; 0x00; 0x00; 0x01; 0x14; 0x02; 0x00; 0x00; 0x00; 0x00; 0x00;
              0xc0; 0x00; 0x00; 0x00; 0x00; 0x00; 0x00; 0x46])
        "lnk" "application/x.ms.shortcut";
    sig (chk [0x62; 0x6f; 0x6f; 0x6b; 0x00; 0x00; 0x00; 0x00; 0x6d; 0x61; 0x72; 0x6b;
              0x00; 0x00; 0x00; 0x00])
        "alias" "application/x.apple.alias";
    sig (checkString (lit "Kaydara FBX Binary  " ++ [0]) None None)
        "fbx" "application/x.autodesk.fbx";
    sig (chkAt [0x4c; 0x50] 34
         &&& (chkAt [0x00; 0x00; 0x01] 8 ||| chkAt [0x01; 0x00; 0x02] 8
              ||| chkAt [0x02; 0x00; 0x02] 8))
        "eot" "application/vnd.ms-fontobject";
    sig (chk [0x06; 0x06; 0xed; 0xf5; 0xd8; 0x1d; 0x46; 0xe5; 0xbd; 0x31; 0xef; 0xe7;
              0xfe; 0x74; 0xb7; 0x1d])
        "indd" "application/x-indesign"
  ].

(** The statements after the sample has grown to 512 bytes. *)
Definition statements512 : list Stmt :=
  [ sig ((strAt "ustar" 257
          &&& (checkString [0] (Some 262) None ||| strAt " " 262))
         ||| (chkAt [0; 0; 0; 0; 0; 0] 257
              &&& (fun b => tarHeaderChecksumMatches H b 0)))
        "tar" "application/x-tar";
    when (chk [0xff; 0xfe])
      (block [ sig (checkString (lit "<?xml ") (Some 2) (Some "utf-16le"%string))
                   "xml" "application/xml";
               sig (chkAt [0xff; 0x0e] 2
                    &&& checkString (lit "SketchUp Model") (Some 4)
                                    (Some "utf-16le"%string))
                   "skp" "application/vnd.sketchup.skp";
               sig (checkString (lit "Windows Registry Editor Version 5.00" ++ [13; 10])
                                (Some 2) (Some "utf-16le"%string))
                   "reg" "application/x-ms-regedit";
               returns None ]);
    sig (str "-----BEGIN PGP MESSAGE-----") "pgp" "application/pgp-encrypted"
  ].

Definition confidentStatements (fuel : nat)
    (self pipeline : M (option FileTypeResult)) : list Stmt :=
  statements32 fuel self pipeline
  ++ [expandSample 256] ++ statements256
  ++ [expandSample 512] ++ statements512.

(** One activation of [detectConfident]; [fuel] bounds the loops of its
    container probes. *)
Definition detectConfidentBody (fuel : nat)
    (self pipeline : M (option FileTypeResult)) : M (option FileTypeResult) :=
  setBuffer freshBuffer ;;;
  Tok.defaultSize ;;;
  Tok.peekBuffer 32 ;;;
  body (confidentStatements fuel self pipeline).

(** ** detectImprecise *)
Definition detectImprecise : M (option FileTypeResult) :=
  Tok.defaultSize ;;;
  body
    [ expandSample 8;
      sig (chk [0x0; 0x0; 0x1; 0xba] ||| chk [0x0; 0x0; 0x1; 0xb3]) "mpg" "video/mpeg";
      sig (chk [0x00; 0x01; 0x00; 0x00; 0x00]) "ttf" "font/ttf";
      sig (chk [0x00; 0x00; 0x01; 0x00]) "ico" "image/x-icon";
      sig (chk [0x00; 0x00; 0x02; 0x00]) "cur" "image/x-icon";
      expandSample (2 + mpegOffsetTolerance options);
      withBuffer (fun b =>
        if 2 + mpegOffsetTolerance options <=? Z.of_nat (List.length b) then
          match scanDepths b 0 (Z.to_nat (mpegOffsetTolerance options + 1)) with
          | Some type => returns (Some type)
          | None => next
          end
        else next)
    ].

(** ** The detection pipeline *)

(** The loop of [fromTokenizer] over [this.detectors], together with the
    ids of the detectors it invoked, in the order of invocation. *)
Fixpoint runDetectors (initialPosition : Z) (detectors : list Registered)
    (st : State) : list string * Outcome State (option FileTypeResult) :=
  match detectors with
  | [] => ([], Done None st)
  | detector :: rest =>
      match run detector st with
      | Done (Some fileType) st' => ([rid detector], Done (Some fileType) st')
      | Done None st' =>
          if negb (initialPosition =? position (tokenizer st'))
          then ([rid detector], Done None st')
          else
            let '(invoked, outcome) := runDetectors initialPosition rest st' in
            (rid detector :: invoked, outcome)
      | Throw e => ([rid detector], Throw e)
      end
  end.

Definition fromTokenizerTraced (detectors : list Registered) (st : State)
  : list string * Outcome State (option FileTypeResult) :=
  runDetectors (position (tokenizer st)) detectors st.

(** [this.detectors], as the constructor builds it; [core] is the bound
    method [this.detectConfident]. *)
Definition detectorsWith (core : M (option FileTypeResult)) : list Registered :=
  map registerCustom (customDetectors options)
  ++ [ mkRegistered "core" core;
       mkRegistered "core.imprecise" detectImprecise ].

Definition fromTokenizerWith (core : M (option FileTypeResult))
  : M (option FileTypeResult) :=
  fun st => snd (fromTokenizerTraced (detectorsWith core) st).

(** [detectConfident], with its recursion through itself (byte order
    mark) and through the pipeline (ID3, gzip) bounded by [fuel]. *)
Fixpoint detectConfident (fuel : nat) : M (option FileTypeResult) :=
  match fuel with
  | O => throw OutOfFuel
  | S f =>
      detectConfidentBody f (detectConfident f)
                          (fromTokenizerWith (detectConfident f))
  end.

Definition detectors (fuel : nat) : list Registered :=
  detectorsWith (detectConfident fuel).

(** [parser.fromTokenizer(tokenizer)] on a parser whose sample buffer is
    [buffer]; the result, the tokenizer it leaves and the detectors it
    invoked. *)
Definition fromTokenizer (fuel : nat) : M (option FileTypeResult) :=
  fromTokenizerWith (detectConfident fuel).

(** The buffer of a new parser. *)
Definition newParser (t : Tokenizer) : State := mkState t freshBuffer.

(** [parser.fromBuffer(input)] for a [Uint8Array]: the ids of the
    detectors invoked and the outcome (the result and the final state of
    parser and tokenizer, when a tokenizer was made). *)
Definition fromBufferTraced (fuel : nat) (input : list Z)
  : list string * Outcome (option State) (option FileTypeResult) :=
  if negb (1 <? Z.of_nat (List.length input)) then ([], Done None None)
  else
    match fromTokenizerTraced (detectors fuel) (newParser (Tok.fromBuffer input)) with
    | (invoked, Done r st) => (invoked, Done r (Some st))
    | (invoked, Throw e) => (invoked, Throw e)
    end.

Definition fromBuffer (fuel : nat) (input : list Z)
  : Outcome (option State) (option FileTypeResult) :=
  snd (fromBufferTraced fuel input).

End WithHost.

End Core.

(* ================================================================== *)
(** * A host for closed runs *)
(* ================================================================== *)

Module Hosts.
Import JS.

(** [Number(s)] of a decimal literal as [StringToNumber] reads it: optional
    white space around, an optional sign, digits with an optional fraction
    and an optional exponent.  The value is kept exact, as a mantissa and a
    power of ten ([None] is [NaN]); prefixed literals and [Infinity] are
    outside every range the detector asks about and read as [NaN]. *)
Fixpoint digits (s : JSString) (acc : Z) (count : Z) : Z * Z * JSString :=
  match s with
  | c :: rest =>
      if (48 <=? c) && (c <=? 57) then digits rest (acc * 10 + (c - 48)) (count + 1)
      else (acc, count, s)
  | [] => (acc, count, s)
  end.

Definition exponentPart (s : JSString) : option (Z * JSString) :=
  match s with
  | c :: rest =>
      if (c =? 101) || (c =? 69) then
        let '(sign, rest') := signOf rest in
        let '(e, n, tail) := digits rest' 0 0 in
        if n =? 0 then None else Some (sign * e, tail)
      else Some (0, s)
  | [] => Some (0, s)
  end.

Definition toNumber (s : JSString) : option (Z * Z) :=
  match trim s with
  | [] => Some (0, 0)
  | t =>
      let '(sign, t1) := signOf t in
      let '(int, nInt, t2) := digits t1 0 0 in
      let '(mant, nFrac, t3) :=
        match t2 with
        | 46 :: r => let '(m, n, r') := digits r int 0 in (m, n, r')
        | _ => (int, 0, t2)
        end in
      if (nInt + nFrac =? 0) then None
      else
        match exponentPart t3 with
        | Some (e, []) => Some (sign * mant, e - nFrac)
        | _ => None
        end
  end.

Definition numberInRange (s : JSString) (lo hi : Z) : bool :=
  match toNumber s with
  | Some (m, e) =>
      if 0 <=? e then (lo <=? m * 10 ^ e) && (m * 10 ^ e <=? hi)
      else (lo * 10 ^ (- e) <=? m) && (m <=? hi * 10 ^ (- e))
  | None => false
  end.

(** The platform's text decoders and number reader, with collaborators
    that deliver nothing: the inflated stream is empty, the archive has no
    entry the detector knows, and no sample parses as JSON.  The closed
    runs below do not reach the collaborators. *)
Definition plain : Host :=
  mkHost TextDecoder.decode
         (fun t => ([], t))
         (fun t => Some (None, t))
         (fun _ => false)
         numberInRange.

Definition defaults : Core.Options := Core.mkOptions 0 [].

End Hosts.

(* ================================================================== *)
(** * The statements of the specification *)
(* ================================================================== *)

(** Definitions written after the wording of the specification, to be
    compared with the functions of the source above. *)
Module Spec.
Import JS.

(** Section 4.3, [id3_sync_safe_u32]: the high bit of each of the four
    bytes is masked off before they are combined. *)
Definition id3_sync_safe_u32 (b0 b1 b2 b3 : Z) : Z :=
  Z.lor (Z.lor (Z.lor (Z.shiftl (Z.land b0 0x7F) 21) (Z.shiftl (Z.land b1 0x7F) 14))
               (Z.shiftl (Z.land b2 0x7F) 7))
        (Z.land b3 0x7F).

(** Section 4.2, [check]: every header byte equals the sample byte at its
    place, under the mask when there is one, and an index outside the
    sample reads as zero with or without a mask. *)
Definition checkZeroPadded (sample headers : list Z) (offset : option Z)
    (mask : option (list Z)) : Prop :=
  forall (i : nat) (h : Z),
    nth_error headers i = Some h ->
    h = match mask with
        | Some m => bitAnd (nullish (get m (Z.of_nat i)) 0)
                           (nullish (get sample (Z.of_nat i + nullish offset 0)) 0)
        | None => nullish (get sample (Z.of_nat i + nullish offset 0)) 0
        end.

(** What the pattern predicate of the source decides: without a mask an
    index outside the sample matches no header byte. *)
Definition checkMatches (sample headers : list Z) (offset : option Z)
    (mask : option (list Z)) : Prop :=
  forall (i : nat) (h : Z),
    nth_error headers i = Some h ->
    match mask with
    | Some m => h = bitAnd (nullish (get m (Z.of_nat i)) 0)
                           (nullish (get sample (Z.of_nat i + nullish offset 0)) 0)
    | None => get sample (Z.of_nat i + nullish offset 0) = Some h
    end.

(** Sum of the bytes at the indices [from, from + count), an index
    outside the array counting as zero. *)
Definition byteSum (bytes : list Z) (from : Z) (count : nat) : Z :=
  fold_right Z.add 0
    (map (fun i => nullish (get bytes (from + Z.of_nat i)) 0) (seq 0 count)).

Definition sumList (bytes : list Z) : Z := fold_right Z.add 0 bytes.

(** A string cut at its first NUL. *)
Fixpoint truncateAtNul (s : JSString) : JSString :=
  match s with
  | [] => []
  | c :: rest => if c =? 0 then [] else c :: truncateAtNul rest
  end.

(** Section 4.6, the declared sum: the six bytes at offset 148, cut at the
    first NUL, trimmed and parsed as an octal number (no value when they
    do not parse). *)
Definition declaredSum (H : Host) (bytes : list Z) : option Z :=
  parseInt (trim (truncateAtNul (decodeText H "utf8" (subarray bytes 148 154)))) 8.

(** Section 4.6, the computed sum of a 512-byte block:
    [8*0x20 + sum bytes[0..148) + sum bytes[156..512)]. *)
Definition computedSum (block : list Z) : Z :=
  8 * 0x20 + sumList (firstn 148 block) + sumList (firstn 356 (skipn 156 block)).

(** Section 4.6, the verdict: the header is valid iff the declared sum
    equals the computed sum. *)
Definition headerValid (H : Host) (block : list Z) : bool :=
  match declaredSum H block with
  | Some declared => declared =? computedSum block
  | None => false
  end.

(** The 16-bit code units a byte sequence spells in the given byte order,
    with no further interpretation. *)
Fixpoint codeUnitsOf (be : bool) (bytes : list Z) : JSString :=
  match bytes with
  | a :: b :: rest => (if be then a * 256 + b else b * 256 + a) :: codeUnitsOf be rest
  | _ => []
  end.

(** A block of 512 bytes whose checksum slot holds the sum of the block:
    zeros around the slot [000400\0 ], whose octal value 256 is the sum of
    the eight spaces the slot counts for. *)
Definition tarBlock : list Z :=
  repeat 0 148 ++ [48; 48; 48; 52; 48; 48; 0; 32] ++ repeat 0 356.

End Spec.

Import JS Util Pattern Core.

(** Notions used to state and prove the properties. *)
Module Aux.

(** A detector that claims every input, to show that it is not asked. *)
Definition alwaysUnicorn : Detector :=
  mkDetector "unicorn"
    (fun t => Done (Some (mkFileType "unicorn" "application/unicorn")) t).

(** A character that is neither a digit nor a sign ends the number. *)
Definition endsNumber (radix c : Z) : Prop :=
  radixDigit radix c = None /\ c <> 45 /\ c <> 43.

(** The number read from a string that is already trimmed at its start. *)
Definition readNumber (t : JSString) : option Z :=
  let '(sign, s2) := signOf t in
  match digitsValue 8 None s2 with
  | Some v => Some (sign * v)
  | None => None
  end.

(** A string is well formed when each of its surrogates is paired: a
    high surrogate is followed by a low one and a low surrogate follows a
    high one. *)
Fixpoint wellFormed (s : JSString) : bool :=
  match s with
  | [] => true
  | c :: rest =>
      if isHighSurrogate c then
        match rest with
        | d :: rest' => isLowSurrogate d && wellFormed rest'
        | [] => false
        end
      else negb (isLowSurrogate c) && wellFormed rest
  end.

(** The elements of a string are 16-bit code units. *)
Definition codeUnitsOnly (s : JSString) : Prop :=
  Forall (fun c => 0 <= c < 65536) s.

(** A letter, a character above U+00FF and a surrogate pair. *)
Definition unicornText : JSString := [0x41; 0xA7FB; 0xD83E; 0xDD84].

(** The detectors before a given one all return no result and leave the
    tokenizer at the position [p0]: [Passes p0 ds st st'] runs them in
    order from the state [st] and ends in [st']. *)
Inductive Passes (p0 : Z) : list Registered -> State -> State -> Prop :=
| Passes_nil (st : State) : Passes p0 [] st st
| Passes_cons (d : Registered) (ds : list Registered) (st st1 st2 : State) :
    run d st = Done None st1 ->
    position (tokenizer st1) = p0 ->
    Passes p0 ds st1 st2 ->
    Passes p0 (d :: ds) st st2.

(** The same for user-supplied detectors, as the options hold them:
    [CustomPass p0 ds t t'] calls them in order on the tokenizer [t]; each
    returns no result and leaves the tokenizer at the position [p0]. *)
Inductive CustomPass (p0 : Z) : list Detector -> Tokenizer -> Tokenizer -> Prop :=
| CustomPass_nil (t : Tokenizer) : CustomPass p0 [] t t
| CustomPass_cons (d : Detector) (ds : list Detector) (t t1 t2 : Tokenizer) :
    detect d t = Done None t1 ->
    position t1 = p0 ->
    CustomPass p0 ds t1 t2 ->
    CustomPass p0 (d :: ds) t t2.

(** A detector that looks at nothing and returns no result. *)
Definition shrug : Detector := mkDetector "shrug" (fun t => Done None t).

(** A detector that skips a byte and returns no result. *)
Definition positionChanger : Detector :=
  mkDetector "positionChanger"
    (fun t => Done None (mkTokenizer (data t) (position t + 1) (size t))).

(** The value a run returns, when it returns. *)
Definition resultOf {S A : Type} (o : Outcome S A) : option A :=
  match o with
  | Done a _ => Some a
  | Throw _ => None
  end.

(** The sample the core detector looks at first: up to 32 bytes at the
    cursor in a fresh buffer. *)
Definition sample32 (t : Tokenizer) : list Z :=
  firstn 32 (Tok.remaining t)
  ++ skipn (List.length (firstn 32 (Tok.remaining t))) freshBuffer.

(** The tokenizer with its size made definite, as the detectors leave it. *)
Definition sized (t : Tokenizer) : Tokenizer :=
  mkTokenizer (data t) (position t) (Some (Tok.fileSize t)).

(** The state in which the battery of the core detector starts. *)
Definition entryState (t : Tokenizer) : State := mkState (sized t) (sample32 t).

(** An ID3 tag of two content bytes that ends exactly at the end of the
    file: the ten header bytes, with the sync-safe length 2, and [BM]. *)
Definition id3ExactFit : list Z :=
  [0x49; 0x44; 0x33; 3; 0; 0; 0; 0; 0; 2; 0x42; 0x4d].

(** An ID3 tag of two content bytes in front of a FLAC stream. *)
Definition id3BeforeFlac : list Z :=
  [0x49; 0x44; 0x33; 3; 0; 0; 0; 0; 0; 2; 0; 0; 0x66; 0x4c; 0x61; 0x43].

(** The position of the tokenizer when a run returns. *)
Definition positionAfter {A : Type} (o : Outcome State A) : option Z :=
  match o with
  | Done _ st => Some (position (tokenizer st))
  | Throw _ => None
  end.

(** The state after the ten bytes of an ID3 header have been consumed. *)
Definition afterId3Header (t : Tokenizer) : State :=
  mkState (mkTokenizer (data t) (position t + 10) (Some (Tok.fileSize t))) (sample32 t).

(** A statement that only looks at the sample: it leaves the state as it
    is and does not throw. *)
Definition PureS (s : Stmt) : Prop := forall st, exists r, s st = Done r st.

(** A computation that, started with a sample buffer of the detection
    size, ends with a sample buffer of that size. *)
Definition KeepsSample {A : Type} (m : M A) : Prop :=
  forall st a st',
    List.length (buffer st) = List.length freshBuffer ->
    m st = Done a st' ->
    List.length (buffer st') = List.length freshBuffer.

(** A statement that, when it ends, has returned a file type. *)
Definition Decisive (s : Stmt) : Prop :=
  forall st r st', s st = Done r st' -> exists x, r = Some (Some x).

(** A statement that, run in the state [st], leaves the state as it is
    whenever it falls through or returns no result. *)
Definition Quiet (st : State) (s : Stmt) : Prop :=
  forall r st', s st = Done r st' -> r = None \/ r = Some None -> st' = st.

(** The signatures of the arms of the core detector that move the
    tokenizer and may still return no result: the UTF-8 byte order mark,
    ID3, EBML, PNG and the JPEG-2000 signature box. *)
Definition consumingSignature : Cond :=
  (chk [0xef; 0xbb; 0xbf] ||| str "ID3" ||| chk [0x1a; 0x45; 0xdf; 0xa3]
   ||| chk [0x89; 0x50; 0x4e; 0x47; 0x0d; 0x0a; 0x1a; 0x0a]
   ||| chk [0x00; 0x00; 0x00; 0x0c; 0x6a; 0x50; 0x20; 0x20; 0x0d; 0x0a; 0x87; 0x0a])%detect.

(** An EBML header whose root element is empty. *)
Definition ebmlEmpty : list Z := [0x1a; 0x45; 0xdf; 0xa3; 0x80].

(** A JPEG-2000 signature box followed by a brand that is none of the
    four the detector knows. *)
Definition jp2UnknownBrand : list Z :=
  [0x00; 0x00; 0x00; 0x0c; 0x6a; 0x50; 0x20; 0x20; 0x0d; 0x0a; 0x87; 0x0a]
  ++ repeat 0 8 ++ [0x61; 0x62; 0x63; 0x64].

(** Ten zero bytes and an MPEG layer-3 frame sync. *)
Definition syncAtTen : list Z := repeat 0 10 ++ [0xFF; 0xFB].

(** The fixed signatures of the imprecise detector. *)
Definition impreciseSignature : Cond :=
  (chk [0x0; 0x0; 0x1; 0xba] ||| chk [0x0; 0x0; 0x1; 0xb3]
   ||| chk [0x00; 0x01; 0x00; 0x00; 0x00] ||| chk [0x00; 0x00; 0x01; 0x00]
   ||| chk [0x00; 0x00; 0x02; 0x00])%detect.

Definition mp3 : FileTypeResult := mkFileType "mp3" "audio/mpeg".

(** Ten zero bytes, an MPEG layer-3 frame sync, and the ICC profile
    signature [acsp] at offset 36. *)
Definition syncAtTenInProfile : list Z :=
  repeat 0 10 ++ [0xFF; 0xFB] ++ repeat 0 24 ++ [0x61; 0x63; 0x73; 0x70].

(** A buffer with [k + 1] zero bytes in front of a block whose checksum is
    right: a header placed at the offset [k + 1]. *)
Definition tarBlockAt (k : nat) : list Z := repeat 0 (S k) ++ Spec.tarBlock.

(** The header at an offset of a buffer: the 512 bytes from the offset on,
    a byte the buffer does not have counting as zero, as the sums of the
    checksum test read it. *)
Definition headerAt (arrayBuffer : list Z) (offset : Z) : list Z :=
  map (fun i => nullish (get arrayBuffer (offset + Z.of_nat i)) 0) (seq 0 512).

(** The index [i] of the buffer is a byte of the header at [offset]. *)
Definition inHeader (offset i : Z) : bool := (offset <=? i) && (i <? offset + 512).

(** For every offset other than 0, a buffer on which the checksum test and
    the validity of the header at that offset differ.  At a positive offset,
    zero bytes in front of a block whose checksum is right; the test
    rejects it.  At a negative offset, a buffer whose bytes 148 to 153 spell
    the sum the test computes for that offset (a byte next to them makes up
    for the digits the sums reach), while the header at the offset has a NUL
    where its declared sum begins; the test accepts it. *)
Definition disagreeingBuffer (offset : Z) : list Z :=
  if 0 <? offset then tarBlockAt (Z.to_nat (offset - 1))
  else if (offset <=? -364) || (-2 <=? offset) then repeat 0 148 ++ lit "000400"
  else if -8 <=? offset then
    repeat 0 148 ++ lit "001050" ++ repeat 0 6
    ++ [296 - Spec.sumList (skipn (Z.to_nat (offset + 8)) (lit "001050"))]
  else
    repeat 0 147
    ++ [296 - Spec.sumList (firstn (Z.to_nat (offset + 364)) (lit "001050"))]
    ++ lit "001050".

(** A buffer of 513 bytes that passes the test for the offset 1: its bytes
    148 to 153 read [000460], octal for [8*0x20] plus the byte [0] at index
    148, the one nonzero byte the sums of the offset 1 reach. *)
Definition slotProbe : list Z :=
  repeat 0 148 ++ [48; 48; 48; 52; 54; 48] ++ repeat 0 359.

(** The same buffer with the byte at index 153 changed. *)
Definition slotProbeChanged : list Z :=
  firstn 153 slotProbe ++ [49] ++ skipn 154 slotProbe.

End Aux.
Import Aux.

(* ================================================================== *)
(** * core: the entries of a ZIP archive *)
(* ================================================================== *)

(** Methods of strings the ZIP arm uses. *)
Module Text.
Import JS.

(** [s.indexOf(pattern)] from the index [i] of the first code unit of
    [s]: the first index at which the pattern occurs, -1 when there is
    none. *)
Fixpoint indexOfFrom (s pattern : JSString) (i : Z) : Z :=
  match s with
  | [] => if startsWith [] pattern then i else -1
  | _ :: rest => if startsWith s pattern then i else indexOfFrom rest pattern (i + 1)
  end.

Definition indexOf (s pattern : JSString) : Z := indexOfFrom s pattern 0.

Definition includes (s pattern : JSString) : bool := negb (indexOf s pattern =? -1).

(** [s.lastIndexOf(pattern)]: the last index at which the pattern occurs;
    [found] is the last one seen so far. *)
Fixpoint lastIndexOfFrom (s pattern : JSString) (i found : Z) : Z :=
  match s with
  | [] => if startsWith [] pattern then i else found
  | _ :: rest =>
      lastIndexOfFrom rest pattern (i + 1) (if startsWith s pattern then i else found)
  end.

Definition lastIndexOf (s pattern : JSString) : Z := lastIndexOfFrom s pattern 0 (-1).

(** [s.slice(from, to)] and [s.slice(from)] for indices that are not
    negative. *)
Definition slice (s : JSString) (from to : Z) : JSString :=
  firstn (Z.to_nat (to - from)) (skipn (Z.to_nat from) s).

Definition sliceFrom (s : JSString) (from : Z) : JSString := skipn (Z.to_nat from) s.

(** The digits a [\d*] takes from the front of a string. *)
Fixpoint skipDigits (s : JSString) : JSString :=
  match s with
  | c :: rest => if (48 <=? c) && (c <=? 57) then skipDigits rest else s
  | [] => []
  end.

(** [/classes\d*\.dex/] matches at the front of the string. *)
Definition dexAt (s : JSString) : bool :=
  startsWith s (lit "classes") && startsWith (skipDigits (skipn 7 s)) (lit ".dex").

(** [/classes\d*\.dex/.test(s)]: the pattern matches somewhere. *)
Fixpoint testDex (s : JSString) : bool :=
  dexAt s || match s with _ :: rest => testDex rest | [] => false end.

End Text.

Module Zip.
Import JS Text.

Section WithPlatform.

(** [String.prototype.toLowerCase] of the platform. *)
Variable toLowerCase : JSString -> JSString.

(** [getFileTypeFromMimeType]: in each case of the [switch] the string
    [mimeType] is the string of the case, which is written out where the
    source returns [mime: mimeType]. *)
Definition getFileTypeFromMimeType (mimeType : JSString) : option FileTypeResult :=
  let mimeType := toLowerCase mimeType in
  if eqs mimeType (lit "application/epub+zip")
  then Some (mkFileType "epub" "application/epub+zip")
  else if eqs mimeType (lit "application/vnd.oasis.opendocument.text")
  then Some (mkFileType "odt" "application/vnd.oasis.opendocument.text")
  else if eqs mimeType (lit "application/vnd.oasis.opendocument.text-template")
  then Some (mkFileType "ott" "application/vnd.oasis.opendocument.text-template")
  else if eqs mimeType (lit "application/vnd.oasis.opendocument.spreadsheet")
  then Some (mkFileType "ods" "application/vnd.oasis.opendocument.spreadsheet")
  else if eqs mimeType (lit "application/vnd.oasis.opendocument.spreadsheet-template")
  then Some (mkFileType "ots" "application/vnd.oasis.opendocument.spreadsheet-template")
  else if eqs mimeType (lit "application/vnd.oasis.opendocument.presentation")
  then Some (mkFileType "odp" "application/vnd.oasis.opendocument.presentation")
  else if eqs mimeType (lit "application/vnd.oasis.opendocument.presentation-template")
  then Some (mkFileType "otp" "application/vnd.oasis.opendocument.presentation-template")
  else if eqs mimeType (lit "application/vnd.oasis.opendocument.graphics")
  then Some (mkFileType "odg" "application/vnd.oasis.opendocument.graphics")
  else if eqs mimeType (lit "application/vnd.oasis.opendocument.graphics-template")
  then Some (mkFileType "otg" "application/vnd.oasis.opendocument.graphics-template")
  else if eqs mimeType
              (lit "application/vnd.openxmlformats-officedocument.presentationml.slideshow")
  then Some (mkFileType "ppsx"
               "application/vnd.openxmlformats-officedocument.presentationml.slideshow")
  else if eqs mimeType
              (lit "application/vnd.openxmlformats-officedocument.spreadsheetml.sheet")
  then Some (mkFileType "xlsx"
               "application/vnd.openxmlformats-officedocument.spreadsheetml.sheet")
  else if eqs mimeType (lit "application/vnd.ms-excel.sheet.macroenabled")
  then Some (mkFileType "xlsm" "application/vnd.ms-excel.sheet.macroenabled.12")
  else if eqs mimeType
              (lit "application/vnd.openxmlformats-officedocument.spreadsheetml.template")
  then Some (mkFileType "xltx"
               "application/vnd.openxmlformats-officedocument.spreadsheetml.template")
  else if eqs mimeType (lit "application/vnd.ms-excel.template.macroenabled")
  then Some (mkFileType "xltm" "application/vnd.ms-excel.template.macroenabled.12")
  else if eqs mimeType (lit "application/vnd.ms-powerpoint.slideshow.macroenabled")
  then Some (mkFileType "ppsm" "application/vnd.ms-powerpoint.slideshow.macroenabled.12")
  else if eqs mimeType
              (lit "application/vnd.openxmlformats-officedocument.wordprocessingml.document")
  then Some (mkFileType "docx"
               "application/vnd.openxmlformats-officedocument.wordprocessingml.document")
  else if eqs mimeType (lit "application/vnd.ms-word.document.macroenabled")
  then Some (mkFileType "docm" "application/vnd.ms-word.document.macroenabled.12")
  else if eqs mimeType
              (lit "application/vnd.openxmlformats-officedocument.wordprocessingml.template")
  then Some (mkFileType "dotx"
               "application/vnd.openxmlformats-officedocument.wordprocessingml.template")
  else if eqs mimeType (lit "application/vnd.ms-word.template.macroenabledtemplate")
  then Some (mkFileType "dotm" "application/vnd.ms-word.template.macroenabled.12")
  else if eqs mimeType
              (lit "application/vnd.openxmlformats-officedocument.presentationml.template")
  then Some (mkFileType "potx"
               "application/vnd.openxmlformats-officedocument.presentationml.template")
  else if eqs mimeType (lit "application/vnd.ms-powerpoint.template.macroenabled")
  then Some (mkFileType "potm" "application/vnd.ms-powerpoint.template.macroenabled.12")
  else if eqs mimeType
              (lit "application/vnd.openxmlformats-officedocument.presentationml.presentation")
  then Some (mkFileType "pptx"
               "application/vnd.openxmlformats-officedocument.presentationml.presentation")
  else if eqs mimeType (lit "application/vnd.ms-powerpoint.presentation.macroenabled")
  then Some (mkFileType "pptm" "application/vnd.ms-powerpoint.presentation.macroenabled.12")
  else if eqs mimeType (lit "application/vnd.ms-visio.drawing")
  then Some (mkFileType "vsdx" "application/vnd.visio")
  else if eqs mimeType (lit "application/vnd.ms-package.3dmanufacturing-3dmodel+xml")
  then Some (mkFileType "3mf" "model/3mf")
  else None.

(** The handler of the entry [mimetype]: the new value of the variable
    [fileType]. *)
Definition mimetypeHandler (fileData : list Z) : option FileTypeResult :=
  let mimeType := trim (TextDecoder.decode "utf-8" fileData) in
  getFileTypeFromMimeType mimeType.

Definition model3mf : string := "application/vnd.ms-package.3dmanufacturing-3dmodel+xml".

(** The handler of the entry [[Content_Types].xml]: the new value of the
    variable [fileType], given its value [fileType] so far. *)
Definition contentTypesHandler (fileData : list Z) (fileType : option FileTypeResult)
  : option FileTypeResult :=
  let xmlContent := TextDecoder.decode "utf-8" fileData in
  let endPos := indexOf xmlContent (lit ".main+xml" ++ [34]) in
  if endPos =? -1 then
    let mimeType := lit model3mf in
    if includes xmlContent (lit "ContentType=" ++ [34] ++ mimeType ++ [34])
    then getFileTypeFromMimeType mimeType
    else fileType
  else
    let xmlContent := slice xmlContent 0 (Z.max 0 endPos) in
    let firstPos := lastIndexOf xmlContent [34] in
    let mimeType := sliceFrom xmlContent (Z.max 0 (firstPos + 1)) in
    getFileTypeFromMimeType mimeType.

(** What the callback answers for an entry: the file type it assigns to
    the variable [fileType] at once, the handler it asks to be run on the
    data of the entry, and whether the walk stops. *)
Record EntryAction : Type := mkEntryAction {
  assigns : option FileTypeResult;
  handler : option (list Z -> option FileTypeResult -> option FileTypeResult);
  stop : bool
}.

(** The callback the ZIP arm passes to [unzip]. *)
Definition zipCallback (filename : JSString) : EntryAction :=
  if eqs filename (lit "META-INF/mozilla.rsa")
  then mkEntryAction (Some (mkFileType "xpi" "application/x-xpinstall")) None true
  else if eqs filename (lit "META-INF/MANIFEST.MF")
  then mkEntryAction (Some (mkFileType "jar" "application/java-archive")) None true
  else if eqs filename (lit "mimetype")
  then mkEntryAction None (Some (fun fileData _ => mimetypeHandler fileData)) true
  else if eqs filename (lit "[Content_Types].xml")
  then mkEntryAction None (Some contentTypesHandler) true
  else if testDex filename
  then mkEntryAction (Some (mkFileType "apk" "application/vnd.android.package-archive"))
                     None true
  else mkEntryAction None None false.

End WithPlatform.

(** Lower case of the letters A to Z, the part of [toLowerCase] that is
    the same on every platform. *)
Definition asciiLower (s : JSString) : JSString :=
  map (fun c => if (65 <=? c) && (c <=? 90) then c + 32 else c) s.

End Zip.

(* ================================================================== *)
(** * core: detection from streams *)
(* ================================================================== *)

Module Streams.
Import JS Core.

Section WithHost.
Variable H : Host.
Variable options : Options.

(** [parser.fromStream(stream)]: the pipeline on a tokenizer over the
    stream, whose size is not known; [bytes] is what the stream delivers.
    The ids of the detectors invoked and the outcome. *)
Definition fromStreamTraced (fuel : nat) (bytes : list Z)
  : list string * Outcome State (option FileTypeResult) :=
  fromTokenizerTraced (detectors H options fuel) (newParser (Tok.fromStream bytes)).

Definition fromStream (fuel : nat) (bytes : list Z)
  : Outcome State (option FileTypeResult) :=
  snd (fromStreamTraced fuel bytes).

(** [parser.fromBlob(blob)] is [fromStream] on the stream of the blob. *)
Definition fromBlob (fuel : nat) (blob : list Z)
  : Outcome State (option FileTypeResult) :=
  fromStream fuel blob.

(** [parser.toDetectionStream(stream, {sampleSize})]: the file type
    attached to the stream that is returned.  [read] is the first chunk
    the reader delivered, [None] when the stream was done.  An end of
    stream met while detecting gives no file type; any other error is
    thrown. *)
Definition toDetectionStream (fuel : nat) (sampleSize : Z) (read : option (list Z))
  : Outcome (option State) (option FileTypeResult) :=
  match read with
  | Some chunk =>
      match fromBuffer H options fuel (subarray chunk 0 sampleSize) with
      | Done detectedFileType st => Done detectedFileType st
      | Throw EndOfStreamError => Done None None
      | Throw e => Throw e
      end
  | None => Done None None
  end.

End WithHost.

End Streams.


(* ================================================================== *)
(** * Shapes of inputs and results *)
(* ================================================================== *)

(** Descriptions of inputs (PNG chunks, TIFF directories, EBML elements)
    and of results, used to state the further properties of the engine. *)
Module Shapes.

(** No high surrogate of the string is followed by a low surrogate. *)
Fixpoint pairFree (s : JSString) : bool :=
  match s with
  | [] => true
  | c :: rest =>
      negb (isHighSurrogate c
            && match rest with d :: _ => isLowSurrogate d | [] => false end)
      && pairFree rest
  end.

(** A byte sequence with the two bytes of every pair exchanged. *)
Fixpoint swapPairs (bytes : list Z) : list Z :=
  match bytes with
  | a :: b :: rest => b :: a :: swapPairs rest
  | _ => bytes
  end.

Definition isByte (b : Z) : Prop := 0 <= b < 256.

(** The fields of the second byte of an MPEG audio frame header: the layer
    (bits 1 and 2) and bit 4, which with the layer bits 00 marks an ADTS
    frame. *)
Definition layerBits (b1 : Z) : Z := (b1 / 2) mod 4.
Definition adtsBit (b1 : Z) : Z := (b1 / 16) mod 2.

(** The type of the frame whose header begins with the bytes [b0 b1]:
    eleven set bits of sync, then the layer. *)
Definition frameType (b0 b1 : Z) : option FileTypeResult :=
  if (b0 =? 0xFF) && (0xE0 <=? b1) then
    if layerBits b1 =? 1 then Some (mkFileType "mp3" "audio/mpeg")
    else if layerBits b1 =? 2 then Some (mkFileType "mp2" "audio/mpeg")
    else if layerBits b1 =? 3 then Some (mkFileType "mp1" "audio/mpeg")
    else if adtsBit b1 =? 1 then Some (mkFileType "aac" "audio/aac")
    else None
  else None.

Definition FileTypeResult_eqb (a b : FileTypeResult) : bool :=
  String.eqb (ext a) (ext b) && String.eqb (mime a) (mime b).

Definition sameResult (a b : option FileTypeResult) : bool :=
  match a, b with
  | Some x, Some y => FileTypeResult_eqb x y
  | None, None => true
  | _, _ => false
  end.

(** A statement that only peeks, run with a sample buffer of at least
    [room] bytes: it does not throw, leaves the tokenizer as it is and the
    sample buffer at its length, and a file type it returns satisfies [P]. *)
Definition Peeks (P : FileTypeResult -> Prop) (room : Z) (s : Stmt) : Prop :=
  forall st, room <= Z.of_nat (List.length (buffer st)) ->
    exists r b,
      s st = Done r (mkState (tokenizer st) b)
      /\ List.length b = List.length (buffer st)
      /\ (forall x, r = Some (Some x) -> P x).

(** The file types of the imprecise detector. *)
Definition impreciseTypes : list FileTypeResult :=
  [ mkFileType "mpg" "video/mpeg"; mkFileType "ttf" "font/ttf";
    mkFileType "ico" "image/x-icon"; mkFileType "cur" "image/x-icon";
    mkFileType "aac" "audio/aac"; mkFileType "mp3" "audio/mpeg";
    mkFileType "mp2" "audio/mpeg"; mkFileType "mp1" "audio/mpeg" ].

Definition mp1 : FileTypeResult := mkFileType "mp1" "audio/mpeg".

(** The text [hi] in UTF-16, little endian, behind its byte order mark. *)
Definition utf16Hi : list Z := [0xFF; 0xFE; 0x68; 0; 0x69; 0].

(** A detector that fails. *)
Definition thrower : Detector :=
  mkDetector "thrower" (fun _ => Throw EndOfStreamError).

(** The file type of a gzip stream, from the file type found inside. *)
Definition gzipType (inner : option FileTypeResult) : FileTypeResult :=
  match inner with
  | Some ft => if String.eqb (ext ft) "tar"
               then mkFileType "tar.gz" "application/gzip"
               else mkFileType "gz" "application/gzip"
  | None => mkFileType "gz" "application/gzip"
  end.

(** A host whose gzip streams all inflate to one block of a tar archive. *)
Definition tarballHost : Host :=
  mkHost TextDecoder.decode
         (fun t => (Spec.tarBlock, t))
         (fun t => Some (None, t))
         (fun _ => false)
         Hosts.numberInRange.

(** A UTF-8 byte order mark in front of an XML declaration. *)
Definition bomXml : list Z := [0xEF; 0xBB; 0xBF] ++ lit "<?xml version".

(** The first bytes of a gzip stream. *)
Definition gzipHead : list Z := [0x1F; 0x8B; 0x08; 0; 0; 0; 0; 0; 0; 3].

(** ** PNG streams *)

(** A number as four bytes, most significant first. *)
Definition be32 (n : Z) : list Z :=
  [n / 256 / 256 / 256 mod 256; n / 256 / 256 mod 256; n / 256 mod 256; n mod 256].

(** A chunk of a PNG stream: the length of its data, its type, its data
    and its checksum. *)
Record Chunk : Type := mkChunk {
  chunkType : list Z;
  chunkData : list Z;
  chunkCrc : list Z
}.

Definition chunkBytes (c : Chunk) : list Z :=
  be32 (Z.of_nat (List.length (chunkData c))) ++ chunkType c ++ chunkData c ++ chunkCrc c.

Definition pngSignature : list Z := [0x89; 0x50; 0x4e; 0x47; 0x0d; 0x0a; 0x1a; 0x0a].

Definition isAscii (b : Z) : Prop := 0 <= b < 128.

(** A chunk the walk passes over: a type of four ASCII characters that is
    neither IDAT nor acTL, data of fewer than 2^31 bytes, and the four bytes
    of the checksum. *)
Definition passedChunk (c : Chunk) : Prop :=
  List.length (chunkType c) = 4%nat /\ Forall isAscii (chunkType c)
  /\ chunkType c <> lit "IDAT" /\ chunkType c <> lit "acTL"
  /\ Z.of_nat (List.length (chunkData c)) < 2 ^ 31
  /\ List.length (chunkCrc c) = 4%nat.

(** The string decoder of the host reads ASCII bytes as themselves in the
    encoding [label]. *)
Definition decodesAscii (H : Host) (label : string) : Prop :=
  forall bytes, Forall isAscii bytes -> decodeText H label bytes = bytes.

(** The header and the gamma chunk of a small image. *)
Definition ihdr : Chunk :=
  mkChunk (lit "IHDR") [0; 0; 0; 1; 0; 0; 0; 1; 8; 6; 0; 0; 0] [0x1f; 0x15; 0xc4; 0x89].
Definition gama : Chunk := mkChunk (lit "gAMA") [0; 0; 0xb1; 0x8f] [0x0b; 0xfc; 0x61; 0x05].

(** A tokenizer state seen through what is left to read. *)
Definition Sees (st : State) (bytes : list Z) : Prop :=
  0 <= position (tokenizer st)
  /\ Tok.remaining (tokenizer st) = bytes
  /\ position (tokenizer st) + Z.of_nat (List.length bytes) <= Tok.fileSize (tokenizer st).

Definition png : FileTypeResult := mkFileType "png" "image/png".
Definition apng : FileTypeResult := mkFileType "apng" "image/apng".

(** ** TIFF files *)

(** A 16-bit number as two bytes in the byte order of the file. *)
Definition u16 (bigEndian : bool) (n : Z) : list Z :=
  if bigEndian then [n / 256 mod 256; n mod 256] else [n mod 256; n / 256 mod 256].

(** The eight bytes of a TIFF header whose first directory follows it
    directly: byte order mark, version 42, directory offset 8. *)
Definition tiffHeader (bigEndian : bool) : list Z :=
  if bigEndian then [0x4d; 0x4d; 0; 42; 0; 0; 0; 8]
  else [0x49; 0x49; 42; 0; 8; 0; 0; 0].

(** An entry of an image file directory: its tag and the ten bytes of its
    type, count and value. *)
Record TiffEntry : Type := mkTiffEntry {
  entryTag : Z;
  entryFields : list Z
}.

Definition entryBytes (bigEndian : bool) (e : TiffEntry) : list Z :=
  u16 bigEndian (entryTag e) ++ entryFields e.

Definition wellFormedEntry (e : TiffEntry) : Prop :=
  0 <= entryTag e < 65536 /\ List.length (entryFields e) = 10%nat.

(** The raw format a tag stands for. *)
Definition rawType (tag : Z) : option FileTypeResult :=
  if tag =? 50341 then Some (mkFileType "arw" "image/x-sony-arw")
  else if tag =? 50706 then Some (mkFileType "dng" "image/x-adobe-dng")
  else None.

(** The raw format of the first entry that stands for one. *)
Fixpoint firstRaw (entries : list TiffEntry) : option FileTypeResult :=
  match entries with
  | [] => None
  | e :: rest =>
      match rawType (entryTag e) with
      | Some type => Some type
      | None => firstRaw rest
      end
  end.

(** The directory begins like the one of a Nikon file: 28 entries, the
    first with the tag 254, or 31 entries, the first with the tag 11. *)
Definition nikonLike (entries : list TiffEntry) : bool :=
  match entries with
  | e :: _ =>
      ((Z.of_nat (List.length entries) =? 0x1c) && (entryTag e =? 0xfe))
      || ((Z.of_nat (List.length entries) =? 0x1f) && (entryTag e =? 0x0b))
  | [] => false
  end.

Definition tif : FileTypeResult := mkFileType "tif" "image/tiff".

(** A directory of two entries, the second with the tag of a DNG file. *)
Definition dngEntries : list TiffEntry :=
  [ mkTiffEntry 254 [0; 4; 0; 0; 0; 1; 0; 0; 0; 0];
    mkTiffEntry 50706 [0; 1; 0; 0; 0; 4; 1; 4; 0; 0] ].

(** ** EBML documents *)

(** The number a byte sequence spells, most significant byte first. *)
Definition beValue (bytes : list Z) : Z :=
  fold_left (fun acc b => acc * 256 + b) bytes 0.

(** A field of an element header, an id or a size, of [w] bytes: the
    first byte has [w - 1] zero bits and then the marker bit. *)
Definition headerField (w : nat) (field : list Z) : Prop :=
  List.length field = w /\ (1 <= w <= 8)%nat /\ Forall isByte field
  /\ 2 ^ (8 - Z.of_nat w) <= hd 0 field < 2 ^ (9 - Z.of_nat w).

(** The number of a size field: its bytes without the marker bit. *)
Definition fieldNumber (field : list Z) : Z :=
  beValue field - 2 ^ (7 * Z.of_nat (List.length field)).

(** An element of the header: the fields of its id and of its size, and
    its payload. *)
Record Element : Type := mkElement {
  idField : list Z;
  sizeField : list Z;
  payload : list Z
}.

Definition elementBytes (e : Element) : list Z :=
  idField e ++ sizeField e ++ payload e.

(** An element the walk passes over: it is not the DocType element, and
    its payload has the length its size field gives. *)
Definition passedElement (e : Element) : Prop :=
  (exists w, headerField w (idField e))
  /\ (exists w, headerField w (sizeField e))
  /\ beValue (idField e) <> 0x4282
  /\ Z.of_nat (List.length (payload e)) = fieldNumber (sizeField e) mod 2 ^ 48.

Definition ebmlSignature : list Z := [0x1a; 0x45; 0xdf; 0xa3].

(** The file type a document type stands for. *)
Definition docType (name : JSString) : option FileTypeResult :=
  if eqs name (lit "webm") then Some (mkFileType "webm" "video/webm")
  else if eqs name (lit "matroska") then Some (mkFileType "mkv" "video/matroska")
  else None.

(** The version elements in front of the DocType element of a header. *)
Definition ebmlVersion : Element := mkElement [0x42; 0x86] [0x81] [1].
Definition ebmlReadVersion : Element := mkElement [0x42; 0xf7] [0x81] [1].

(** ** Magic numbers *)

(** Signatures at the start of a file that the core detector answers from
    the signature alone, with the file type of each. *)
Definition magicNumbers : list (list Z * FileTypeResult) :=
  [ ([0x42; 0x4d], mkFileType "bmp" "image/bmp");
    ([0x0b; 0x77], mkFileType "ac3" "audio/vnd.dolby.dd-raw");
    ([0x78; 0x01], mkFileType "dmg" "application/x-apple-diskimage");
    ([0x4d; 0x5a], mkFileType "exe" "application/x-msdownload");
    ([0x1f; 0xa0], mkFileType "Z" "application/x-compress");
    ([0x1f; 0x9d], mkFileType "Z" "application/x-compress");
    ([0xc7; 0x71], mkFileType "cpio" "application/x-cpio");
    ([0x60; 0xea], mkFileType "arj" "application/x-arj");
    ([0x47; 0x49; 0x46], mkFileType "gif" "image/gif");
    ([0x49; 0x49; 0xbc], mkFileType "jxr" "image/vnd.ms-photo");
    ([0x42; 0x5a; 0x68], mkFileType "bz2" "application/x-bzip2");
    (lit "MP+", mkFileType "mpc" "audio/x-musepack");
    (lit "CWS", mkFileType "swf" "application/x-shockwave-flash");
    (lit "FWS", mkFileType "swf" "application/x-shockwave-flash");
    ([0xff; 0xd8; 0xff; 0xf7], mkFileType "jls" "image/jls");
    ([0xff; 0xd8; 0xff; 0xe0], mkFileType "jpg" "image/jpeg");
    ([0xff; 0xd8; 0xff; 0xe1], mkFileType "jpg" "image/jpeg");
    ([0xff; 0xd8; 0xff; 0xdb], mkFileType "jpg" "image/jpeg");
    ([0x4f; 0x62; 0x6a; 0x01], mkFileType "avro" "application/avro");
    (lit "FLIF", mkFileType "flif" "image/flif");
    (lit "8BPS", mkFileType "psd" "image/vnd.adobe.photoshop");
    (lit "MPCK", mkFileType "mpc" "audio/x-musepack");
    (lit "FORM", mkFileType "aif" "audio/aiff");
    (lit "icns", mkFileType "icns" "image/icns");
    ([0x50; 0x4b; 0x05; 0x06], mkFileType "zip" "application/zip");
    ([0x50; 0x4b; 0x07; 0x08], mkFileType "zip" "application/zip");
    (lit "MThd", mkFileType "mid" "audio/midi");
    (lit "wOFF" ++ [0x00; 0x01; 0x00; 0x00], mkFileType "woff" "font/woff");
    (lit "wOFFOTTO", mkFileType "woff" "font/woff");
    (lit "wOF2" ++ [0x00; 0x01; 0x00; 0x00], mkFileType "woff2" "font/woff2");
    (lit "wOF2OTTO", mkFileType "woff2" "font/woff2");
    ([0xd4; 0xc3; 0xb2; 0xa1], mkFileType "pcap" "application/vnd.tcpdump.pcap");
    ([0xa1; 0xb2; 0xc3; 0xd4], mkFileType "pcap" "application/vnd.tcpdump.pcap");
    (lit "DSD ", mkFileType "dsf" "audio/x-dsf");
    (lit "LZIP", mkFileType "lz" "application/x-lzip");
    (lit "fLaC", mkFileType "flac" "audio/flac");
    ([0x42; 0x50; 0x47; 0xfb], mkFileType "bpg" "image/bpg");
    (lit "wvpk", mkFileType "wv" "audio/wavpack");
    (lit "%PDF", mkFileType "pdf" "application/pdf");
    ([0x00; 0x61; 0x73; 0x6d], mkFileType "wasm" "application/wasm");
    (lit "MAC ", mkFileType "ape" "audio/ape");
    (lit "SQLi", mkFileType "sqlite" "application/x-sqlite3");
    ([0x4e; 0x45; 0x53; 0x1a], mkFileType "nes" "application/x-nintendo-nes-rom");
    (lit "Cr24", mkFileType "crx" "application/x-google-chrome-extension");
    (lit "MSCF", mkFileType "cab" "application/vnd.ms-cab-compressed");
    (lit "ISc(", mkFileType "cab" "application/vnd.ms-cab-compressed");
    ([0xed; 0xab; 0xee; 0xdb], mkFileType "rpm" "application/x-rpm");
    ([0xc5; 0xd0; 0xd3; 0xc6], mkFileType "eps" "application/eps");
    ([0x28; 0xb5; 0x2f; 0xfd], mkFileType "zst" "application/zstd");
    ([0x7f; 0x45; 0x4c; 0x46], mkFileType "elf" "application/x-elf");
    ([0x21; 0x42; 0x44; 0x4e], mkFileType "pst" "application/vnd.ms-outlook");
    (lit "PAR1", mkFileType "parquet" "application/vnd.apache.parquet");
    (lit "PARE", mkFileType "parquet" "application/vnd.apache.parquet");
    (lit "ttcf", mkFileType "ttc" "font/collection");
    ([0xcf; 0xfa; 0xed; 0xfe], mkFileType "macho" "application/x-mach-binary");
    ([0x04; 0x22; 0x4d; 0x18], mkFileType "lz4" "application/x-lz4");
    (lit "regf", mkFileType "dat" "application/x-ft-windows-registry-hive");
    ([0x4f; 0x54; 0x54; 0x4f; 0x00], mkFileType "otf" "font/otf");
    (lit "#!AMR", mkFileType "amr" "audio/amr");
    (lit "{\rtf", mkFileType "rtf" "application/rtf");
    ([0x46; 0x4c; 0x56; 0x01], mkFileType "flv" "video/x-flv");
    (lit "IMPM", mkFileType "it" "audio/x-it");
    (lit "ITSF", mkFileType "chm" "application/vnd.ms-htmlhelp");
    ([0xca; 0xfe; 0xba; 0xbe], mkFileType "class" "application/java-vm");
    (lit ".RMF", mkFileType "rm" "application/vnd.rn-realmedia");
    (lit "DRACO", mkFileType "drc" "application/vnd.google.draco");
    ([0xfd; 0x37; 0x7a; 0x58; 0x5a; 0x00], mkFileType "xz" "application/x-xz");
    (lit "<?xml ", mkFileType "xml" "application/xml");
    ([0x37; 0x7a; 0xbc; 0xaf; 0x27; 0x1c], mkFileType "7z" "application/x-7z-compressed");
    ([0x52; 0x61; 0x72; 0x21; 0x1a; 0x07; 0x00], mkFileType "rar" "application/x-rar-compressed");
    ([0x52; 0x61; 0x72; 0x21; 0x1a; 0x07; 0x01], mkFileType "rar" "application/x-rar-compressed");
    (lit "solid ", mkFileType "stl" "model/stl");
    (lit "070707", mkFileType "cpio" "application/x-cpio");
    (lit "BLENDER", mkFileType "blend" "application/x-blender");
    ([0x41; 0x52; 0x52; 0x4f; 0x57; 0x31; 0x00; 0x00],
     mkFileType "arrow" "application/vnd.apache.arrow.file");
    ([0x67; 0x6c; 0x54; 0x46; 0x02; 0x00; 0x00; 0x00], mkFileType "glb" "model/gltf-binary");
    ([0x49; 0x49; 0x52; 0x4f; 0x08; 0x00; 0x00; 0x00; 0x18],
     mkFileType "orf" "image/x-olympus-orf");
    (lit "gimp xcf ", mkFileType "xcf" "image/x-xcf");
    (lit "REGEDIT4" ++ [13; 10], mkFileType "reg" "application/x-ms-regedit");
    ([0x49; 0x49; 0x55; 0x00; 0x18; 0x00; 0x00; 0x00; 0x88; 0xe7; 0x74; 0xd8],
     mkFileType "rw2" "image/x-panasonic-rw2");
    ([0xab; 0x4b; 0x54; 0x58; 0x20; 0x31; 0x31; 0xbb; 0x0d; 0x0a; 0x1a; 0x0a],
     mkFileType "ktx" "image/ktx");
    ([0x00; 0x00; 0x00; 0x0c; 0x4a; 0x58; 0x4c; 0x20; 0x0d; 0x0a; 0x87; 0x0a],
     mkFileType "jxl" "image/jxl");
    ([0xd0; 0xcf; 0x11; 0xe0; 0xa1; 0xb1; 0x1a; 0xe1], mkFileType "cfb" "application/x-cfb")
  ].

(** ** Entries of ZIP archives *)

Definition isDigit (c : Z) : Prop := 48 <= c <= 57.

(** What the callback answers for the bytecode of an Android package. *)
Definition apkAction : Zip.EntryAction :=
  Zip.mkEntryAction (Some (mkFileType "apk" "application/vnd.android.package-archive"))
                    None true.

(** The content types of a word processing document, as the part
    [[Content_Types].xml] of the package lists them. *)
Definition wordContentTypes : JSString :=
  lit "<Types><Override PartName=" ++ [34] ++ lit "/word/document.xml" ++ [34]
  ++ lit " ContentType=" ++ [34]
  ++ lit "application/vnd.openxmlformats-officedocument.wordprocessingml.document"
  ++ lit ".main+xml" ++ [34] ++ lit "/></Types>".

End Shapes.
Import Shapes.

(* ================================================================== *)
(** * Properties *)
(* ================================================================== *)

(** ** Arithmetic of the 32-bit operators *)

Lemma toInt32_small (z : Z) : - 2 ^ 31 <= z < 2 ^ 31 -> toInt32 z = z.
Proof.
  intros Hz. unfold toInt32. rewrite Z.mod_small; lia.
Qed.

Lemma lor_bound (n a b : Z) :
  0 <= n -> 0 <= a < 2 ^ n -> 0 <= b < 2 ^ n -> 0 <= Z.lor a b < 2 ^ n.
Proof.
  intros Hn Ha Hb. split.
  - apply Z.lor_nonneg. lia.
  - destruct (Z.eq_dec (Z.lor a b) 0) as [E | E].
    + rewrite E. apply Z.pow_pos_nonneg; lia.
    + assert (0 < Z.lor a b) by (pose proof (proj2 (Z.lor_nonneg a b)); lia).
      apply Z.log2_lt_pow2; [assumption |].
      rewrite Z.log2_lor by lia.
      destruct (Z.eq_dec a 0) as [Ea | Ea]; destruct (Z.eq_dec b 0) as [Eb | Eb]; subst.
      * simpl in E. congruence.
      * rewrite Z.max_r by (simpl; apply Z.log2_nonneg).
        apply Z.log2_lt_pow2; lia.
      * rewrite Z.max_l by (simpl; apply Z.log2_nonneg).
        apply Z.log2_lt_pow2; lia.
      * apply Z.max_lub_lt; apply Z.log2_lt_pow2; lia.
Qed.

Lemma land_7f_small (b : Z) : 0 <= b < 128 -> Z.land b 0x7F = b.
Proof.
  intros Hb. change 0x7F with (Z.ones 7). rewrite Z.land_ones by lia.
  apply Z.mod_small. simpl. lia.
Qed.

Lemma shiftl_bound (b k n : Z) :
  0 <= k -> 0 <= b < 2 ^ (n - k) -> k <= n -> 0 <= Z.shiftl b k < 2 ^ n.
Proof.
  intros Hk Hb Hn. rewrite Z.shiftl_mul_pow2 by lia.
  replace n with ((n - k) + k) at 1 by lia.
  rewrite Z.pow_add_r by lia.
  assert (0 < 2 ^ k) by (apply Z.pow_pos_nonneg; lia).
  nia.
Qed.

Lemma bitAnd_small (a b : Z) :
  0 <= a < 2 ^ 31 -> 0 <= b < 2 ^ 31 -> bitAnd a b = Z.land a b.
Proof.
  intros Ha Hb. unfold bitAnd. rewrite !toInt32_small by lia. reflexivity.
Qed.

Lemma bitOr_small (a b : Z) :
  0 <= a < 2 ^ 31 -> 0 <= b < 2 ^ 31 -> bitOr a b = Z.lor a b.
Proof.
  intros Ha Hb. unfold bitOr. rewrite !toInt32_small by lia. reflexivity.
Qed.

Lemma shl_small (a k : Z) :
  0 <= k < 31 -> 0 <= a < 2 ^ (31 - k) -> shl a k = Z.shiftl a k.
Proof.
  intros Hk Ha. unfold shl.
  assert (2 ^ (31 - k) <= 2 ^ 31) by (apply Z.pow_le_mono_r; lia).
  rewrite (Z.mod_small k 32) by lia.
  rewrite (toInt32_small a) by lia.
  pose proof (shiftl_bound a k 31 ltac:(lia) Ha ltac:(lia)).
  apply toInt32_small. lia.
Qed.

(** ** The ID3 sync-safe token *)

(** On bytes whose high bit is clear the token reader gives the value of
    section 4.3. *)
Lemma uint32SyncSafeToken_on_syncsafe (b0 b1 b2 b3 : Z) :
  0 <= b0 < 128 -> 0 <= b1 < 128 -> 0 <= b2 < 128 -> 0 <= b3 < 128 ->
  uint32SyncSafeToken_get [b0; b1; b2; b3] 0 = Spec.id3_sync_safe_u32 b0 b1 b2 b3.
Proof.
  intros H0 H1 H2 H3.
  unfold uint32SyncSafeToken_get, Spec.id3_sync_safe_u32.
  change (nullish (get [b0; b1; b2; b3] (0 + 3)) 0) with b3.
  change (nullish (get [b0; b1; b2; b3] (0 + 2)) 0) with b2.
  change (nullish (get [b0; b1; b2; b3] (0 + 1)) 0) with b1.
  change (nullish (get [b0; b1; b2; b3] 0) 0) with b0.
  assert (P7 : 2 ^ 7 = 128) by reflexivity.
  assert (P28 : 2 ^ 28 < 2 ^ 31) by (simpl; lia).
  pose proof (shiftl_bound b2 7 28 ltac:(lia) ltac:(simpl; lia) ltac:(lia)) as B2.
  pose proof (shiftl_bound b1 14 28 ltac:(lia) ltac:(simpl; lia) ltac:(lia)) as B1.
  pose proof (shiftl_bound b0 21 28 ltac:(lia) ltac:(simpl; lia) ltac:(lia)) as B0.
  rewrite (bitAnd_small b3 0x7f) by (simpl; lia).
  rewrite (shl_small b2 7), (shl_small b1 14), (shl_small b0 21) by (simpl; lia).
  rewrite !land_7f_small by assumption.
  pose proof (lor_bound 28 b3 (Z.shiftl b2 7) ltac:(lia) ltac:(simpl; lia) B2) as L1.
  rewrite (bitOr_small b3) by lia.
  pose proof (lor_bound 28 _ _ ltac:(lia) L1 B1) as L2.
  rewrite (bitOr_small (Z.lor b3 _)) by lia.
  rewrite bitOr_small by lia.
  rewrite (Z.lor_comm (Z.lor (Z.lor b3 _) _) (Z.shiftl b0 21)).
  rewrite (Z.lor_comm (Z.lor b3 _) (Z.shiftl b1 14)).
  rewrite (Z.lor_comm b3 (Z.shiftl b2 7)).
  rewrite !Z.lor_assoc. reflexivity.
Qed.

(** C3. The token reader masks the high bit of the last byte only: on the
    bytes 80 00 00 00 it returns 2^28, where the value of section 4.3, with
    the high bit of each byte masked off, is 0. *)
Theorem uint32SyncSafeToken_masks_last_byte_only :
  uint32SyncSafeToken_get [0x80; 0; 0; 0] 0 = 2 ^ 28
  /\ Spec.id3_sync_safe_u32 0x80 0 0 0 = 0.
Proof.
  split; vm_compute; reflexivity.
Qed.

(** ** The pattern predicate *)

Lemma checkFrom_matches (buffer : list Z) (offset : Z) (mask : option (list Z))
    (headers : list Z) :
  forall index : Z,
    checkFrom buffer offset mask index headers = true <->
    (forall (i : nat) (h : Z),
        nth_error headers i = Some h ->
        match mask with
        | Some m => h = bitAnd (nullish (get m (index + Z.of_nat i)) 0)
                               (nullish (get buffer (index + Z.of_nat i + offset)) 0)
        | None => get buffer (index + Z.of_nat i + offset) = Some h
        end).
Proof.
  induction headers as [| header rest IH]; intros index; cbn [checkFrom].
  - split; [intros _ i h Hi; destruct i; discriminate | reflexivity].
  - destruct mask as [m |].
    + destruct (header =? bitAnd _ _) eqn:E; cbn [negb].
      * apply Z.eqb_eq in E. rewrite IH. split.
        -- intros Hrest [| i] h Hi; cbn [nth_error] in Hi.
           ++ injection Hi as <-. rewrite Z.add_0_r. exact E.
           ++ specialize (Hrest i h Hi).
              replace (index + Z.of_nat (S i)) with (index + 1 + Z.of_nat i) by lia.
              exact Hrest.
        -- intros Hall i h Hi. specialize (Hall (S i) h Hi).
           replace (index + Z.of_nat (S i)) with (index + 1 + Z.of_nat i) in Hall by lia.
           exact Hall.
      * apply Z.eqb_neq in E. split; [discriminate |].
        intros Hall. specialize (Hall 0%nat header eq_refl).
        rewrite Z.add_0_r in Hall. contradiction.
    + destruct (get buffer (index + offset)) as [b |] eqn:G.
      * destruct (header =? b) eqn:E; cbn [negb].
        -- apply Z.eqb_eq in E. subst b. rewrite IH. split.
           ++ intros Hrest [| i] h Hi; cbn [nth_error] in Hi.
              ** injection Hi as <-. rewrite Z.add_0_r. exact G.
              ** specialize (Hrest i h Hi).
                 replace (index + Z.of_nat (S i)) with (index + 1 + Z.of_nat i) by lia.
                 exact Hrest.
           ++ intros Hall i h Hi. specialize (Hall (S i) h Hi).
              replace (index + Z.of_nat (S i)) with (index + 1 + Z.of_nat i) in Hall by lia.
              exact Hall.
        -- apply Z.eqb_neq in E. split; [discriminate |].
           intros Hall. specialize (Hall 0%nat header eq_refl).
           rewrite Z.add_0_r, G in Hall. congruence.
      * split; [discriminate |].
        intros Hall. specialize (Hall 0%nat header eq_refl).
        rewrite Z.add_0_r, G in Hall. discriminate.
Qed.

(** C5, as amended.  The pattern predicate is true exactly when every header
    byte matches: under a mask, the header byte equals the masked sample
    byte, where an index outside the sample (and outside the mask) reads as
    zero; without a mask, the sample has a byte at that index and it equals
    the header byte. *)
Theorem check_all_or_nothing (sample headers : list Z) (offset : option Z)
    (mask : option (list Z)) :
  _check sample headers offset mask = true <->
  Spec.checkMatches sample headers offset mask.
Proof.
  unfold _check, Spec.checkMatches.
  rewrite checkFrom_matches. cbn [Z.add]. reflexivity.
Qed.

(** C5, the claim as stated fails: without a mask, a header byte zero is not
    matched by an index past the end of the sample, although that index reads
    as zero. *)
Lemma check_unmasked_past_end_counterexample :
  _check [] [0] None None = false
  /\ Spec.checkZeroPadded [] [0] None None
  /\ ~ (_check [] [0] None None = true <-> Spec.checkZeroPadded [] [0] None None).
Proof.
  assert (Hz : Spec.checkZeroPadded [] [0] None None).
  { intros [| i] h Hi; cbn in Hi.
    - injection Hi as <-. reflexivity.
    - destruct i; discriminate. }
  split; [reflexivity | split; [exact Hz |]].
  intros [_ Hback]. specialize (Hback Hz). discriminate.
Qed.

(** ** fromBuffer on buffers of fewer than two bytes *)

(** C9. On a buffer of length 0 or 1 [fromBuffer] resolves to no match and
    invokes no detector, whatever the bytes and whatever detectors were
    supplied. *)
Theorem fromBuffer_short_input (H : Host) (options : Options) (fuel : nat)
    (input : list Z) :
  (List.length input <= 1)%nat ->
  fromBufferTraced H options fuel input = ([], Done None None).
Proof.
  intros Hlen. unfold fromBufferTraced.
  destruct (1 <? Z.of_nat (List.length input)) eqn:E.
  - apply Z.ltb_lt in E. lia.
  - reflexivity.
Qed.

Lemma fromBuffer_short_input_witness :
  (List.length [0x42] <= 1)%nat
  /\ fromBufferTraced Hosts.plain (mkOptions 0 [alwaysUnicorn]) 3 [0x42]
     = ([], Done None None)
  /\ fst (fromBufferTraced Hosts.plain (mkOptions 0 [alwaysUnicorn]) 3 [0x42; 0x4d])
     = ["unicorn"%string].
Proof.
  split; [simpl; lia |].
  split; [apply (fromBuffer_short_input Hosts.plain (mkOptions 0 [alwaysUnicorn]) 3 [0x42]);
          simpl; lia |].
  vm_compute. reflexivity.
Defined.

(** ** The TAR header checksum *)

Section ParseInt.

Lemma trimStart_split (s : JSString) :
  exists ws, s = ws ++ trimStart s /\ Forall (fun c => isWhiteSpace c = true) ws.
Proof.
  induction s as [| c rest IH]; cbn [trimStart].
  - exists []. split; [reflexivity | constructor].
  - destruct (isWhiteSpace c) eqn:E.
    + destruct IH as [ws [Hs Hws]]. exists (c :: ws). split.
      * cbn. rewrite <- Hs. reflexivity.
      * constructor; assumption.
    + exists []. split; [reflexivity | constructor].
Qed.

Lemma trimStart_idem (s : JSString) : trimStart (trimStart s) = trimStart s.
Proof.
  induction s as [| c rest IH]; cbn [trimStart]; [reflexivity |].
  destruct (isWhiteSpace c) eqn:E; [exact IH |].
  cbn [trimStart]. rewrite E. reflexivity.
Qed.

Lemma trimStart_whitespace (ws : JSString) :
  Forall (fun c => isWhiteSpace c = true) ws -> trimStart ws = [].
Proof.
  induction 1 as [| c ws Hc _ IH]; cbn [trimStart]; [reflexivity |].
  rewrite Hc. exact IH.
Qed.

Lemma trimStart_app (w tail : JSString) :
  trimStart (w ++ tail) =
  match trimStart w with
  | [] => trimStart tail
  | _ => trimStart w ++ tail
  end.
Proof.
  induction w as [| c rest IH]; cbn [trimStart app]; [reflexivity |].
  destruct (isWhiteSpace c) eqn:E; [exact IH | reflexivity].
Qed.

Lemma trimEnd_split (s : JSString) :
  exists ws, s = trimEnd s ++ ws /\ Forall (fun c => isWhiteSpace c = true) ws.
Proof.
  unfold trimEnd. destruct (trimStart_split (rev s)) as [ws [Hs Hws]].
  exists (rev ws). split.
  - rewrite <- rev_app_distr, <- Hs, rev_involutive. reflexivity.
  - apply Forall_rev. exact Hws.
Qed.

Lemma digitsValue_stop (radix c : Z) (w tail : JSString) :
  radixDigit radix c = None ->
  forall acc, digitsValue radix acc (w ++ c :: tail) = digitsValue radix acc w.
Proof.
  intros Hc. induction w as [| d rest IH]; intros acc; cbn [digitsValue app].
  - rewrite Hc. reflexivity.
  - destruct (radixDigit radix d); [apply IH | reflexivity].
Qed.

Lemma whitespace_endsNumber (c : Z) : isWhiteSpace c = true -> endsNumber 8 c.
Proof.
  intros Hc. unfold endsNumber, radixDigit, digitValue.
  unfold isWhiteSpace, isLineTerminator in Hc.
  repeat (apply orb_prop in Hc; destruct Hc as [Hc | Hc]);
    try (apply andb_prop in Hc; destruct Hc as [Hc1 Hc2];
         apply Z.leb_le in Hc1; apply Z.leb_le in Hc2);
    try (apply Z.eqb_eq in Hc; subst c; cbn; repeat split; congruence).
  repeat split; try lia.
  destruct ((48 <=? c) && (c <=? 57)) eqn:E1;
    [apply andb_prop in E1; destruct E1 as [_ E1]; apply Z.leb_le in E1; lia |].
  destruct ((97 <=? c) && (c <=? 122)) eqn:E2;
    [apply andb_prop in E2; destruct E2 as [_ E2]; apply Z.leb_le in E2; lia |].
  destruct ((65 <=? c) && (c <=? 90)) eqn:E3;
    [apply andb_prop in E3; destruct E3 as [_ E3]; apply Z.leb_le in E3; lia |].
  reflexivity.
Qed.

Lemma nul_endsNumber : endsNumber 8 0.
Proof. unfold endsNumber. cbn. repeat split; congruence. Qed.

Lemma parseInt_readNumber (s : JSString) :
  parseInt s 8 = readNumber (trimStart s).
Proof.
  unfold parseInt, readNumber. destruct (signOf (trimStart s)) as [sign s2].
  reflexivity.
Qed.

Lemma readNumber_stop (c : Z) (w tail : JSString) :
  endsNumber 8 c -> readNumber (w ++ c :: tail) = readNumber w.
Proof.
  intros [Hd [Hm Hp]]. unfold readNumber, signOf.
  destruct w as [| d rest]; cbn [app].
  - apply Z.eqb_neq in Hm, Hp. rewrite Hm, Hp.
    cbn [digitsValue]. rewrite Hd. reflexivity.
  - destruct (d =? 45); [rewrite digitsValue_stop by assumption; reflexivity |].
    destruct (d =? 43); [rewrite digitsValue_stop by assumption; reflexivity |].
    rewrite (digitsValue_stop 8 c (d :: rest) tail Hd). reflexivity.
Qed.

(** Text after a character that ends the number does not change what
    [parseInt] reads. *)
Lemma parseInt_stop (c : Z) (w tail : JSString) :
  endsNumber 8 c -> isWhiteSpace c = false ->
  parseInt (w ++ c :: tail) 8 = parseInt w 8.
Proof.
  intros Hc Hw. rewrite !parseInt_readNumber, trimStart_app.
  destruct (trimStart w) as [| d rest] eqn:E.
  - cbn [trimStart]. rewrite Hw. apply (readNumber_stop c [] tail Hc).
  - apply readNumber_stop. exact Hc.
Qed.

Lemma parseInt_whitespace_tail (w ws : JSString) :
  Forall (fun c => isWhiteSpace c = true) ws ->
  parseInt (w ++ ws) 8 = parseInt w 8.
Proof.
  intros Hws. rewrite !parseInt_readNumber, trimStart_app.
  destruct (trimStart w) as [| d rest] eqn:E.
  - rewrite trimStart_whitespace by assumption. reflexivity.
  - destruct Hws as [| c ws Hc Hws]; [rewrite app_nil_r; reflexivity |].
    apply readNumber_stop. apply whitespace_endsNumber. exact Hc.
Qed.

Lemma parseInt_trim (s : JSString) : parseInt (trim s) 8 = parseInt s 8.
Proof.
  unfold trim.
  destruct (trimEnd_split (trimStart s)) as [ws [Hs Hws]].
  transitivity (parseInt (trimStart s) 8).
  - rewrite Hs at 2. symmetry. apply parseInt_whitespace_tail. exact Hws.
  - rewrite !parseInt_readNumber, trimStart_idem. reflexivity.
Qed.

Lemma replaceNulTail_shape (s : JSString) :
  replaceNulTail s = Spec.truncateAtNul s
  \/ exists tail, replaceNulTail s = Spec.truncateAtNul s ++ 0 :: tail.
Proof.
  induction s as [| c rest IH]; cbn [replaceNulTail Spec.truncateAtNul].
  - left. reflexivity.
  - destruct (c =? 0) eqn:E; cbn [andb].
    + apply Z.eqb_eq in E. subst c.
      destruct (forallb _ rest); [left; reflexivity |].
      right. exists (replaceNulTail rest). reflexivity.
    + destruct IH as [IH | [tail IH]]; rewrite IH.
      * left. reflexivity.
      * right. exists tail. reflexivity.
Qed.

(** The regular expression of the source and the cut at the first NUL of
    the specification leave the same number to read. *)
Lemma parseInt_replaceNulTail (s : JSString) :
  parseInt (trim (replaceNulTail s)) 8 = parseInt (trim (Spec.truncateAtNul s)) 8.
Proof.
  rewrite !parseInt_trim.
  destruct (replaceNulTail_shape s) as [E | [tail E]]; rewrite E; [reflexivity |].
  apply parseInt_stop; [exact nul_endsNumber | reflexivity].
Qed.

End ParseInt.

Lemma sumLoop_byteSum (arrayBuffer : list Z) (count : nat) :
  forall index sum,
    sumLoop arrayBuffer index count sum = sum + Spec.byteSum arrayBuffer index count.
Proof.
  unfold Spec.byteSum.
  induction count as [| n IH]; intros index sum; cbn [sumLoop].
  - cbn. lia.
  - rewrite IH. cbn [seq map fold_right].
    rewrite <- seq_shift, map_map. rewrite Z.add_0_r.
    assert (E : map (fun i => nullish (get arrayBuffer (index + 1 + Z.of_nat i)) 0) (seq 0 n)
                = map (fun i => nullish (get arrayBuffer (index + Z.of_nat (S i))) 0) (seq 0 n)).
    { apply map_ext. intros i. f_equal. f_equal. lia. }
    rewrite E. lia.
Qed.

Lemma byteSum_slice (bytes : list Z) (count : nat) :
  forall from : nat,
    (from + count <= List.length bytes)%nat ->
    Spec.byteSum bytes (Z.of_nat from) count
    = Spec.sumList (firstn count (skipn from bytes)).
Proof.
  induction count as [| n IH]; intros from Hlen.
  - reflexivity.
  - rewrite <- (Z.add_0_l (Spec.byteSum _ _ _)), <- sumLoop_byteSum. cbn [sumLoop].
    rewrite sumLoop_byteSum.
    replace (Z.of_nat from + 1) with (Z.of_nat (S from)) by lia.
    rewrite IH by lia.
    destruct (skipn from bytes) as [| b rest] eqn:E.
    + exfalso. assert (L : List.length (skipn from bytes) = 0%nat) by (rewrite E; reflexivity).
      rewrite length_skipn in L. lia.
    + assert (G : get bytes (Z.of_nat from) = Some b).
      { unfold get. destruct (Z.of_nat from <? 0) eqn:N; [apply Z.ltb_lt in N; lia |].
        rewrite Nat2Z.id.
        rewrite <- (firstn_skipn from bytes), nth_error_app2;
          rewrite length_firstn, Nat.min_l by lia; [| lia].
        rewrite Nat.sub_diag, E. reflexivity. }
      rewrite G. cbn [nullish firstn Spec.sumList fold_right].
      replace (skipn (S from) bytes) with rest.
      * unfold Spec.sumList. lia.
      * change (S from) with (1 + from)%nat. rewrite <- skipn_skipn, E. reflexivity.
Qed.

(** The checksum test of the source in terms of the declared sum of the
    specification and the two sums of bytes. *)
Lemma tarHeaderChecksumMatches_sums (H : Host) (arrayBuffer : list Z) (offset : Z) :
  tarHeaderChecksumMatches H arrayBuffer offset = true <->
  Spec.declaredSum H arrayBuffer
  = Some (8 * 0x20 + Spec.byteSum arrayBuffer offset 148
          + Spec.byteSum arrayBuffer (offset + 156) 356).
Proof.
  unfold tarHeaderChecksumMatches, Spec.declaredSum, StringType_get.
  rewrite parseInt_replaceNulTail.
  change (148 + 6) with 154.
  destruct (parseInt _ 8) as [readSum |]; [| split; discriminate].
  replace (Z.to_nat (offset + 148 - offset)) with 148%nat by lia.
  replace (Z.to_nat (offset + 512 - (offset + 156))) with 356%nat by lia.
  rewrite !sumLoop_byteSum. rewrite Z.eqb_eq. split.
  - intros ->. reflexivity.
  - intros E. injection E as ->. reflexivity.
Qed.

Lemma subarray_ext (B1 B2 : list Z) (from to : Z) :
  0 <= from ->
  (forall i, from <= i < to -> get B1 i = get B2 i) ->
  subarray B1 from to = subarray B2 from to.
Proof.
  intros Hfrom Hagree. unfold subarray. apply nth_error_ext. intros n.
  rewrite !nth_error_firstn, !nth_error_skipn.
  destruct (n <? Z.to_nat (to - from))%nat eqn:E; [| reflexivity].
  apply Nat.ltb_lt in E.
  specialize (Hagree (from + Z.of_nat n) ltac:(lia)). unfold get in Hagree.
  destruct (from + Z.of_nat n <? 0) eqn:N; [apply Z.ltb_lt in N; lia |].
  replace (Z.to_nat (from + Z.of_nat n)) with (Z.to_nat from + n)%nat in Hagree by lia.
  exact Hagree.
Qed.

(** The declared sum is a function of the bytes 148 to 153 of the buffer. *)
Lemma declaredSum_reads_slot (H : Host) (B1 B2 : list Z) :
  (forall i, 148 <= i < 154 -> get B1 i = get B2 i) ->
  Spec.declaredSum H B1 = Spec.declaredSum H B2.
Proof.
  intros Hagree. unfold Spec.declaredSum.
  rewrite (subarray_ext B1 B2 148 154 ltac:(lia) Hagree). reflexivity.
Qed.

Lemma tarBlockAt_slot (k : nat) :
  exists rest, subarray (tarBlockAt k) 148 154 = 0 :: rest.
Proof.
  unfold tarBlockAt, Spec.tarBlock, subarray.
  change (Z.to_nat 148) with 148%nat. change (Z.to_nat (154 - 148)) with 6%nat.
  rewrite app_assoc, <- repeat_app.
  replace (S k + 148)%nat with (148 + S k)%nat by lia.
  rewrite repeat_app, <- app_assoc.
  rewrite skipn_app, repeat_length, Nat.sub_diag.
  rewrite skipn_all2 by (rewrite repeat_length; lia).
  cbn [skipn app repeat firstn]. eexists. reflexivity.
Qed.

(** A header with the right checksum that sits at a positive offset is
    rejected: the bytes read for its declared sum begin with a NUL. *)
Lemma tarBlockAt_rejected (k : nat) :
  tarHeaderChecksumMatches Hosts.plain (tarBlockAt k) (Z.of_nat (S k)) = false.
Proof.
  destruct (tarHeaderChecksumMatches Hosts.plain (tarBlockAt k) (Z.of_nat (S k))) eqn:T;
    [| reflexivity].
  apply tarHeaderChecksumMatches_sums in T.
  unfold Spec.declaredSum in T.
  destruct (tarBlockAt_slot k) as [rest Hslot]. rewrite Hslot in T.
  discriminate T.
Qed.

Lemma tarBlockAt_header (k : nat) : skipn (S k) (tarBlockAt k) = Spec.tarBlock.
Proof.
  unfold tarBlockAt. rewrite skipn_app, repeat_length, Nat.sub_diag.
  rewrite skipn_all2 by (rewrite repeat_length; lia). reflexivity.
Qed.

(** The computed sum of section 4.6 in terms of the two sums of bytes. *)
Lemma computedSum_sums (B : list Z) :
  List.length B = 512%nat ->
  8 * 0x20 + Spec.byteSum B 0 148 + Spec.byteSum B (0 + 156) 356 = Spec.computedSum B.
Proof.
  intros Hlen. unfold Spec.computedSum.
  pose proof (byteSum_slice B 148 0 ltac:(lia)) as E1.
  pose proof (byteSum_slice B 356 156 ltac:(lia)) as E2.
  change (Z.of_nat 0) with 0 in E1. change (Z.of_nat 156) with (0 + 156) in E2.
  rewrite E1, E2. reflexivity.
Qed.

(** On a block of 512 bytes and with the offset 0 the test is the verdict
    of section 4.6. *)
Lemma tarHeaderChecksumMatches_headerValid (H : Host) (B : list Z) :
  List.length B = 512%nat ->
  tarHeaderChecksumMatches H B 0 = Spec.headerValid H B.
Proof.
  intros Hlen. pose proof (tarHeaderChecksumMatches_sums H B 0) as Hiff.
  rewrite (computedSum_sums B Hlen) in Hiff. unfold Spec.headerValid.
  destruct (tarHeaderChecksumMatches H B 0).
  - rewrite (proj1 Hiff eq_refl), Z.eqb_refl. reflexivity.
  - destruct (Spec.declaredSum H B) as [d |]; [| reflexivity].
    destruct (d =? Spec.computedSum B) eqn:E; [| reflexivity].
    apply Z.eqb_eq in E. subst d. apply Hiff. reflexivity.
Qed.

Lemma get_cons (a : Z) (l : list Z) (i : nat) :
  get (a :: l) (Z.of_nat (S i)) = get l (Z.of_nat i).
Proof.
  unfold get.
  destruct (Z.of_nat (S i) <? 0) eqn:E1; [apply Z.ltb_lt in E1; lia |].
  destruct (Z.of_nat i <? 0) eqn:E2; [apply Z.ltb_lt in E2; lia |].
  rewrite !Nat2Z.id. reflexivity.
Qed.

Lemma cells_whole (l : list Z) :
  map (fun i => nullish (get l (0 + Z.of_nat i)) 0) (seq 0 (List.length l)) = l.
Proof.
  induction l as [| a l IH]; [reflexivity |].
  cbn [List.length seq map]. f_equal.
  rewrite <- seq_shift, map_map. rewrite <- IH at 2.
  apply map_ext. intros i. rewrite !Z.add_0_l, get_cons. reflexivity.
Qed.

(** The header at the offset 0 of a block of 512 bytes is the block. *)
Lemma headerAt_whole (B : list Z) : List.length B = 512%nat -> headerAt B 0 = B.
Proof. intros Hlen. unfold headerAt. rewrite <- Hlen. apply cells_whole. Qed.

Lemma headerAt_tarBlockAt (k : nat) :
  headerAt (tarBlockAt k) (Z.of_nat (S k)) = Spec.tarBlock.
Proof.
  unfold headerAt.
  transitivity (map (fun i => nullish (nth_error Spec.tarBlock i) 0) (seq 0 512));
    [| vm_compute; reflexivity].
  apply map_ext. intros i. f_equal. unfold get, tarBlockAt.
  destruct (_ <? 0) eqn:E; [apply Z.ltb_lt in E; lia |].
  rewrite nth_error_app2 by (rewrite repeat_length; lia).
  rewrite repeat_length. f_equal. lia.
Qed.

Lemma byteSum_zero (bytes : list Z) (count : nat) :
  forall from : Z,
    (forall i, from <= i < from + Z.of_nat count -> nullish (get bytes i) 0 = 0) ->
    Spec.byteSum bytes from count = 0.
Proof.
  induction count as [| n IH]; intros from Hzero; [reflexivity |].
  rewrite <- (Z.add_0_l (Spec.byteSum _ _ _)), <- sumLoop_byteSum. cbn [sumLoop].
  rewrite sumLoop_byteSum, (Hzero from) by lia.
  rewrite IH by (intros i Hi; apply Hzero; lia). reflexivity.
Qed.

Lemma zeros_cell (n : nat) (tail : list Z) (i : Z) :
  i < Z.of_nat n -> nullish (get (repeat 0 n ++ tail) i) 0 = 0.
Proof.
  intros Hi. unfold get. destruct (i <? 0) eqn:En; [reflexivity |].
  apply Z.ltb_ge in En.
  rewrite nth_error_app1 by (rewrite repeat_length; lia).
  destruct (nth_error (repeat 0 n) (Z.to_nat i)) as [x |] eqn:E; [| reflexivity].
  apply nth_error_In, repeat_spec in E. exact E.
Qed.

(** The buffers chosen for the offsets from -363 to -1. *)
Lemma disagreeingBuffer_near :
  forallb (fun n =>
             tarHeaderChecksumMatches Hosts.plain
               (disagreeingBuffer (- Z.of_nat n)) (- Z.of_nat n)
             && negb (Spec.headerValid Hosts.plain
                        (headerAt (disagreeingBuffer (- Z.of_nat n)) (- Z.of_nat n))))
          (seq 1 363) = true.
Proof. vm_compute. reflexivity. Qed.

(** At a negative offset the test accepts the chosen buffer, and the header
    at that offset is not valid. *)
Lemma disagreeingBuffer_before (offset : Z) :
  offset < 0 ->
  tarHeaderChecksumMatches Hosts.plain (disagreeingBuffer offset) offset = true
  /\ Spec.headerValid Hosts.plain (headerAt (disagreeingBuffer offset) offset) = false.
Proof.
  intros Hneg. destruct (Z.le_gt_cases offset (-364)) as [Hfar | Hnear].
  - assert (Eb : disagreeingBuffer offset = repeat 0 148 ++ lit "000400").
    { unfold disagreeingBuffer.
      destruct (0 <? offset) eqn:E0; [apply Z.ltb_lt in E0; lia |].
      destruct (offset <=? -364) eqn:E1; [reflexivity | apply Z.leb_gt in E1; lia]. }
    rewrite Eb. split.
    + apply tarHeaderChecksumMatches_sums.
      rewrite !byteSum_zero by (intros i Hi; apply zeros_cell; lia).
      vm_compute. reflexivity.
    + assert (Eh : headerAt (repeat 0 148 ++ lit "000400") offset = repeat 0 512).
      { unfold headerAt.
        transitivity (map (fun _ : nat => 0) (seq 0 512)); [| vm_compute; reflexivity].
        apply map_ext_in. intros i Hi. apply in_seq in Hi. apply zeros_cell. lia. }
      rewrite Eh. vm_compute. reflexivity.
  - pose proof disagreeingBuffer_near as Htable.
    rewrite forallb_forall in Htable.
    specialize (Htable (Z.to_nat (- offset))).
    rewrite Z2Nat.id, Z.opp_involutive in Htable by lia.
    assert (Hin : In (Z.to_nat (- offset)) (seq 1 363)) by (apply in_seq; lia).
    apply Htable in Hin. apply andb_true_iff in Hin. destruct Hin as [Ht Hv].
    split; [exact Ht |]. apply negb_true_iff in Hv. exact Hv.
Qed.

(** C10, as amended.  Whatever the offset argument, the declared sum is read
    from the six bytes at the absolute offsets 148 to 153 of the buffer (it
    is a function of these bytes alone), while the two sums of bytes range
    over [offset, offset+148) and [offset+156, offset+512).  So for a header
    placed at a nonzero offset the declared sum is not read from the place
    where that header keeps it: the six bytes read lie wholly outside the
    header, the bytes [offset, offset+512), exactly when the offset is at
    least 154 or at most -364.  The test is the verdict of section 4.6 only
    for the offset 0: there it is that verdict on a block of 512 bytes,
    and for every other offset, positive or negative, there is a buffer on
    which the test and the validity of the header at that offset differ. *)
Theorem tarHeaderChecksumMatches_reads_absolute_slot :
  (forall (H : Host) (arrayBuffer : list Z) (offset : Z),
      tarHeaderChecksumMatches H arrayBuffer offset = true <->
      Spec.declaredSum H arrayBuffer
      = Some (8 * 0x20 + Spec.byteSum arrayBuffer offset 148
              + Spec.byteSum arrayBuffer (offset + 156) 356))
  /\ (forall (H : Host) (B1 B2 : list Z),
         (forall i, 148 <= i < 154 -> get B1 i = get B2 i) ->
         Spec.declaredSum H B1 = Spec.declaredSum H B2)
  /\ (forall offset : Z,
         (forall i, 148 <= i < 154 -> inHeader offset i = false)
         <-> (offset <= -364 \/ 154 <= offset))
  /\ (forall (H : Host) (B : list Z),
         List.length B = 512%nat ->
         headerAt B 0 = B /\ tarHeaderChecksumMatches H B 0 = Spec.headerValid H B)
  /\ (forall offset : Z,
         offset <> 0 ->
         exists arrayBuffer : list Z,
           tarHeaderChecksumMatches Hosts.plain arrayBuffer offset
           = negb (Spec.headerValid Hosts.plain (headerAt arrayBuffer offset)))
  /\ (forall k : nat,
         tarHeaderChecksumMatches Hosts.plain (tarBlockAt k) (Z.of_nat (S k)) = false
         /\ headerAt (tarBlockAt k) (Z.of_nat (S k)) = skipn (S k) (tarBlockAt k)
         /\ Spec.declaredSum Hosts.plain (skipn (S k) (tarBlockAt k))
            = Some (Spec.computedSum (skipn (S k) (tarBlockAt k)))).
Proof.
  split; [exact tarHeaderChecksumMatches_sums |].
  split; [exact declaredSum_reads_slot |].
  split; [| split; [| split]].
  - intros offset. unfold inHeader. split.
    + intros Hout.
      pose proof (Hout 148 ltac:(lia)) as H148. pose proof (Hout 153 ltac:(lia)) as H153.
      apply andb_false_iff in H148. apply andb_false_iff in H153.
      rewrite Z.leb_gt, Z.ltb_ge in H148, H153. lia.
    + intros Hfar i Hi. apply andb_false_iff. rewrite Z.leb_gt, Z.ltb_ge. lia.
  - intros H B Hlen.
    split; [exact (headerAt_whole B Hlen) | exact (tarHeaderChecksumMatches_headerValid H B Hlen)].
  - intros offset Hnz. exists (disagreeingBuffer offset).
    destruct (Z.lt_trichotomy offset 0) as [Hneg | [Hzero | Hpos]]; [| contradiction |].
    + destruct (disagreeingBuffer_before offset Hneg) as [Ht Hv]. rewrite Ht, Hv. reflexivity.
    + assert (Eb : disagreeingBuffer offset = tarBlockAt (Z.to_nat (offset - 1))).
      { unfold disagreeingBuffer.
        destruct (0 <? offset) eqn:E0; [reflexivity | apply Z.ltb_ge in E0; lia]. }
      assert (Eo : offset = Z.of_nat (S (Z.to_nat (offset - 1)))) by lia.
      rewrite Eb. rewrite Eo at 2 4.
      rewrite tarBlockAt_rejected, headerAt_tarBlockAt. vm_compute. reflexivity.
  - intros k. split; [apply tarBlockAt_rejected |].
    rewrite headerAt_tarBlockAt, tarBlockAt_header.
    split; [reflexivity | vm_compute; reflexivity].
Qed.

Lemma tarHeaderChecksumMatches_reads_absolute_slot_witness :
  (forall i, 148 <= i < 154 -> get Spec.tarBlock i = get (7 :: tl Spec.tarBlock) i)
  /\ Spec.declaredSum Hosts.plain Spec.tarBlock
     = Spec.declaredSum Hosts.plain (7 :: tl Spec.tarBlock)
  /\ tarHeaderChecksumMatches Hosts.plain Spec.tarBlock 0 = true
  /\ tarHeaderChecksumMatches Hosts.plain Spec.tarBlock 0
     = Spec.headerValid Hosts.plain Spec.tarBlock
  /\ (forall i, 148 <= i < 154 -> inHeader 154 i = false)
  /\ (exists arrayBuffer : list Z,
         tarHeaderChecksumMatches Hosts.plain arrayBuffer (-9)
         = negb (Spec.headerValid Hosts.plain (headerAt arrayBuffer (-9))))
  /\ tarHeaderChecksumMatches Hosts.plain (tarBlockAt 511) 512 = false.
Proof.
  assert (Hagree : forall i, 148 <= i < 154 ->
                             get Spec.tarBlock i = get (7 :: tl Spec.tarBlock) i).
  { intros i Hi.
    assert (Hcases : i = 148 \/ i = 149 \/ i = 150 \/ i = 151 \/ i = 152 \/ i = 153) by lia.
    repeat (destruct Hcases as [-> | Hcases]; [reflexivity |]).
    subst i. reflexivity. }
  destruct tarHeaderChecksumMatches_reads_absolute_slot
    as [Hiff [Hslot [Hout [Hzero [Hother Hat]]]]].
  split; [exact Hagree |].
  split; [exact (Hslot Hosts.plain Spec.tarBlock (7 :: tl Spec.tarBlock) Hagree) |].
  split; [apply Hiff; vm_compute; reflexivity |].
  split; [exact (proj2 (Hzero Hosts.plain Spec.tarBlock eq_refl)) |].
  split; [apply (proj2 (Hout 154)); right; lia |].
  split; [apply (Hother (-9)); lia |].
  exact (proj1 (Hat 511%nat)).
Defined.

(** C10, the claim as stated fails in one point: the bytes the declared sum
    is taken from need not lie outside the header.  For the offset 1 the
    header spans the indices 1 to 512; changing the byte at index 153, which
    lies inside it and which neither sum reaches, turns a buffer that passes
    into one that fails. *)
Lemma tarHeaderChecksumMatches_slot_inside_header_counterexample :
  slotProbeChanged = firstn 153 slotProbe ++ [49] ++ skipn 154 slotProbe
  /\ 1 <= 153 < 1 + 512
  /\ Spec.byteSum slotProbe 1 148 = Spec.byteSum slotProbeChanged 1 148
  /\ Spec.byteSum slotProbe (1 + 156) 356 = Spec.byteSum slotProbeChanged (1 + 156) 356
  /\ tarHeaderChecksumMatches Hosts.plain slotProbe 1 = true
  /\ tarHeaderChecksumMatches Hosts.plain slotProbeChanged 1 = false.
Proof.
  split; [reflexivity |].
  split; [lia |].
  split; [vm_compute; reflexivity |].
  split; [vm_compute; reflexivity |].
  split; vm_compute; reflexivity.
Qed.

(** C6. On a buffer of 512 bytes and with the default offset the test holds
    exactly when the declared sum of section 4.6 (the six bytes at offset
    148, cut at the first NUL, trimmed, read as an octal number) equals
    [8*0x20] plus the sum of the bytes before the slot plus the sum of the
    bytes after it; it fails when the slot does not read as a number. *)
Theorem tarHeaderChecksumMatches_spec (H : Host) (B : list Z) :
  List.length B = 512%nat ->
  (tarHeaderChecksumMatches H B 0 = true <->
   Spec.declaredSum H B = Some (Spec.computedSum B))
  /\ (Spec.declaredSum H B = None -> tarHeaderChecksumMatches H B 0 = false).
Proof.
  intros Hlen.
  assert (E : 8 * 0x20 + Spec.byteSum B 0 148 + Spec.byteSum B (0 + 156) 356
              = Spec.computedSum B).
  { unfold Spec.computedSum.
    pose proof (byteSum_slice B 148 0 ltac:(lia)) as E1.
    pose proof (byteSum_slice B 356 156 ltac:(lia)) as E2.
    change (Z.of_nat 0) with 0 in E1. change (Z.of_nat 156) with (0 + 156) in E2.
    rewrite E1, E2. reflexivity. }
  split.
  - rewrite tarHeaderChecksumMatches_sums, E. reflexivity.
  - intros Hnone.
    destruct (tarHeaderChecksumMatches H B 0) eqn:T; [| reflexivity].
    apply tarHeaderChecksumMatches_sums in T. congruence.
Qed.

Lemma tarHeaderChecksumMatches_spec_witness :
  List.length Spec.tarBlock = 512%nat
  /\ tarHeaderChecksumMatches Hosts.plain Spec.tarBlock 0 = true
  /\ Spec.declaredSum Hosts.plain Spec.tarBlock = Some (Spec.computedSum Spec.tarBlock).
Proof.
  split; [reflexivity |].
  destruct (tarHeaderChecksumMatches_spec Hosts.plain Spec.tarBlock eq_refl) as [Hiff _].
  assert (D : Spec.declaredSum Hosts.plain Spec.tarBlock
              = Some (Spec.computedSum Spec.tarBlock)) by (vm_compute; reflexivity).
  split; [apply Hiff; exact D | exact D].
Defined.

(** ** stringToBytes and the UTF-16 decoders *)

Lemma codeUnit_bytes (c : Z) :
  0 <= c < 65536 ->
  bitAnd (shr c 8) 0xff * 256 + bitAnd c 0xff = c.
Proof.
  intros Hc. unfold shr. change (8 mod 32) with 8.
  rewrite (toInt32_small c) by (simpl; lia).
  rewrite Z.shiftr_div_pow2 by lia. change (2 ^ 8) with 256.
  assert (0 <= c / 256 < 256).
  { split; [apply Z.div_pos; lia | apply Z.div_lt_upper_bound; lia]. }
  rewrite !bitAnd_small by (simpl; lia).
  change 0xff with (Z.ones 8). rewrite !Z.land_ones by lia. change (2 ^ 8) with 256.
  rewrite (Z.mod_small (c / 256)) by lia.
  pose proof (Z.div_mod c 256 ltac:(lia)). lia.
Qed.

(** The decoder run reads back the code units of a well-formed string, in
    either byte order. *)
Lemma utf16Run_stringToBytes (be : bool) :
  forall (n : nat) (s : JSString),
    (List.length s <= n)%nat ->
    codeUnitsOnly s -> wellFormed s = true ->
    TextDecoder.utf16Run be None None (if be then utf16beBytes s else utf16leBytes s) = s.
Proof.
  assert (Step : forall c lead rest,
             0 <= c < 65536 ->
             TextDecoder.utf16Run be None lead
               (if be then utf16beBytes (c :: rest) else utf16leBytes (c :: rest))
             = TextDecoder.utf16Run be (Some (if be then bitAnd (shr c 8) 0xff
                                               else bitAnd c 0xff)) lead
                 ((if be then bitAnd c 0xff else bitAnd (shr c 8) 0xff)
                  :: (if be then utf16beBytes rest else utf16leBytes rest))).
  { intros c lead rest Hc. destruct be; reflexivity. }
  induction n as [| n IH]; intros s Hlen Hunits Hwf.
  - destruct s; [destruct be; reflexivity | cbn in Hlen; lia].
  - destruct s as [| c rest]; [destruct be; reflexivity |].
    inversion Hunits as [| ? ? Hc Hrest]; subst.
    rewrite Step by exact Hc. cbn [TextDecoder.utf16Run].
    replace (if be
             then (if be then bitAnd (shr c 8) 0xff else bitAnd c 0xff) * 256
                  + (if be then bitAnd c 0xff else bitAnd (shr c 8) 0xff)
             else (if be then bitAnd c 0xff else bitAnd (shr c 8) 0xff) * 256
                  + (if be then bitAnd (shr c 8) 0xff else bitAnd c 0xff))
      with c by (destruct be; symmetry; apply codeUnit_bytes; exact Hc).
    cbn [wellFormed] in Hwf.
    destruct (isHighSurrogate c) eqn:Hhigh.
    + destruct rest as [| d rest']; [discriminate |].
      apply andb_prop in Hwf. destruct Hwf as [Hlow Hwf].
      inversion Hrest as [| ? ? Hd Hrest']; subst.
      rewrite Step by exact Hd. cbn [TextDecoder.utf16Run].
      replace (if be
               then (if be then bitAnd (shr d 8) 0xff else bitAnd d 0xff) * 256
                    + (if be then bitAnd d 0xff else bitAnd (shr d 8) 0xff)
               else (if be then bitAnd d 0xff else bitAnd (shr d 8) 0xff) * 256
                    + (if be then bitAnd (shr d 8) 0xff else bitAnd d 0xff))
        with d by (destruct be; symmetry; apply codeUnit_bytes; exact Hd).
      rewrite Hlow. rewrite IH; [reflexivity | cbn in Hlen; lia | assumption | assumption].
    + apply andb_prop in Hwf. destruct Hwf as [Hlow Hwf].
      apply negb_true_iff in Hlow. rewrite Hlow.
      rewrite IH; [reflexivity | cbn in Hlen; lia | assumption | assumption].
Qed.

(** [stringToBytes] loses nothing: the bytes spell the code units of the
    string, whatever they are. *)
Lemma stringToBytes_codeUnits (s : JSString) :
  codeUnitsOnly s ->
  Spec.codeUnitsOf false (stringToBytes s (Some "utf-16le"%string)) = s
  /\ Spec.codeUnitsOf true (stringToBytes s (Some "utf-16be"%string)) = s.
Proof.
  change (stringToBytes s (Some "utf-16le"%string)) with (utf16leBytes s).
  change (stringToBytes s (Some "utf-16be"%string)) with (utf16beBytes s).
  induction 1 as [| c rest Hc _ [IHle IHbe]]; [split; reflexivity |].
  cbn [utf16leBytes utf16beBytes Spec.codeUnitsOf].
  rewrite IHle, IHbe, (codeUnit_bytes c Hc). split; reflexivity.
Qed.

(** C8, as amended.  For every string whose surrogates are all paired and
    which does not begin with U+FEFF, decoding the bytes that [stringToBytes]
    produces under the same encoding yields the string again, for UTF-16LE
    and for UTF-16BE. *)
Theorem stringToBytes_utf16_roundtrip (s : JSString) :
  codeUnitsOnly s -> wellFormed s = true -> hd_error s <> Some 0xFEFF ->
  TextDecoder.decode "utf-16le" (stringToBytes s (Some "utf-16le"%string)) = s
  /\ TextDecoder.decode "utf-16be" (stringToBytes s (Some "utf-16be"%string)) = s.
Proof.
  intros Hunits Hwf Hbom.
  assert (Strip : TextDecoder.stripBOM s = s).
  { destruct s as [| c rest]; [reflexivity |]. cbn [TextDecoder.stripBOM].
    destruct (c =? 0xFEFF) eqn:E; [| reflexivity].
    apply Z.eqb_eq in E. subst c. exfalso. apply Hbom. reflexivity. }
  split.
  - change (TextDecoder.decode "utf-16le" (stringToBytes s (Some "utf-16le"%string)))
      with (TextDecoder.stripBOM (TextDecoder.utf16Run false None None (utf16leBytes s))).
    rewrite (utf16Run_stringToBytes false (List.length s) s (le_n _) Hunits Hwf).
    exact Strip.
  - change (TextDecoder.decode "utf-16be" (stringToBytes s (Some "utf-16be"%string)))
      with (TextDecoder.stripBOM (TextDecoder.utf16Run true None None (utf16beBytes s))).
    rewrite (utf16Run_stringToBytes true (List.length s) s (le_n _) Hunits Hwf).
    exact Strip.
Qed.

Lemma stringToBytes_utf16_roundtrip_witness :
  (codeUnitsOnly unicornText /\ wellFormed unicornText = true
   /\ hd_error unicornText <> Some 0xFEFF)
  /\ TextDecoder.decode "utf-16le" (stringToBytes unicornText (Some "utf-16le"%string))
     = unicornText
  /\ TextDecoder.decode "utf-16be" (stringToBytes unicornText (Some "utf-16be"%string))
     = unicornText.
Proof.
  assert (Hu : codeUnitsOnly unicornText) by (repeat constructor; lia).
  assert (Hw : wellFormed unicornText = true) by reflexivity.
  assert (Hb : hd_error unicornText <> Some 0xFEFF) by (cbn; congruence).
  split; [repeat split; assumption |].
  exact (stringToBytes_utf16_roundtrip unicornText Hu Hw Hb).
Defined.

(** C8, the claim as stated fails: a leading U+FEFF, a plain character of
    the basic plane, is taken for a byte order mark and dropped by the
    decoder, and an unpaired surrogate comes back as U+FFFD. *)
Lemma stringToBytes_utf16_roundtrip_counterexample :
  TextDecoder.decode "utf-16le" (stringToBytes [0xFEFF; 0x41] (Some "utf-16le"%string))
  = [0x41]
  /\ TextDecoder.decode "utf-16be" (stringToBytes [0xFEFF; 0x41] (Some "utf-16be"%string))
     = [0x41]
  /\ TextDecoder.decode "utf-16le" (stringToBytes [0xD83E] (Some "utf-16le"%string))
     = [0xFFFD]
  /\ ~ (forall s : JSString,
          codeUnitsOnly s ->
          TextDecoder.decode "utf-16le" (stringToBytes s (Some "utf-16le"%string)) = s).
Proof.
  split; [vm_compute; reflexivity |].
  split; [vm_compute; reflexivity |].
  split; [vm_compute; reflexivity |].
  intros Hall.
  assert (Hu : codeUnitsOnly [0xFEFF; 0x41]) by (repeat constructor; lia).
  specialize (Hall [0xFEFF; 0x41] Hu). vm_compute in Hall. discriminate.
Qed.

(** ** The detection pipeline *)

Section Pipeline.

Variable p0 : Z.

(** The first detector with a result, after detectors that pass, decides. *)
Lemma runDetectors_first_result (pre : list Registered) :
  forall (d : Registered) (post : list Registered) (st st1 st2 : State)
         (r : FileTypeResult),
    Passes p0 pre st st1 ->
    run d st1 = Done (Some r) st2 ->
    runDetectors p0 (pre ++ d :: post) st
    = (map rid pre ++ [rid d], Done (Some r) st2).
Proof.
  induction pre as [| e pre IH]; intros d post st st1 st2 r Hpass Hrun.
  - inversion Hpass; subst. cbn [app map runDetectors]. rewrite Hrun. reflexivity.
  - inversion Hpass as [| ? ? ? sta ? Hrun_e Hpos Hrest]; subst.
    cbn [app map runDetectors]. rewrite Hrun_e, Z.eqb_refl. cbn [negb].
    rewrite (IH d post sta st1 st2 r Hrest Hrun). reflexivity.
Qed.

(** A detector without a result that has moved the tokenizer ends the run. *)
Lemma runDetectors_halt (pre : list Registered) :
  forall (d : Registered) (post : list Registered) (st st1 st2 : State),
    Passes p0 pre st st1 ->
    run d st1 = Done None st2 ->
    position (tokenizer st2) <> p0 ->
    runDetectors p0 (pre ++ d :: post) st = (map rid pre ++ [rid d], Done None st2).
Proof.
  induction pre as [| e pre IH]; intros d post st st1 st2 Hpass Hrun Hmoved.
  - inversion Hpass; subst. cbn [app map runDetectors]. rewrite Hrun.
    destruct (p0 =? position (tokenizer st2)) eqn:E;
      [apply Z.eqb_eq in E; congruence | reflexivity].
  - inversion Hpass as [| ? ? ? sta ? Hrun_e Hpos Hrest]; subst.
    cbn [app map runDetectors]. rewrite Hrun_e, Z.eqb_refl. cbn [negb].
    rewrite (IH d post sta st1 st2 Hrest Hrun Hmoved). reflexivity.
Qed.

(** When every detector passes, all were invoked and there is no result. *)
Lemma runDetectors_all_pass (ds : list Registered) :
  forall (st st1 : State),
    Passes p0 ds st st1 ->
    runDetectors p0 ds st = (map rid ds, Done None st1).
Proof.
  induction ds as [| e ds IH]; intros st st1 Hpass.
  - inversion Hpass; subst. reflexivity.
  - inversion Hpass as [| ? ? ? sta ? Hrun_e Hpos Hrest]; subst.
    cbn [map runDetectors]. rewrite Hrun_e, Z.eqb_refl. cbn [negb].
    rewrite (IH sta st1 Hrest). reflexivity.
Qed.

(** The last detector of the list decides, whatever it returns. *)
Lemma runDetectors_last (pre : list Registered) :
  forall (d : Registered) (st st1 st2 : State) (r : option FileTypeResult),
    Passes p0 pre st st1 ->
    run d st1 = Done r st2 ->
    runDetectors p0 (pre ++ [d]) st = (map rid pre ++ [rid d], Done r st2).
Proof.
  induction pre as [| e pre IH]; intros d st st1 st2 r Hpass Hrun.
  - inversion Hpass; subst. cbn [app map runDetectors]. rewrite Hrun.
    destruct r as [x |]; [reflexivity |].
    destruct (negb (p0 =? position (tokenizer st2))); reflexivity.
  - inversion Hpass as [| ? ? ? sta ? Hrun_e Hpos Hrest]; subst.
    cbn [app map runDetectors]. rewrite Hrun_e, Z.eqb_refl. cbn [negb].
    rewrite (IH d sta st1 st2 r Hrest Hrun). reflexivity.
Qed.

Lemma Passes_snoc (pre : list Registered) :
  forall (d : Registered) (st st1 st2 : State),
    Passes p0 pre st st1 ->
    run d st1 = Done None st2 ->
    position (tokenizer st2) = p0 ->
    Passes p0 (pre ++ [d]) st st2.
Proof.
  induction pre as [| e pre IH]; intros d st st1 st2 Hpass Hrun Hpos.
  - assert (Est : st1 = st) by (inversion Hpass; reflexivity). subst st1. cbn [app].
    eapply Passes_cons; [exact Hrun | exact Hpos | apply Passes_nil].
  - inversion Hpass as [| ? ? ? sta ? Hrun_e Hpos_e Hrest]. cbn [app].
    eapply Passes_cons; [exact Hrun_e | exact Hpos_e |].
    exact (IH d sta st1 st2 Hrest Hrun Hpos).
Qed.

(** User-supplied detectors that pass on the tokenizer pass as entries of
    the parser, which hands them its tokenizer and keeps its sample buffer. *)
Lemma CustomPass_registered (ds : list Detector) (b : list Z) :
  forall (t t1 : Tokenizer),
    CustomPass p0 ds t t1 ->
    Passes p0 (map registerCustom ds) (mkState t b) (mkState t1 b).
Proof.
  induction ds as [| d ds IH]; intros t t1 Hpass; inversion Hpass; subst; cbn [map].
  - apply Passes_nil.
  - eapply Passes_cons with (st1 := mkState _ b); [| reflexivity | apply IH; eassumption].
    cbn [run registerCustom tokenizer buffer].
    match goal with Hd : detect d t = _ |- _ => rewrite Hd end. reflexivity.
Qed.

End Pipeline.

Lemma rid_registerCustom (ds : list Detector) : map rid (map registerCustom ds) = map id ds.
Proof. rewrite map_map. reflexivity. Qed.

(** C2. The registered detectors are the user-supplied ones, then "core",
    then "core.imprecise", and [fromTokenizer] calls them in that order from
    the position it finds at entry.  A user-supplied detector is handed the
    tokenizer: when the ones before it returned no result without moving the
    tokenizer and it returns a file type, that file type is the result of
    the pipeline and no later detector is invoked; when it returns no result
    and leaves the tokenizer at another position, the pipeline has no result
    and no later detector is invoked.  When every user-supplied detector
    has passed, the same holds for the core detector; and when the core
    detector has passed as well, the outcome of the imprecise detector is
    the outcome of the pipeline, so that the pipeline has no result when
    every detector returned none. *)
Theorem fromTokenizer_runs_detectors_in_order (H : Host) (options : Options)
    (fuel : nat) :
  (detectors H options fuel
   = map registerCustom (customDetectors options)
     ++ [ mkRegistered "core" (detectConfident H options fuel);
          mkRegistered "core.imprecise" (detectImprecise options) ]
   /\ map rid (detectors H options fuel)
      = map id (customDetectors options) ++ ["core"; "core.imprecise"]%string)
  /\ (forall (st : State) (pre : list Detector) (d : Detector) (post : list Detector)
             (t1 t2 : Tokenizer),
         customDetectors options = pre ++ d :: post ->
         CustomPass (position (tokenizer st)) pre (tokenizer st) t1 ->
         (forall r, detect d t1 = Done (Some r) t2 ->
                    fromTokenizerTraced (detectors H options fuel) st
                    = (map id pre ++ [id d], Done (Some r) (mkState t2 (buffer st)))
                    /\ fromTokenizer H options fuel st
                       = Done (Some r) (mkState t2 (buffer st)))
         /\ (detect d t1 = Done None t2 ->
             position t2 <> position (tokenizer st) ->
             fromTokenizerTraced (detectors H options fuel) st
             = (map id pre ++ [id d], Done None (mkState t2 (buffer st)))
             /\ fromTokenizer H options fuel st = Done None (mkState t2 (buffer st))))
  /\ (forall (st : State) (t1 : Tokenizer) (st2 : State),
         CustomPass (position (tokenizer st)) (customDetectors options) (tokenizer st) t1 ->
         (forall r, detectConfident H options fuel (mkState t1 (buffer st)) = Done (Some r) st2 ->
                    fromTokenizerTraced (detectors H options fuel) st
                    = (map id (customDetectors options) ++ ["core"%string],
                       Done (Some r) st2)
                    /\ fromTokenizer H options fuel st = Done (Some r) st2)
         /\ (detectConfident H options fuel (mkState t1 (buffer st)) = Done None st2 ->
             position (tokenizer st2) <> position (tokenizer st) ->
             fromTokenizerTraced (detectors H options fuel) st
             = (map id (customDetectors options) ++ ["core"%string], Done None st2)
             /\ fromTokenizer H options fuel st = Done None st2)
         /\ (detectConfident H options fuel (mkState t1 (buffer st)) = Done None st2 ->
             position (tokenizer st2) = position (tokenizer st) ->
             forall (r : option FileTypeResult) (st3 : State),
               detectImprecise options st2 = Done r st3 ->
               fromTokenizerTraced (detectors H options fuel) st
               = (map id (customDetectors options) ++ ["core"; "core.imprecise"]%string,
                  Done r st3)
               /\ fromTokenizer H options fuel st = Done r st3)).
Proof.
  assert (Hsnd : forall st x,
             fromTokenizerTraced (detectors H options fuel) st = x ->
             fromTokenizer H options fuel st = snd x).
  { intros st x <-. reflexivity. }
  split; [| split].
  - split; [reflexivity |].
    unfold detectors, detectorsWith. rewrite map_app, map_map. reflexivity.
  - intros [t b] pre d post t1 t2 Hsplit Hpass. cbn [tokenizer buffer] in *.
    pose proof (CustomPass_registered (position t) pre b t t1 Hpass) as Hreg.
    assert (Hds : detectors H options fuel
                  = map registerCustom pre
                    ++ registerCustom d
                       :: (map registerCustom post
                           ++ [ mkRegistered "core" (detectConfident H options fuel);
                                mkRegistered "core.imprecise" (detectImprecise options) ])).
    { unfold detectors, detectorsWith. rewrite Hsplit, map_app. cbn [map].
      rewrite <- app_assoc. reflexivity. }
    split.
    + intros r Hdetect.
      assert (E : fromTokenizerTraced (detectors H options fuel) (mkState t b)
                  = (map id pre ++ [id d], Done (Some r) (mkState t2 b))).
      { unfold fromTokenizerTraced. rewrite Hds. cbn [tokenizer].
        rewrite <- rid_registerCustom.
        apply (runDetectors_first_result (position t) _ (registerCustom d) _ _ _ _ r Hreg).
        cbn [run registerCustom tokenizer buffer]. rewrite Hdetect. reflexivity. }
      split; [exact E | exact (Hsnd _ _ E)].
    + intros Hdetect Hmoved.
      assert (E : fromTokenizerTraced (detectors H options fuel) (mkState t b)
                  = (map id pre ++ [id d], Done None (mkState t2 b))).
      { unfold fromTokenizerTraced. rewrite Hds. cbn [tokenizer].
        rewrite <- rid_registerCustom.
        apply (runDetectors_halt (position t) _ (registerCustom d) _ _ _ _ Hreg).
        - cbn [run registerCustom tokenizer buffer]. rewrite Hdetect. reflexivity.
        - exact Hmoved. }
      split; [exact E | exact (Hsnd _ _ E)].
  - intros [t b] t1 st2 Hpass. cbn [tokenizer buffer] in *.
    pose proof (CustomPass_registered (position t) _ b t t1 Hpass) as Hreg.
    split; [| split].
    + intros r Hcore.
      assert (E : fromTokenizerTraced (detectors H options fuel) (mkState t b)
                  = (map id (customDetectors options) ++ ["core"%string],
                     Done (Some r) st2)).
      { unfold fromTokenizerTraced, detectors, detectorsWith. cbn [tokenizer].
        rewrite <- rid_registerCustom.
        exact (runDetectors_first_result (position t) _
                 (mkRegistered "core" (detectConfident H options fuel)) _ _ _ _ r
                 Hreg Hcore). }
      split; [exact E | exact (Hsnd _ _ E)].
    + intros Hcore Hmoved.
      assert (E : fromTokenizerTraced (detectors H options fuel) (mkState t b)
                  = (map id (customDetectors options) ++ ["core"%string], Done None st2)).
      { unfold fromTokenizerTraced, detectors, detectorsWith. cbn [tokenizer].
        rewrite <- rid_registerCustom.
        exact (runDetectors_halt (position t) _
                 (mkRegistered "core" (detectConfident H options fuel)) _ _ _ _
                 Hreg Hcore Hmoved). }
      split; [exact E | exact (Hsnd _ _ E)].
    + intros Hcore Hstays r st3 Himp.
      pose proof (Passes_snoc (position t) _
                    (mkRegistered "core" (detectConfident H options fuel)) _ _ _
                    Hreg Hcore Hstays) as Hboth.
      assert (E : fromTokenizerTraced (detectors H options fuel) (mkState t b)
                  = (map id (customDetectors options) ++ ["core"; "core.imprecise"]%string,
                     Done r st3)).
      { unfold fromTokenizerTraced, detectors, detectorsWith. cbn [tokenizer].
        rewrite <- rid_registerCustom.
        pose proof (runDetectors_last (position t) _
                      (mkRegistered "core.imprecise" (detectImprecise options))
                      _ _ _ r Hboth Himp) as L.
        rewrite map_app, <- !app_assoc in L. cbn [map rid app] in L. exact L. }
      split; [exact E | exact (Hsnd _ _ E)].
Qed.

Lemma fromTokenizer_runs_detectors_in_order_witness :
  (* a user-supplied detector that returns a file type pre-empts the core
     detector, which would have found a bitmap *)
  fromTokenizer Hosts.plain (mkOptions 0 [shrug; alwaysUnicorn]) 2
                (newParser (Tok.fromBuffer [0x42; 0x4d]))
  = Done (Some (mkFileType "unicorn" "application/unicorn"))
         (newParser (Tok.fromBuffer [0x42; 0x4d]))
  /\ fst (fromTokenizerTraced
            (detectors Hosts.plain (mkOptions 0 [shrug; alwaysUnicorn]) 2)
            (newParser (Tok.fromBuffer [0x42; 0x4d])))
     = ["shrug"; "unicorn"]%string
  (* a user-supplied detector that moves the tokenizer and has no result
     ends the run *)
  /\ fromTokenizerTraced
       (detectors Hosts.plain (mkOptions 0 [shrug; positionChanger; alwaysUnicorn]) 2)
       (newParser (Tok.fromBuffer [0x42; 0x4d]))
     = (["shrug"; "positionChanger"]%string,
        Done None (mkState (mkTokenizer [0x42; 0x4d] 1 (Some 2)) freshBuffer))
  (* a user-supplied detector that passes, then the core detector finds a
     bitmap *)
  /\ (exists st2,
         fromTokenizerTraced (detectors Hosts.plain (mkOptions 0 [shrug]) 2)
                             (newParser (Tok.fromBuffer [0x42; 0x4d]))
         = (["shrug"; "core"]%string, Done (Some (mkFileType "bmp" "image/bmp")) st2))
  (* every detector passes *)
  /\ (exists st3,
         fromTokenizerTraced (detectors Hosts.plain (mkOptions 0 [shrug]) 2)
                             (newParser (Tok.fromBuffer (repeat 0 12)))
         = (["shrug"; "core"; "core.imprecise"]%string, Done None st3)).
Proof.
  assert (Hshrug : forall t, CustomPass (position t) [shrug] t t).
  { intros t. eapply CustomPass_cons; [reflexivity | reflexivity | apply CustomPass_nil]. }
  split; [| split; [| split; [| split]]].
  - destruct (fromTokenizer_runs_detectors_in_order Hosts.plain
                (mkOptions 0 [shrug; alwaysUnicorn]) 2) as [_ [Hcustom _]].
    exact (proj2 (proj1 (Hcustom (newParser (Tok.fromBuffer [0x42; 0x4d]))
                           [shrug] alwaysUnicorn [] (Tok.fromBuffer [0x42; 0x4d])
                           (Tok.fromBuffer [0x42; 0x4d]) eq_refl
                           (Hshrug (Tok.fromBuffer [0x42; 0x4d])))
                        (mkFileType "unicorn" "application/unicorn") eq_refl)).
  - destruct (fromTokenizer_runs_detectors_in_order Hosts.plain
                (mkOptions 0 [shrug; alwaysUnicorn]) 2) as [_ [Hcustom _]].
    rewrite (proj1 (proj1 (Hcustom (newParser (Tok.fromBuffer [0x42; 0x4d]))
                             [shrug] alwaysUnicorn [] (Tok.fromBuffer [0x42; 0x4d])
                             (Tok.fromBuffer [0x42; 0x4d]) eq_refl
                             (Hshrug (Tok.fromBuffer [0x42; 0x4d])))
                          (mkFileType "unicorn" "application/unicorn") eq_refl)).
    reflexivity.
  - destruct (fromTokenizer_runs_detectors_in_order Hosts.plain
                (mkOptions 0 [shrug; positionChanger; alwaysUnicorn]) 2)
      as [_ [Hcustom _]].
    refine (proj1 (proj2 (Hcustom (newParser (Tok.fromBuffer [0x42; 0x4d]))
                            [shrug] positionChanger [alwaysUnicorn]
                            (Tok.fromBuffer [0x42; 0x4d])
                            (mkTokenizer [0x42; 0x4d] 1 (Some 2)) eq_refl
                            (Hshrug (Tok.fromBuffer [0x42; 0x4d])))
                         eq_refl _)).
    cbn. discriminate.
  - destruct (fromTokenizer_runs_detectors_in_order Hosts.plain (mkOptions 0 [shrug]) 2)
      as [_ [_ Hcore]].
    destruct (detectConfident Hosts.plain (mkOptions 0 [shrug]) 2
                              (newParser (Tok.fromBuffer [0x42; 0x4d])))
      as [r st2 | e] eqn:E; [| exfalso; vm_compute in E; discriminate].
    assert (Hr : r = Some (mkFileType "bmp" "image/bmp"))
      by (pose proof E as E'; vm_compute in E'; congruence).
    subst r. exists st2.
    exact (proj1 (proj1 (Hcore (newParser (Tok.fromBuffer [0x42; 0x4d]))
                           (Tok.fromBuffer [0x42; 0x4d]) st2
                           (Hshrug (Tok.fromBuffer [0x42; 0x4d])))
                        (mkFileType "bmp" "image/bmp") E)).
  - destruct (fromTokenizer_runs_detectors_in_order Hosts.plain (mkOptions 0 [shrug]) 2)
      as [_ [_ Hcore]].
    destruct (detectConfident Hosts.plain (mkOptions 0 [shrug]) 2
                              (newParser (Tok.fromBuffer (repeat 0 12))))
      as [r st2 | e] eqn:E; [| exfalso; vm_compute in E; discriminate].
    pose proof E as E'. vm_compute in E'.
    assert (Hr : r = None) by congruence. subst r.
    assert (Hpos : position (tokenizer st2)
                   = position (tokenizer (newParser (Tok.fromBuffer (repeat 0 12)))))
      by (injection E' as <-; reflexivity).
    destruct (detectImprecise (mkOptions 0 [shrug]) st2) as [r3 st3 | e] eqn:E3.
    + assert (Hr3 : r3 = None).
      { assert (Est : st2 = mkState (sized (Tok.fromBuffer (repeat 0 12)))
                                    (buffer st2)).
        { injection E' as <-. reflexivity. }
        pose proof E3 as E3'. rewrite Est in E3'.
        injection E' as Eb. rewrite <- Eb in E3'. vm_compute in E3'. congruence. }
      subst r3. exists st3.
      exact (proj1 (proj2 (proj2 (Hcore (newParser (Tok.fromBuffer (repeat 0 12)))
                                    (Tok.fromBuffer (repeat 0 12)) st2
                                    (Hshrug (Tok.fromBuffer (repeat 0 12)))))
                     E Hpos None st3 E3)).
    + exfalso. pose proof E' as E''. injection E'' as Eb.
      rewrite <- Eb in E3. vm_compute in E3. discriminate.
Defined.

(** ** The ID3 arm of the core detector *)

Lemma block_skip (pre rest : list Stmt) (st : State) :
  Forall (fun s : Stmt => s st = Done None st) pre ->
  block (pre ++ rest) st = block rest st.
Proof.
  induction 1 as [| s pre Hs _ IH]; cbn [app block]; [reflexivity |].
  rewrite Hs. exact IH.
Qed.

Lemma remaining_advance (t : Tokenizer) (n : Z) :
  0 <= position t -> 0 <= n ->
  Tok.remaining (Tok.advance t n) = skipn (Z.to_nat n) (Tok.remaining t).
Proof.
  intros Hp Hn. unfold Tok.remaining, Tok.advance. cbn [position data].
  rewrite skipn_skipn. f_equal. lia.
Qed.

Lemma ignore_within (n : Z) (st : State) :
  n <= Z.of_nat (List.length (Tok.remaining (tokenizer st))) ->
  Tok.ignore n st = Done tt (mkState (Tok.advance (tokenizer st) n) (buffer st)).
Proof.
  intros Hn. unfold Tok.ignore.
  destruct (_ <? n) eqn:E; [apply Z.ltb_lt in E; lia | reflexivity].
Qed.

Lemma readBuffer_within (n : nat) (st : State) (bytes rest : list Z) :
  Tok.remaining (tokenizer st) = bytes ++ rest ->
  List.length bytes = n ->
  Tok.readBuffer (Z.of_nat n) st
  = Done bytes (mkState (Tok.advance (tokenizer st) (Z.of_nat n)) (buffer st)).
Proof.
  intros Hrem Hlen. unfold Tok.readBuffer. rewrite Hrem, Nat2Z.id.
  rewrite <- Hlen, firstn_app, Nat.sub_diag, firstn_all, firstn_O, app_nil_r.
  rewrite Z.ltb_irrefl. reflexivity.
Qed.

(** A peek that fits in the sample buffer overwrites its first bytes. *)
Lemma peekBuffer_fits (n : Z) (st : State) :
  (List.length (firstn (Z.to_nat n) (Tok.remaining (tokenizer st)))
   <= List.length (buffer st))%nat ->
  Tok.peekBuffer n st
  = Done tt (mkState (tokenizer st)
               (firstn (Z.to_nat n) (Tok.remaining (tokenizer st))
                ++ skipn (List.length (firstn (Z.to_nat n) (Tok.remaining (tokenizer st))))
                         (buffer st))).
Proof.
  intros Hfits. unfold Tok.peekBuffer. cbv zeta. f_equal. f_equal.
  apply firstn_all2. rewrite length_app, length_skipn. lia.
Qed.

Lemma freshBuffer_length : List.length freshBuffer = 4100%nat.
Proof. unfold freshBuffer. rewrite repeat_length. reflexivity. Qed.

(** One activation of the core detector: the battery, run on the first
    sample of a fresh buffer. *)
Lemma detectConfident_entry (H : Host) (options : Options) (fuel : nat)
    (t : Tokenizer) (buf : list Z) :
  detectConfident H options (S fuel) (mkState t buf)
  = body (confidentStatements H fuel (detectConfident H options fuel)
                              (fromTokenizer H options fuel)) (entryState t).
Proof.
  change (detectConfident H options (S fuel) (mkState t buf))
    with (match Tok.peekBuffer 32 (mkState (sized t) freshBuffer) with
          | Done _ st' =>
              body (confidentStatements H fuel (detectConfident H options fuel)
                                        (fromTokenizer H options fuel)) st'
          | Throw e => Throw e
          end).
  rewrite peekBuffer_fits; [reflexivity |].
  cbn [buffer]. rewrite freshBuffer_length, length_firstn.
  change (Z.to_nat 32) with 32%nat. lia.
Qed.

Lemma id3Arm_spec (H : Host) (pipeline : M (option FileTypeResult)) (t : Tokenizer)
    (v1 v2 fl s0 s1 s2 s3 : Z) (rest : list Z) :
  0 <= position t ->
  Tok.remaining t = 0x49 :: 0x44 :: 0x33 :: v1 :: v2 :: fl :: s0 :: s1 :: s2 :: s3 :: rest ->
  id3Arm pipeline (entryState t) =
  if Tok.fileSize t <? position t + 10 + uint32SyncSafeToken_get [s0; s1; s2; s3] 0
  then Done (Some (Some (mkFileType "mp3" "audio/mpeg"))) (afterId3Header t)
  else match Tok.ignore (uint32SyncSafeToken_get [s0; s1; s2; s3] 0) (afterId3Header t) with
       | Done _ st' =>
           match pipeline st' with
           | Done r st'' => Done (Some r) st''
           | Throw e => Throw e
           end
       | Throw e => Throw e
       end.
Proof.
  intros Hp Hrem.
  assert (Hrem' : Tok.remaining (tokenizer (entryState t)) = 
     0x49 :: 0x44 :: 0x33 :: v1 :: v2 :: fl :: s0 :: s1 :: s2 :: s3 :: rest) by exact Hrem.
  assert (Hcond : str "ID3" (buffer (entryState t)) = true).
  { unfold entryState, sample32. cbn [buffer]. rewrite Hrem. reflexivity. }
  unfold id3Arm, when. rewrite Hcond.
  unfold bind at 1. rewrite ignore_within by (rewrite Hrem'; cbn [List.length]; lia).
  unfold bind at 1.
  rewrite (readBuffer_within 4 _ [s0; s1; s2; s3] rest).
  2:{ cbn [tokenizer]. rewrite remaining_advance by (cbn; lia). rewrite Hrem'. reflexivity. }
  2:{ reflexivity. }
  replace (mkState _ _) with (afterId3Header t).
  2:{ unfold afterId3Header, entryState, Tok.advance, sized. cbn [tokenizer buffer data position size].
      f_equal. f_equal. lia. }
  unfold bind, Tok.getPosition, Tok.getSize.
  change (Tok.fileSize (tokenizer (afterId3Header t))) with (Tok.fileSize t).
  change (position (tokenizer (afterId3Header t))) with (position t + 10).
  destruct (Tok.fileSize t <? _); [reflexivity |].
  destruct (Tok.ignore _ (afterId3Header t)) as [[] st' | e]; [| reflexivity].
  unfold returnOf, bind. destruct (pipeline st'); reflexivity.
Qed.

(** C4, as amended.  When the bytes at the cursor begin with ID3 and the ten
    bytes of the tag header are there, the core detector skips six bytes
    from the cursor, reads the sync-safe length L from the next four bytes,
    and returns mp3 exactly when the position after these ten bytes plus L
    is strictly greater than the file size (an unknown size counting as
    [Number.MAX_SAFE_INTEGER]); otherwise it skips L bytes and its outcome
    is the outcome of the whole pipeline run from there, unchanged. *)
Theorem detectConfident_id3 (H : Host) (options : Options) (fuel : nat)
    (t : Tokenizer) (buf : list Z) (v1 v2 fl s0 s1 s2 s3 : Z) (rest : list Z) :
  0 <= position t ->
  Tok.remaining t = 0x49 :: 0x44 :: 0x33 :: v1 :: v2 :: fl :: s0 :: s1 :: s2 :: s3 :: rest ->
  detectConfident H options (S fuel) (mkState t buf) =
  if Tok.fileSize t <? position t + 10 + uint32SyncSafeToken_get [s0; s1; s2; s3] 0
  then Done (Some (mkFileType "mp3" "audio/mpeg")) (afterId3Header t)
  else match Tok.ignore (uint32SyncSafeToken_get [s0; s1; s2; s3] 0) (afterId3Header t) with
       | Done _ st' => fromTokenizer H options fuel st'
       | Throw e => Throw e
       end.
Proof.
  intros Hp Hrem.
  rewrite detectConfident_entry.
  unfold body, confidentStatements, bind.
  rewrite <- (firstn_skipn 13 (statements32 _ _ _ _)), <- app_assoc.
  rewrite block_skip.
  2:{ cbn [firstn statements32]. unfold entryState, sample32. rewrite Hrem.
      repeat constructor. }
  cbn [skipn statements32 app block].
  rewrite (id3Arm_spec H _ t v1 v2 fl s0 s1 s2 s3 rest Hp Hrem).
  destruct (Tok.fileSize t <? _); [reflexivity |].
  destruct (Tok.ignore _ (afterId3Header t)) as [[] st' | e]; [| reflexivity].
  destruct (fromTokenizer H options fuel st'); reflexivity.
Qed.


(** ** Where the core detector leaves the tokenizer *)

Section Frame.
Variable H : Host.

Lemma found_pure e m : PureS (found e m).
Proof. intros st. eexists. reflexivity. Qed.
Lemma returns_pure v : PureS (returns v).
Proof. intros st. eexists. reflexivity. Qed.
Lemma next_pure : PureS next.
Proof. intros st. eexists. reflexivity. Qed.
Lemma when_pure c s : PureS s -> PureS (when c s).
Proof. intros Hs st. unfold when. destruct (c (buffer st)); [apply Hs | eexists; reflexivity]. Qed.
Lemma sig_pure c e m : PureS (sig c e m).
Proof. apply when_pure, found_pure. Qed.
Lemma block_pure ss : Forall PureS ss -> PureS (block ss).
Proof.
  induction 1 as [| s ss Hs _ IH]; intros st; cbn [block].
  - eexists. reflexivity.
  - destruct (Hs st) as [[v |] E]; rewrite E; [eexists; reflexivity | apply IH].
Qed.
Lemma withBuffer_pure f : (forall b, PureS (f b)) -> PureS (withBuffer f).
Proof. intros Hf st. apply Hf. Qed.
Lemma ite_pure (c : bool) s1 s2 : PureS s1 -> PureS s2 -> PureS (if c then s1 else s2).
Proof. destruct c; auto. Qed.

Lemma pure_quiet s st : PureS s -> Quiet st s.
Proof. intros Hs r st' E _. destruct (Hs st) as [r' E']. congruence. Qed.

Lemma when_false_quiet c s st : c (buffer st) = false -> Quiet st (when c s).
Proof. intros Hc r st' E _. unfold when in E. rewrite Hc in E. congruence. Qed.

Lemma when_decisive_quiet c s st : Decisive s -> Quiet st (when c s).
Proof.
  intros Hs r st' E Hr. unfold when in E. destruct (c (buffer st)).
  - destruct (Hs _ _ _ E) as [x ->]. destruct Hr; discriminate.
  - congruence.
Qed.

Lemma found_decisive e m : Decisive (found e m).
Proof. intros st r st' E. inversion E. eexists. reflexivity. Qed.
Lemma bind_decisive {A} (m : M A) (k : A -> Stmt) :
  (forall a, Decisive (k a)) -> Decisive (bind m k).
Proof.
  intros Hk st r st' E. unfold bind in E.
  destruct (m st) as [a st1 | e]; [| discriminate]. exact (Hk a _ _ _ E).
Qed.
Lemma ite_decisive (c : bool) s1 s2 : Decisive s1 -> Decisive s2 -> Decisive (if c then s1 else s2).
Proof. destruct c; auto. Qed.
Lemma returnOf_decisive (m : M (option FileTypeResult)) :
  (forall st r st', m st = Done r st' -> exists x, r = Some x) -> Decisive (returnOf m).
Proof.
  intros Hm st r st' E. unfold returnOf, bind in E.
  destruct (m st) as [a st1 | e] eqn:Em; [| discriminate].
  destruct (Hm _ _ _ Em) as [x ->]. inversion E. eexists. reflexivity.
Qed.

Lemma block_quiet st ss : Forall (Quiet st) ss -> Quiet st (block ss).
Proof.
  induction 1 as [| s ss Hs _ IH]; intros r st' E Hr; cbn [block] in E.
  - inversion E. reflexivity.
  - destruct (s st) as [[v |] st1 | e] eqn:Es; [| | discriminate].
    + inversion E; subst. apply (Hs _ _ Es). destruct Hr as [Hr | Hr]; [discriminate | right; exact Hr].
    + assert (st1 = st) by (apply (Hs _ _ Es); left; reflexivity). subst st1.
      exact (IH _ _ E Hr).
Qed.

Lemma block_app (a b : list Stmt) (st : State) :
  block (a ++ b) st =
  match block a st with
  | Done None st1 => block b st1
  | Done (Some v) st1 => Done (Some v) st1
  | Throw e => Throw e
  end.
Proof.
  revert st. induction a as [| s a IH]; intros st; cbn [app block].
  - reflexivity.
  - destruct (s st) as [[v |] st1 | e]; [reflexivity | apply IH | reflexivity].
Qed.

(** arms *)
Lemma psArm_quiet st : Quiet st psArm.
Proof.
  apply when_decisive_quiet, bind_decisive. intros _ st1 r st' E.
  cbn [block] in E. unfold sig, when in E.
  destruct ((strAt "PS-Adobe-" 2 &&& strAt " EPSF-" 14)%detect (buffer st1));
    cbn in E; inversion E; eexists; reflexivity.
Qed.

Lemma gzipArm_quiet pipeline st : Quiet st (gzipArm H pipeline).
Proof.
  apply when_decisive_quiet. intros st1 r st' E.
  revert E. cbv beta.
  destruct (inflate H (tokenizer st1)) as [inflated t'].
  destruct (pipeline _) as [[ft |] st2 | e]; [| | discriminate].
  - destruct (String.eqb (ext ft) "tar"); intros E; inversion E; eexists; reflexivity.
  - intros E; inversion E; eexists; reflexivity.
Qed.

Lemma zipArm_quiet st : Quiet st (zipArm H).
Proof.
  apply when_decisive_quiet. intros st1 r st' E.
  revert E. cbv beta.
  destruct (unzip H (tokenizer st1)) as [[fileType t'] |]; [| discriminate].
  intros E. inversion E. eexists. reflexivity.
Qed.

Lemma oggArm_quiet st : Quiet st oggArm.
Proof.
  apply when_decisive_quiet, bind_decisive. intros _. apply bind_decisive. intros type.
  repeat (apply ite_decisive; [apply found_decisive |]). apply found_decisive.
Qed.

Lemma archArm_quiet st : Quiet st (archArm H).
Proof.
  apply when_decisive_quiet, bind_decisive. intros _. apply bind_decisive. intros bytes.
  apply ite_decisive; apply found_decisive.
Qed.

Lemma asfHeaders_some fuel : forall st r st', asfHeaders fuel st = Done r st' -> exists x, r = Some x.
Proof.
  induction fuel as [| f IH]; intros st r st' E; cbn [asfHeaders] in E; [discriminate |].
  unfold bind, Tok.getPosition, Tok.getSize in E.
  destruct (_ <? _); [| inversion E; eexists; reflexivity].
  destruct (Tok.readBuffer 16 st) as [guid st1 | e]; [| discriminate].
  destruct (Tok.readBuffer 8 st1) as [sizeBytes st2 | e]; [| discriminate].
  destruct (_check guid _ None None).
  - destruct (Tok.readBuffer 16 st2) as [typeId st3 | e]; [| discriminate].
    destruct (_check typeId _ None None); [inversion E; eexists; reflexivity |].
    destruct (_check typeId _ None None); inversion E; eexists; reflexivity.
  - destruct (Tok.ignore _ st2) as [[] st3 | e]; [| discriminate].
    exact (IH _ _ _ E).
Qed.

Lemma asfArm_quiet fuel st : Quiet st (asfArm fuel).
Proof.
  apply when_decisive_quiet, bind_decisive. intros _.
  apply returnOf_decisive, asfHeaders_some.
Qed.

Lemma readTiffHeader_none bigEndian st r st' :
  readTiffHeader bigEndian st = Done r st' -> r = None -> st' = st.
Proof.
  unfold readTiffHeader. intros E Hr.
  destruct (_ =? 42).
  - destruct (_ && strAt "CR" 8 _); [inversion E; congruence |].
    destruct (_ && _ && _); [inversion E; congruence |].
    unfold bind in E. destruct (Tok.ignore _ st) as [[] st1 | e]; [| discriminate].
    destruct (readTiffIFD bigEndian st1) as [ft st2 | e]; [| discriminate].
    inversion E. congruence.
  - destruct (_ =? 43); inversion E; congruence.
Qed.

Lemma tiffArm_quiet magic bigEndian st : Quiet st (tiffArm magic bigEndian).
Proof.
  intros r st' E Hr. unfold tiffArm, when in E.
  destruct (chk magic (buffer st)); [| congruence].
  unfold bind in E.
  destruct (readTiffHeader bigEndian st) as [[ft |] st1 | e] eqn:Et; [| | discriminate].
  - inversion E; subst. destruct Hr; discriminate.
  - inversion E; subst. exact (readTiffHeader_none _ _ _ _ Et eq_refl).
Qed.

Lemma dwgArm_pure : PureS (dwgArm H).
Proof.
  apply when_pure, withBuffer_pure. intros b.
  apply ite_pure; [apply found_pure | apply next_pure].
Qed.

Lemma ftypArm_pure : PureS (ftypArm H).
Proof. apply when_pure, withBuffer_pure. intros b. apply returns_pure. Qed.

Lemma asarArm_pure : PureS (asarArm H).
Proof.
  apply when_pure, withBuffer_pure. intros b.
  apply ite_pure; [apply ite_pure; [apply found_pure | apply next_pure] | apply next_pure].
Qed.

Ltac pure_stmt :=
  lazymatch goal with
  | |- PureS (sig _ _ _) => apply sig_pure
  | |- PureS (found _ _) => apply found_pure
  | |- PureS (returns _) => apply returns_pure
  | |- PureS next => apply next_pure
  | |- PureS (dwgArm _) => apply dwgArm_pure
  | |- PureS (ftypArm _) => apply ftypArm_pure
  | |- PureS (asarArm _) => apply asarArm_pure
  | |- PureS (when _ _) => apply when_pure; pure_stmt
  | |- PureS (block _) => apply block_pure; pure_stmt
  | |- Forall PureS (_ :: _) => apply Forall_cons; [pure_stmt | pure_stmt]
  | |- Forall PureS [] => apply Forall_nil
  end.

Lemma bomArm_quiet self st :
  chk [0xef; 0xbb; 0xbf] (buffer st) = false -> Quiet st (bomArm self).
Proof. apply when_false_quiet. Qed.
Lemma id3Arm_quiet pipeline st :
  str "ID3" (buffer st) = false -> Quiet st (id3Arm pipeline).
Proof. apply when_false_quiet. Qed.
Lemma ebmlArm_quiet fuel st :
  chk [0x1a; 0x45; 0xdf; 0xa3] (buffer st) = false -> Quiet st (ebmlArm H fuel).
Proof. apply when_false_quiet. Qed.
Lemma pngArm_quiet fuel st :
  chk [0x89; 0x50; 0x4e; 0x47; 0x0d; 0x0a; 0x1a; 0x0a] (buffer st) = false ->
  Quiet st (pngArm H fuel).
Proof. apply when_false_quiet. Qed.
Lemma jp2Arm_quiet st :
  chk [0x00; 0x00; 0x00; 0x0c; 0x6a; 0x50; 0x20; 0x20; 0x0d; 0x0a; 0x87; 0x0a] (buffer st)
  = false ->
  Quiet st (jp2Arm H).
Proof. apply when_false_quiet. Qed.

Lemma statements32_quiet fuel self pipeline st :
  consumingSignature (buffer st) = false ->
  Forall (Quiet st) (statements32 H fuel self pipeline).
Proof.
  intros Hc. unfold consumingSignature, cor in Hc.
  apply orb_false_elim in Hc. destruct Hc as [Hc Hjp2].
  apply orb_false_elim in Hc. destruct Hc as [Hc Hpng].
  apply orb_false_elim in Hc. destruct Hc as [Hc Hebml].
  apply orb_false_elim in Hc. destruct Hc as [Hbom Hid3].
  unfold statements32.
  repeat
    (apply Forall_cons;
     [ lazymatch goal with
       | |- Quiet _ (bomArm _) => apply bomArm_quiet; exact Hbom
       | |- Quiet _ (id3Arm _) => apply id3Arm_quiet; exact Hid3
       | |- Quiet _ (ebmlArm _ _) => apply ebmlArm_quiet; exact Hebml
       | |- Quiet _ (pngArm _ _) => apply pngArm_quiet; exact Hpng
       | |- Quiet _ (jp2Arm _) => apply jp2Arm_quiet; exact Hjp2
       | |- Quiet _ psArm => apply psArm_quiet
       | |- Quiet _ (gzipArm _ _) => apply gzipArm_quiet
       | |- Quiet _ (zipArm _) => apply zipArm_quiet
       | |- Quiet _ oggArm => apply oggArm_quiet
       | |- Quiet _ (archArm _) => apply archArm_quiet
       | |- Quiet _ (asfArm _) => apply asfArm_quiet
       | |- Quiet _ (tiffArm _ _) => apply tiffArm_quiet
       | |- Quiet _ _ => apply pure_quiet; pure_stmt
       end
     |]).
  apply Forall_nil.
Qed.

Lemma statements256_pure : Forall PureS (statements256 H).
Proof. unfold statements256. pure_stmt. Qed.

Lemma statements512_pure : Forall PureS (statements512 H).
Proof. unfold statements512. pure_stmt. Qed.

Lemma expandSample_tokenizer n st :
  exists b, expandSample n st = Done None (mkState (tokenizer st) b).
Proof. eexists. reflexivity. Qed.

Lemma block_pure_run ss st :
  Forall PureS ss -> exists r, block ss st = Done r st.
Proof. intros Hss. exact (block_pure ss Hss st). Qed.

Lemma confidentStatements_frame fuel self pipeline st r st' :
  consumingSignature (buffer st) = false ->
  block (confidentStatements H fuel self pipeline) st = Done r st' ->
  r = None \/ r = Some None ->
  tokenizer st' = tokenizer st.
Proof.
  intros Hc E Hr. unfold confidentStatements in E.
  rewrite block_app in E.
  pose proof (block_quiet st _ (statements32_quiet fuel self pipeline st Hc)) as Q32.
  destruct (block (statements32 H fuel self pipeline) st) as [[v |] st1 | e] eqn:E32;
    [| | discriminate].
  { inversion E; subst. rewrite (Q32 _ _ E32); [reflexivity |].
    destruct Hr as [Hr | Hr]; [discriminate | right; exact Hr]. }
  assert (st1 = st) by (apply (Q32 _ _ E32); left; reflexivity). subst st1.
  cbn [app block] in E.
  destruct (expandSample_tokenizer 256 st) as [b256 E256]. rewrite E256 in E.
  rewrite block_app in E.
  destruct (block_pure_run (statements256 H) (mkState (tokenizer st) b256) statements256_pure)
    as [r256 R256].
  rewrite R256 in E. destruct r256 as [v |]; [inversion E; reflexivity |].
  cbn [app block] in E.
  destruct (expandSample_tokenizer 512 (mkState (tokenizer st) b256)) as [b512 E512].
  rewrite E512 in E. cbn [tokenizer] in E.
  destruct (block_pure_run (statements512 H) (mkState (tokenizer st) b512) statements512_pure)
    as [r512 R512].
  rewrite R512 in E. inversion E. reflexivity.
Qed.

(** C1, as amended.  When the core detector returns no result and the
    sample at its entry shows none of the signatures of its consuming arms
    (UTF-8 byte order mark, ID3, EBML, PNG, JPEG-2000 signature box), the
    tokenizer is at the position it had at entry. *)
Theorem detectConfident_position_frame (options : Options) (fuel : nat) (st st' : State) :
  detectConfident H options fuel st = Done None st' ->
  consumingSignature (sample32 (tokenizer st)) = false ->
  position (tokenizer st') = position (tokenizer st).
Proof.
  intros E Hc. destruct fuel as [| f]; [discriminate |].
  destruct st as [t buf]. cbn [tokenizer] in *.
  rewrite detectConfident_entry in E.
  unfold body, bind in E.
  destruct (block _ (entryState t)) as [r st1 | e] eqn:Eb; [| discriminate].
  assert (Hst : st1 = st') by (inversion E; reflexivity). subst st1.
  assert (Hr : r = None \/ r = Some None).
  { destruct r as [[x |] |]; [inversion E | right; reflexivity | left; reflexivity]. }
  rewrite (confidentStatements_frame f _ _ (entryState t) r st' Hc Eb Hr).
  reflexivity.
Qed.
(** ** The size of the sample buffer *)

Lemma ks_same {A} (m : M A) :
  (forall st a st', m st = Done a st' -> buffer st' = buffer st) -> KeepsSample m.
Proof. intros Hm st a st' Hlen E. rewrite (Hm _ _ _ E). exact Hlen. Qed.

Lemma ks_ret {A} (a : A) : KeepsSample (ret a).
Proof. apply ks_same. intros st b st' E. inversion E. reflexivity. Qed.

Lemma ks_throw {A} (e : Error) : KeepsSample (@throw A e).
Proof. intros st a st' _ E. discriminate E. Qed.

Lemma ks_bind {A B} (m : M A) (k : A -> M B) :
  KeepsSample m -> (forall a, KeepsSample (k a)) -> KeepsSample (bind m k).
Proof.
  intros Hm Hk st b st' Hlen E. unfold bind in E.
  destruct (m st) as [a st1 | e] eqn:Em; [| discriminate].
  exact (Hk a st1 b st' (Hm _ _ _ Hlen Em) E).
Qed.

Lemma ks_ite {A} (c : bool) (m1 m2 : M A) :
  KeepsSample m1 -> KeepsSample m2 -> KeepsSample (if c then m1 else m2).
Proof. destruct c; auto. Qed.

Lemma ks_when (c : Cond) (s : Stmt) : KeepsSample s -> KeepsSample (when c s).
Proof.
  intros Hs st a st' Hlen E. unfold when in E.
  destruct (c (buffer st)); [exact (Hs _ _ _ Hlen E) | inversion E; subst; exact Hlen].
Qed.

Lemma ks_withBuffer (f : list Z -> Stmt) :
  (forall b, KeepsSample (f b)) -> KeepsSample (withBuffer f).
Proof. intros Hf st a st' Hlen E. exact (Hf (buffer st) st a st' Hlen E). Qed.

Lemma ks_block (ss : list Stmt) : Forall KeepsSample ss -> KeepsSample (block ss).
Proof.
  induction 1 as [| s ss Hs _ IH]; intros st a st' Hlen E; cbn [block] in E.
  - inversion E; subst. exact Hlen.
  - destruct (s st) as [[v |] st1 | e] eqn:Es; [| | discriminate].
    + inversion E; subst. exact (Hs _ _ _ Hlen Es).
    + exact (IH _ _ _ (Hs _ _ _ Hlen Es) E).
Qed.

Lemma ks_body (ss : list Stmt) : Forall KeepsSample ss -> KeepsSample (body ss).
Proof. intros Hss. apply ks_bind; [apply ks_block; exact Hss | intros r; apply ks_ret]. Qed.

Lemma ks_pure (s : Stmt) : PureS s -> KeepsSample s.
Proof.
  intros Hs. apply ks_same. intros st a st' E.
  destruct (Hs st) as [r E']. rewrite E' in E. inversion E. reflexivity.
Qed.

Lemma ks_returnOf (m : M (option FileTypeResult)) : KeepsSample m -> KeepsSample (returnOf m).
Proof. intros Hm. apply ks_bind; [exact Hm | intros r; apply ks_ret]. Qed.

Lemma ks_readBuffer (n : Z) : KeepsSample (Tok.readBuffer n).
Proof.
  apply ks_same. intros st a st' E. unfold Tok.readBuffer in E.
  destruct (_ <? n); [discriminate | inversion E; reflexivity].
Qed.

Lemma ks_ignore (n : Z) : KeepsSample (Tok.ignore n).
Proof.
  apply ks_same. intros st a st' E. unfold Tok.ignore in E.
  destruct (_ <? n); [discriminate | inversion E; reflexivity].
Qed.

Lemma ks_peekUint8 : KeepsSample Tok.peekUint8.
Proof.
  apply ks_same. intros st a st' E. unfold Tok.peekUint8 in E.
  destruct (Tok.remaining (tokenizer st)); [discriminate | inversion E; reflexivity].
Qed.

Lemma ks_getPosition : KeepsSample Tok.getPosition.
Proof. apply ks_same. intros st a st' E. inversion E. reflexivity. Qed.

Lemma ks_getSize : KeepsSample Tok.getSize.
Proof. apply ks_same. intros st a st' E. inversion E. reflexivity. Qed.

Lemma ks_defaultSize : KeepsSample Tok.defaultSize.
Proof. apply ks_same. intros st a st' E. inversion E. reflexivity. Qed.

(** A peek leaves the sample buffer at its length, whatever is asked for. *)
Lemma peekBuffer_length (n : Z) (st : State) (u : unit) (st' : State) :
  Tok.peekBuffer n st = Done u st' ->
  List.length (buffer st') = List.length (buffer st) /\ tokenizer st' = tokenizer st.
Proof.
  unfold Tok.peekBuffer. cbv zeta. intros E. inversion E. cbn [buffer tokenizer].
  split; [| reflexivity].
  rewrite length_firstn, length_app, length_skipn. lia.
Qed.

Lemma ks_peekBuffer (n : Z) : KeepsSample (Tok.peekBuffer n).
Proof.
  intros st a st' Hlen E. rewrite (proj1 (peekBuffer_length n st a st' E)). exact Hlen.
Qed.

Lemma ks_expandSample (n : Z) : KeepsSample (expandSample n).
Proof.
  unfold expandSample, exec. apply ks_bind; [| intros _; apply ks_ret].
  apply ks_bind; [apply ks_getSize | intros size; apply ks_peekBuffer].
Qed.

Ltac ks :=
  lazymatch goal with
  | |- KeepsSample (ret _) => apply ks_ret
  | |- KeepsSample (throw _) => apply ks_throw
  | |- KeepsSample (found _ _) => apply ks_ret
  | |- KeepsSample (returns _) => apply ks_ret
  | |- KeepsSample next => apply ks_ret
  | |- KeepsSample (Tok.readBuffer _) => apply ks_readBuffer
  | |- KeepsSample (Tok.ignore _) => apply ks_ignore
  | |- KeepsSample Tok.peekUint8 => apply ks_peekUint8
  | |- KeepsSample Tok.getPosition => apply ks_getPosition
  | |- KeepsSample Tok.getSize => apply ks_getSize
  | |- KeepsSample Tok.defaultSize => apply ks_defaultSize
  | |- KeepsSample (Tok.peekBuffer _) => apply ks_peekBuffer
  | |- KeepsSample (expandSample _) => apply ks_expandSample
  | |- KeepsSample (bind _ _) => apply ks_bind; [ks | intros ?; ks]
  | |- KeepsSample (returnOf _) => apply ks_returnOf; ks
  | |- KeepsSample (when _ _) => apply ks_when; ks
  | |- KeepsSample (sig _ _ _) => apply ks_when; apply ks_ret
  | |- KeepsSample (withBuffer _) => apply ks_withBuffer; intros ?; ks
  | |- KeepsSample (block _) => apply ks_block; ks
  | |- KeepsSample (body _) => apply ks_body; ks
  | |- KeepsSample (if _ then _ else _) => apply ks_ite; ks
  | |- KeepsSample (match ?x with Some _ => _ | None => _ end) => destruct x; ks
  | |- KeepsSample (let _ := _ in _) => cbv zeta; ks
  | |- Forall KeepsSample (_ :: _) => apply Forall_cons; [ks | ks]
  | |- Forall KeepsSample [] => apply Forall_nil
  | |- KeepsSample _ => assumption
  end.

Lemma ks_readTiffTags be count : KeepsSample (readTiffTags be count).
Proof.
  induction count as [| n IH]; cbn [readTiffTags]; [apply ks_ret |].
  unfold readTiffTag. ks.
Qed.

Lemma ks_readTiffHeader be : KeepsSample (readTiffHeader be).
Proof.
  intros st a st' Hlen E. unfold readTiffHeader in E. cbv zeta in E.
  destruct (_ =? 42).
  - destruct (_ && strAt "CR" 8 _); [inversion E; subst; exact Hlen |].
    destruct (_ && _ && _); [inversion E; subst; exact Hlen |].
    assert (K : KeepsSample
                  (Tok.ignore (Token.UINT32 be (buffer st) 4) ;;;
                   fileType <- readTiffIFD be ;;
                   ret (Some (nullish fileType (mkFileType "tif" "image/tiff"))))%detect).
    { apply ks_bind; [apply ks_ignore | intros _].
      apply ks_bind; [| intros ft; apply ks_ret].
      unfold readTiffIFD. apply ks_bind; [apply ks_readBuffer | intros bytes].
      cbv zeta. apply ks_ite; [apply ks_ret | apply ks_readTiffTags]. }
    exact (K st a st' Hlen E).
  - destruct (_ =? 43); inversion E; subst; exact Hlen.
Qed.

Lemma ks_tiffArm magic be : KeepsSample (tiffArm magic be).
Proof.
  unfold tiffArm. apply ks_when, ks_bind; [apply ks_readTiffHeader | intros ft].
  destruct ft; apply ks_ret.
Qed.

Lemma ks_readField : KeepsSample readField.
Proof. unfold readField. ks. Qed.

Lemma ks_readElement : KeepsSample readElement.
Proof.
  unfold readElement. apply ks_bind; [apply ks_readField | intros idField].
  apply ks_bind; [apply ks_readField | intros lengthField]. cbv zeta. apply ks_ret.
Qed.

Lemma ks_readChildren fuel : forall children, KeepsSample (readChildren H fuel children).
Proof.
  induction fuel as [| f IH]; intros children; cbn [readChildren]; [apply ks_throw |].
  apply ks_ite; [| apply ks_ret].
  apply ks_bind; [apply ks_readElement | intros element].
  assert (Hskip : KeepsSample (Tok.ignore (snd element) ;;; readChildren H f (children - 1))%detect)
    by (apply ks_bind; [apply ks_ignore | intros _; apply IH]).
  assert (Hdoc : KeepsSample
                   (bytes <- Tok.readBuffer (snd element) ;;
                    ret (Some (replaceNulTail (decodeText H "utf8" bytes))))%detect)
    by (apply ks_bind; [apply ks_readBuffer | intros bytes; apply ks_ret]).
  destruct (fst element) as [z |]; [| exact Hskip].
  destruct z as [| p | p]; try exact Hskip.
  repeat (destruct p as [p | p |]; try exact Hskip).
  exact Hdoc.
Qed.

Lemma ks_ebmlArm fuel : KeepsSample (ebmlArm H fuel).
Proof.
  unfold ebmlArm. apply ks_when.
  apply ks_bind; [apply ks_readElement | intros re].
  apply ks_bind; [apply ks_readChildren | intros documentType].
  destruct documentType as [t |]; [| apply ks_ret].
  apply ks_ite; [apply ks_ret | apply ks_ite; apply ks_ret].
Qed.

Lemma ks_oggArm : KeepsSample oggArm.
Proof. unfold oggArm. ks. Qed.

Lemma ks_pngChunks fuel : KeepsSample (pngChunks H fuel).
Proof.
  induction fuel as [| f IH]; cbn [pngChunks]; [apply ks_throw |]. ks.
Qed.

Lemma ks_pngArm fuel : KeepsSample (pngArm H fuel).
Proof.
  unfold pngArm. apply ks_when, ks_bind; [apply ks_ignore | intros _].
  apply ks_returnOf, ks_pngChunks.
Qed.

Lemma ks_asfHeaders fuel : KeepsSample (asfHeaders fuel).
Proof.
  induction fuel as [| f IH]; cbn [asfHeaders]; [apply ks_throw |]. ks.
Qed.

Lemma ks_asfArm fuel : KeepsSample (asfArm fuel).
Proof.
  unfold asfArm. apply ks_when, ks_bind; [apply ks_ignore | intros _].
  apply ks_returnOf, ks_asfHeaders.
Qed.

Lemma ks_jp2Arm : KeepsSample (jp2Arm H).
Proof. unfold jp2Arm. ks. Qed.

Lemma ks_archArm : KeepsSample (archArm H).
Proof. unfold archArm. ks. Qed.

Lemma ks_psArm : KeepsSample psArm.
Proof. unfold psArm. ks. Qed.

Lemma ks_bomArm self : KeepsSample self -> KeepsSample (bomArm self).
Proof. intros Hself. unfold bomArm. ks. Qed.

Lemma ks_id3Arm pipeline : KeepsSample pipeline -> KeepsSample (id3Arm pipeline).
Proof. intros Hp. unfold id3Arm. ks. Qed.

Lemma ks_gzipArm pipeline : KeepsSample pipeline -> KeepsSample (gzipArm H pipeline).
Proof.
  intros Hp. unfold gzipArm. apply ks_when. intros st a st' Hlen. cbv beta.
  destruct (inflate H (tokenizer st)) as [inflated t'].
  destruct (pipeline _) as [ft st2 | e] eqn:Ep; [| discriminate].
  pose proof (Hp (mkState (Tok.fromStream inflated) (buffer st)) _ _ Hlen Ep) as Hlen2.
  destruct ft as [ft |]; [destruct (String.eqb (ext ft) "tar") |];
    intros E; inversion E; subst; exact Hlen2.
Qed.

Lemma ks_zipArm : KeepsSample (zipArm H).
Proof.
  unfold zipArm. apply ks_when. intros st a st' Hlen. cbv beta.
  destruct (unzip H (tokenizer st)) as [[fileType t'] |]; [| discriminate].
  intros E. inversion E; subst. exact Hlen.
Qed.

Lemma ks_statements32 fuel self pipeline :
  KeepsSample self -> KeepsSample pipeline ->
  Forall KeepsSample (statements32 H fuel self pipeline).
Proof.
  intros Hself Hp. unfold statements32.
  repeat
    (apply Forall_cons;
     [ lazymatch goal with
       | |- KeepsSample (bomArm _) => apply ks_bomArm; exact Hself
       | |- KeepsSample (id3Arm _) => apply ks_id3Arm; exact Hp
       | |- KeepsSample (gzipArm _ _) => apply ks_gzipArm; exact Hp
       | |- KeepsSample (ebmlArm _ _) => apply ks_ebmlArm
       | |- KeepsSample (pngArm _ _) => apply ks_pngArm
       | |- KeepsSample (jp2Arm _) => apply ks_jp2Arm
       | |- KeepsSample psArm => apply ks_psArm
       | |- KeepsSample (zipArm _) => apply ks_zipArm
       | |- KeepsSample oggArm => apply ks_oggArm
       | |- KeepsSample (archArm _) => apply ks_archArm
       | |- KeepsSample (asfArm _) => apply ks_asfArm
       | |- KeepsSample (tiffArm _ _) => apply ks_tiffArm
       | |- KeepsSample _ => apply ks_pure; pure_stmt
       end
     |]).
  apply Forall_nil.
Qed.

Lemma ks_confidentStatements fuel self pipeline :
  KeepsSample self -> KeepsSample pipeline ->
  Forall KeepsSample (confidentStatements H fuel self pipeline).
Proof.
  intros Hself Hp. unfold confidentStatements.
  apply Forall_app. split; [apply ks_statements32; assumption |].
  apply Forall_cons; [apply ks_expandSample |].
  apply Forall_app. split.
  { eapply Forall_impl; [| apply statements256_pure]. intros s. apply ks_pure. }
  apply Forall_cons; [apply ks_expandSample |].
  eapply Forall_impl; [| apply statements512_pure]. intros s. apply ks_pure.
Qed.

Lemma ks_detectImprecise options : KeepsSample (detectImprecise options).
Proof.
  unfold detectImprecise. apply ks_bind; [apply ks_defaultSize | intros _].
  apply ks_body.
  repeat (apply Forall_cons;
          [first [ apply ks_expandSample | apply ks_when; apply ks_ret | idtac ] |]);
    [| apply Forall_nil].
  apply ks_withBuffer. intros b.
  apply ks_ite; [| apply ks_ret].
  destruct (scanDepths b 0 _); apply ks_ret.
Qed.

Lemma ks_registerCustom (d : Detector) : KeepsSample (run (registerCustom d)).
Proof.
  apply ks_same. intros st a st' E. cbn [run registerCustom] in E.
  destruct (detect d (tokenizer st)); [inversion E; reflexivity | discriminate].
Qed.

Lemma ks_runDetectors (p0 : Z) (ds : list Registered) :
  Forall (fun d => KeepsSample (run d)) ds ->
  KeepsSample (fun st => snd (runDetectors p0 ds st)).
Proof.
  induction 1 as [| d ds Hd _ IH]; intros st a st' Hlen E; cbn [runDetectors] in E.
  - inversion E; subst. exact Hlen.
  - destruct (run d st) as [[ft |] st1 | e] eqn:Ed; cbn [snd] in E.
    + inversion E; subst. exact (Hd _ _ _ Hlen Ed).
    + destruct (negb (p0 =? position (tokenizer st1))); cbn [snd] in E.
      * inversion E; subst. exact (Hd _ _ _ Hlen Ed).
      * destruct (runDetectors p0 ds st1) as [invoked outcome] eqn:Er.
        cbn [snd] in E. apply (IH st1 a st' (Hd _ _ _ Hlen Ed)).
        rewrite Er. exact E.
    + discriminate.
Qed.

Lemma ks_fromTokenizerWith options core :
  KeepsSample core -> KeepsSample (fromTokenizerWith options core).
Proof.
  intros Hcore st a st' Hlen E. unfold fromTokenizerWith, fromTokenizerTraced in E.
  refine (ks_runDetectors (position (tokenizer st)) (detectorsWith options core) _
            st a st' Hlen E).
  unfold detectorsWith. apply Forall_app. split.
  - apply Forall_forall. intros r Hin. apply in_map_iff in Hin.
    destruct Hin as [d [<- _]]. apply ks_registerCustom.
  - repeat constructor; cbn [run]; [exact Hcore | apply ks_detectImprecise].
Qed.

(** The core detector ends with a sample buffer of the detection size,
    whatever buffer the parser had before. *)
Lemma detectConfident_sample options fuel st r st' :
  detectConfident H options fuel st = Done r st' ->
  List.length (buffer st') = List.length freshBuffer.
Proof.
  revert st r st'. induction fuel as [| f IH]; intros st r st' E; [discriminate |].
  assert (Hself : KeepsSample (detectConfident H options f))
    by (intros s a s' _ Es; exact (IH _ _ _ Es)).
  destruct st as [t buf]. rewrite detectConfident_entry in E.
  refine (ks_body _ (ks_confidentStatements f _ _ Hself
                       (ks_fromTokenizerWith options _ Hself)) (entryState t) r st' _ E).
  unfold entryState, sample32. cbn [buffer].
  rewrite length_app, length_skipn, !length_firstn, freshBuffer_length. lia.
Qed.

End Frame.


Lemma detectConfident_position_frame_witness :
  consumingSignature (sample32 (tokenizer (newParser (Tok.fromBuffer syncAtTen)))) = false
  /\ resultOf (detectConfident Hosts.plain Hosts.defaults 1
                               (newParser (Tok.fromBuffer syncAtTen)))
     = Some None
  /\ positionAfter (detectConfident Hosts.plain Hosts.defaults 1
                                    (newParser (Tok.fromBuffer syncAtTen)))
     = Some (position (tokenizer (newParser (Tok.fromBuffer syncAtTen)))).
Proof.
  assert (Hc : consumingSignature
                 (sample32 (tokenizer (newParser (Tok.fromBuffer syncAtTen)))) = false)
    by (vm_compute; reflexivity).
  split; [exact Hc |].
  destruct (detectConfident Hosts.plain Hosts.defaults 1
                            (newParser (Tok.fromBuffer syncAtTen)))
    as [r st' | e] eqn:E.
  - assert (Hr : r = None).
    { pose proof E as E'. vm_compute in E'. congruence. }
    subst r. split; [reflexivity |]. cbn [positionAfter]. f_equal.
    exact (detectConfident_position_frame Hosts.plain Hosts.defaults 1 _ st' E Hc).
  - exfalso. vm_compute in E. discriminate.
Defined.

(** C1, the claim as stated fails: the EBML arm has read the five bytes of
    an empty root element when it returns no result, and the JPEG-2000 arm
    has read 24 bytes when the brand is unknown to it. *)
Lemma detectConfident_moves_counterexample :
  position (tokenizer (newParser (Tok.fromBuffer ebmlEmpty))) = 0
  /\ resultOf (detectConfident Hosts.plain Hosts.defaults 2
                               (newParser (Tok.fromBuffer ebmlEmpty))) = Some None
  /\ positionAfter (detectConfident Hosts.plain Hosts.defaults 2
                                    (newParser (Tok.fromBuffer ebmlEmpty))) = Some 5
  /\ position (tokenizer (newParser (Tok.fromBuffer jp2UnknownBrand))) = 0
  /\ resultOf (detectConfident Hosts.plain Hosts.defaults 2
                               (newParser (Tok.fromBuffer jp2UnknownBrand))) = Some None
  /\ positionAfter (detectConfident Hosts.plain Hosts.defaults 2
                                    (newParser (Tok.fromBuffer jp2UnknownBrand))) = Some 24.
Proof.
  split; [reflexivity |].
  split; [vm_compute; reflexivity |].
  split; [vm_compute; reflexivity |].
  split; [reflexivity |].
  split; vm_compute; reflexivity.
Qed.

Lemma detectConfident_id3_witness :
  (0 <= position (Tok.fromBuffer id3BeforeFlac)
   /\ Tok.remaining (Tok.fromBuffer id3BeforeFlac)
      = 0x49 :: 0x44 :: 0x33 :: 3 :: 0 :: 0 :: 0 :: 0 :: 0 :: 2
        :: [0; 0; 0x66; 0x4c; 0x61; 0x43])
  /\ resultOf (detectConfident Hosts.plain Hosts.defaults 3
                               (newParser (Tok.fromBuffer id3BeforeFlac)))
     = Some (Some (mkFileType "flac" "audio/flac"))
  /\ resultOf (detectConfident Hosts.plain Hosts.defaults 3
                               (newParser (Tok.fromBuffer (firstn 11 id3BeforeFlac))))
     = Some (Some (mkFileType "mp3" "audio/mpeg")).
Proof.
  split; [split; [simpl; lia | reflexivity] |].
  split.
  - unfold newParser.
    rewrite (detectConfident_id3 Hosts.plain Hosts.defaults 2
               (Tok.fromBuffer id3BeforeFlac) freshBuffer 3 0 0 0 0 0 2
               [0; 0; 0x66; 0x4c; 0x61; 0x43] ltac:(simpl; lia) eq_refl).
    vm_compute. reflexivity.
  - unfold newParser.
    rewrite (detectConfident_id3 Hosts.plain Hosts.defaults 2
               (Tok.fromBuffer (firstn 11 id3BeforeFlac)) freshBuffer 3 0 0 0 0 0 2
               [0] ltac:(simpl; lia) eq_refl).
    vm_compute. reflexivity.
Defined.

(** C4, the claim as stated fails: when the tag ends exactly at the end of
    the file, position plus L equals the file size, and the detector does
    not return mp3 but skips the tag and runs the pipeline at the end of the
    file, which finds nothing. *)
Lemma detectConfident_id3_exact_fit_counterexample :
  Tok.remaining (Tok.fromBuffer id3ExactFit)
  = 0x49 :: 0x44 :: 0x33 :: 3 :: 0 :: 0 :: 0 :: 0 :: 0 :: 2 :: [0x42; 0x4d]
  /\ position (Tok.fromBuffer id3ExactFit) + 10 + uint32SyncSafeToken_get [0; 0; 0; 2] 0
     >= Tok.fileSize (Tok.fromBuffer id3ExactFit)
  /\ resultOf (detectConfident Hosts.plain Hosts.defaults 3
                               (newParser (Tok.fromBuffer id3ExactFit)))
     = Some None.
Proof.
  split; [reflexivity |].
  split; [vm_compute; discriminate |].
  vm_compute. reflexivity.
Qed.

(** ** The imprecise detector and the MPEG frame scan *)

Lemma checkFrom_ext (b1 b2 : list Z) (offset : Z) (mask : option (list Z))
    (headers : list Z) :
  forall index : Z,
    (forall i, index <= i < index + Z.of_nat (List.length headers) ->
               get b1 (i + offset) = get b2 (i + offset)) ->
    checkFrom b1 offset mask index headers = checkFrom b2 offset mask index headers.
Proof.
  induction headers as [| h rest IH]; intros index Hext; cbn [checkFrom]; [reflexivity |].
  cbn [List.length] in Hext.
  rewrite (Hext index) by lia.
  rewrite (IH (index + 1)) by (intros i Hi; apply Hext; lia).
  reflexivity.
Qed.

Lemma get_prefix (input tail : list Z) (n : nat) (i : Z) :
  0 <= i < Z.of_nat n -> (n <= List.length input)%nat ->
  get (firstn n input ++ tail) i = get input i.
Proof.
  intros Hi Hn. unfold get.
  destruct (i <? 0) eqn:E; [apply Z.ltb_lt in E; lia |].
  rewrite nth_error_app1 by (rewrite length_firstn; lia).
  rewrite nth_error_firstn.
  destruct (Z.to_nat i <? n)%nat eqn:L; [reflexivity | apply Nat.ltb_ge in L; lia].
Qed.

Lemma check_prefix (header : list Z) (offset : Z) (mask : option (list Z))
    (input tail : list Z) (n : nat) :
  0 <= offset -> offset + Z.of_nat (List.length header) <= Z.of_nat n ->
  (n <= List.length input)%nat ->
  check header (Some offset) mask (firstn n input ++ tail) = check header (Some offset) mask input.
Proof.
  intros Ho Hn Hlen. unfold check, _check. apply checkFrom_ext.
  intros i Hi. apply get_prefix; [cbn [nullish]; lia | exact Hlen].
Qed.

Lemma chk_prefix (header : list Z) (input tail : list Z) (n : nat) :
  Z.of_nat (List.length header) <= Z.of_nat n -> (n <= List.length input)%nat ->
  chk header (firstn n input ++ tail) = chk header input.
Proof.
  intros Hn Hlen. exact (check_prefix header 0 None input tail n ltac:(lia) ltac:(lia) Hlen).
Qed.

Lemma scanMpeg_prefix (d : Z) (input tail : list Z) (n : nat) :
  0 <= d -> d + 2 <= Z.of_nat n -> (n <= List.length input)%nat ->
  scanMpeg d (firstn n input ++ tail) = scanMpeg d input.
Proof.
  intros Hd Hn Hlen. unfold scanMpeg.
  rewrite !check_prefix by (cbn [List.length]; lia). reflexivity.
Qed.

Lemma scanDepths_prefix (input tail : list Z) (n : nat) (count : nat) :
  forall d, 0 <= d -> d + Z.of_nat count + 1 <= Z.of_nat n -> (n <= List.length input)%nat ->
  scanDepths (firstn n input ++ tail) d count = scanDepths input d count.
Proof.
  induction count as [| c IH]; intros d Hd Hn Hlen; cbn [scanDepths]; [reflexivity |].
  rewrite scanMpeg_prefix by lia. rewrite IH by lia. reflexivity.
Qed.

Lemma scanDepths_none (input : list Z) (count : nat) :
  forall d, (forall k, d <= k < d + Z.of_nat count -> scanMpeg k input = None) ->
  scanDepths input d count = None.
Proof.
  induction count as [| c IH]; intros d Hnone; cbn [scanDepths]; [reflexivity |].
  rewrite Hnone by lia. apply IH. intros k Hk. apply Hnone. lia.
Qed.

Lemma scanDepths_first (input : list Z) (count : nat) (r : FileTypeResult) :
  forall d, (forall k, d <= k < d + Z.of_nat count -> scanMpeg k input = None) ->
  scanMpeg (d + Z.of_nat count) input = Some r ->
  scanDepths input d (S count) = Some r.
Proof.
  induction count as [| c IH]; intros d Hnone Hhit.
  - cbn [scanDepths]. rewrite Z.add_0_r in Hhit. rewrite Hhit. reflexivity.
  - cbn [scanDepths]. rewrite Hnone by lia.
    apply (IH (d + 1)).
    + intros k Hk. apply Hnone. lia.
    + replace (d + 1 + Z.of_nat c) with (d + Z.of_nat (S c)) by lia. exact Hhit.
Qed.

Lemma bitAnd_comm (a b : Z) : bitAnd a b = bitAnd b a.
Proof. unfold bitAnd. apply Z.land_comm. Qed.

Lemma get_nth (input : list Z) (i : nat) :
  (i < List.length input)%nat -> get input (Z.of_nat i) = Some (nth i input 0).
Proof.
  intros Hi. unfold get. destruct (Z.of_nat i <? 0) eqn:E; [apply Z.ltb_lt in E; lia |].
  rewrite Nat2Z.id. apply nth_error_nth'. exact Hi.
Qed.

Lemma scanMpeg_layer3 (input : list Z) (b : Z) :
  (12 <= List.length input)%nat ->
  nth 10 input 0 = 0xFF -> nth 11 input 0 = b ->
  bitAnd b 0xE0 = 0xE0 -> bitAnd b 0x16 <> 0x10 -> bitAnd b 0x06 = 0x02 ->
  scanMpeg 10 input = Some mp3.
Proof.
  intros Hlen H10 H11 Hsync Hadts Hlayer.
  pose proof (get_nth input 10 ltac:(lia)) as G10. rewrite H10 in G10.
  pose proof (get_nth input 11 ltac:(lia)) as G11. rewrite H11 in G11.
  change (Z.of_nat 10) with 10 in G10. change (Z.of_nat 11) with 11 in G11.
  unfold scanMpeg, check, _check. cbn [checkFrom nullish].
  change (0 + 10) with 10. change (0 + 1 + 10) with 11. change (0 + (10 + 1)) with 11.
  rewrite G10, G11. cbn [nullish].
  change (get [255; 224] 0) with (Some 255). change (get [255; 224] (0 + 1)) with (Some 224).
  change (get [22] 0) with (Some 22). change (get [6] 0) with (Some 6).
  cbn [nullish].
  change (255 =? bitAnd 255 255) with true. cbn [negb].
  rewrite (bitAnd_comm 224 b), Hsync. change (224 =? 224) with true. cbn [negb].
  rewrite (bitAnd_comm 22 b), (bitAnd_comm 6 b), Hlayer.
  destruct (16 =? bitAnd b 22) eqn:E; [apply Z.eqb_eq in E; congruence |].
  cbn [negb]. reflexivity.
Qed.

Lemma sig_false (c : Cond) (e m : string) (st : State) :
  c (buffer st) = false -> sig c e m st = Done None st.
Proof. intros Hc. unfold sig, when. rewrite Hc. reflexivity. Qed.

Lemma expandSample_fromBuffer (n : nat) (input b1 : list Z) :
  (n <= List.length input)%nat -> (n <= List.length b1)%nat ->
  expandSample (Z.of_nat n) (mkState (Tok.fromBuffer input) b1)
  = Done None (mkState (Tok.fromBuffer input) (firstn n input ++ skipn n b1)).
Proof.
  intros Hn Hb. unfold expandSample, exec, bind, Tok.getSize, Tok.peekBuffer, next, ret.
  cbn [tokenizer buffer]. unfold Tok.fileSize, Tok.fromBuffer. cbn [size nullish].
  rewrite Z.min_l by lia. rewrite Nat2Z.id.
  unfold Tok.remaining. cbn [position data Z.to_nat skipn].
  rewrite length_firstn, Nat.min_l by lia.
  rewrite (firstn_all2 (firstn n input ++ skipn n b1))
    by (rewrite length_app, length_firstn, length_skipn; lia).
  reflexivity.
Qed.

Lemma detectImprecise_scan (tol : Z) (input b1 : list Z) :
  0 <= tol <= 10 -> (12 <= List.length input)%nat ->
  (12 <= List.length b1)%nat ->
  impreciseSignature input = false ->
  (forall d, 0 <= d < 10 -> scanMpeg d input = None) ->
  scanMpeg 10 input = Some mp3 ->
  exists b2,
    detectImprecise (mkOptions tol []) (mkState (Tok.fromBuffer input) b1)
    = Done (if tol <? 10 then None else Some mp3) (mkState (Tok.fromBuffer input) b2).
Proof.
  intros Htol Hlen Hb1 Hsig Hnone Hhit.
  unfold impreciseSignature, cor in Hsig.
  apply orb_false_elim in Hsig. destruct Hsig as [Hsig Hcur].
  apply orb_false_elim in Hsig. destruct Hsig as [Hsig Hico].
  apply orb_false_elim in Hsig. destruct Hsig as [Hsig Httf].
  assert (Hmpg : cor (chk [0x0; 0x0; 0x1; 0xba]) (chk [0x0; 0x0; 0x1; 0xb3]) input = false)
    by exact Hsig.
  unfold detectImprecise, body, bind.
  change (Tok.defaultSize (mkState (Tok.fromBuffer input) b1))
    with (@Done State unit tt (mkState (Tok.fromBuffer input) b1)).
  cbn [block].
  change 8 with (Z.of_nat 8). rewrite expandSample_fromBuffer by lia.
  set (b8 := firstn 8 input ++ skipn 8 b1).
  assert (Hb8 : (12 <= List.length b8)%nat)
    by (unfold b8; rewrite length_app, length_firstn, length_skipn; lia).
  rewrite sig_false.
  2:{ unfold cor in *. cbn [buffer]. unfold b8. rewrite !chk_prefix by (cbn [List.length]; lia). exact Hmpg. }
  rewrite sig_false by (cbn [buffer]; unfold b8; rewrite chk_prefix by (cbn [List.length]; lia); exact Httf).
  rewrite sig_false by (cbn [buffer]; unfold b8; rewrite chk_prefix by (cbn [List.length]; lia); exact Hico).
  rewrite sig_false by (cbn [buffer]; unfold b8; rewrite chk_prefix by (cbn [List.length]; lia); exact Hcur).
  cbn [mpegOffsetTolerance].
  replace (2 + tol) with (Z.of_nat (Z.to_nat (2 + tol))) by lia.
  rewrite expandSample_fromBuffer by lia.
  set (n := Z.to_nat (2 + tol)).
  unfold withBuffer. cbn [buffer].
  assert (Hb : (Z.of_nat n <=? Z.of_nat (List.length (firstn n input ++ skipn n b8))) = true).
  { apply Z.leb_le. rewrite length_app, length_firstn, Nat.min_l by lia. lia. }
  rewrite Hb.
  rewrite scanDepths_prefix by lia.
  exists (firstn n input ++ skipn n b8).
  destruct (tol <? 10) eqn:E.
  - apply Z.ltb_lt in E. rewrite scanDepths_none; [reflexivity |].
    intros k Hk. apply Hnone. lia.
  - apply Z.ltb_ge in E. replace tol with 10 by lia.
    change (Z.to_nat (10 + 1)) with 11%nat.
    rewrite (scanDepths_first input 10 mp3 0); [reflexivity | |].
    + intros k Hk. apply Hnone. lia.
    + exact Hhit.
Qed.

(** C7, as amended.  Take an input on which the core detector returns no
    result and leaves the tokenizer as it was, whose first bytes match none
    of the fixed signatures of the imprecise detector, which has no MPEG
    frame sync at the offsets 0 to 9, and which carries at offset 10 a
    layer-3 frame sync (0xFF, then a byte b with (b & 0xE0) = 0xE0,
    (b & 0x16) <> 0x10 and (b & 0x06) = 0x02).  Detection of that buffer
    without custom detectors returns "unknown" for every tolerance from 0
    (the default) to 9 and mp3 for the tolerance 10. *)
Theorem mpeg_sync_at_ten (H : Host) (fuel : nat) (tol : Z) (input : list Z)
    (st1 : State) (b : Z) :
  0 <= tol <= 10 ->
  detectConfident H (mkOptions tol []) fuel (newParser (Tok.fromBuffer input))
  = Done None st1 ->
  tokenizer st1 = Tok.fromBuffer input ->
  impreciseSignature input = false ->
  (forall d, 0 <= d < 10 -> scanMpeg d input = None) ->
  (12 <= List.length input)%nat ->
  nth 10 input 0 = 0xFF -> nth 11 input 0 = b ->
  bitAnd b 0xE0 = 0xE0 -> bitAnd b 0x16 <> 0x10 -> bitAnd b 0x06 = 0x02 ->
  resultOf (fromBuffer H (mkOptions tol []) fuel input)
  = Some (if tol <? 10 then None else Some mp3).
Proof.
  intros Htol Hcore Htok Hsig Hnone Hlen H10 H11 Hsync Hadts Hlayer.
  pose proof (scanMpeg_layer3 input b Hlen H10 H11 Hsync Hadts Hlayer) as Hhit.
  destruct st1 as [t1 b1]. cbn [tokenizer] in Htok. subst t1.
  assert (Hb1 : (12 <= List.length b1)%nat).
  { pose proof (detectConfident_sample H (mkOptions tol []) fuel _ _ _ Hcore) as Hsample.
    cbn [buffer] in Hsample. rewrite Hsample, freshBuffer_length. lia. }
  destruct (detectImprecise_scan tol input b1 Htol Hlen Hb1 Hsig Hnone Hhit) as [b2 Himp].
  unfold fromBuffer, fromBufferTraced.
  destruct (1 <? Z.of_nat (List.length input)) eqn:E; [| apply Z.ltb_ge in E; lia].
  cbn [negb]. unfold fromTokenizerTraced, detectors, detectorsWith.
  cbn [customDetectors map app runDetectors run rid].
  rewrite Hcore. cbn [tokenizer position Tok.fromBuffer newParser].
  change (0 =? 0) with true. cbn [negb].
  rewrite Himp. destruct (tol <? 10); reflexivity.
Qed.

Lemma mpeg_sync_at_ten_witness :
  (impreciseSignature syncAtTen = false
   /\ nth 10 syncAtTen 0 = 0xFF
   /\ bitAnd (nth 11 syncAtTen 0) 0xE0 = 0xE0
   /\ bitAnd (nth 11 syncAtTen 0) 0x16 <> 0x10
   /\ bitAnd (nth 11 syncAtTen 0) 0x06 = 0x02)
  /\ resultOf (fromBuffer Hosts.plain (mkOptions 0 []) 1 syncAtTen) = Some None
  /\ resultOf (fromBuffer Hosts.plain (mkOptions 10 []) 1 syncAtTen) = Some (Some mp3).
Proof.
  assert (Hsig : impreciseSignature syncAtTen = false) by (vm_compute; reflexivity).
  assert (Hsync : bitAnd (nth 11 syncAtTen 0) 0xE0 = 0xE0) by (vm_compute; reflexivity).
  assert (Hadts : bitAnd (nth 11 syncAtTen 0) 0x16 <> 0x10) by (vm_compute; discriminate).
  assert (Hlayer : bitAnd (nth 11 syncAtTen 0) 0x06 = 0x02) by (vm_compute; reflexivity).
  assert (Hnone : forall d, 0 <= d < 10 -> scanMpeg d syncAtTen = None).
  { intros d Hd.
    assert (Hcases : d = 0 \/ d = 1 \/ d = 2 \/ d = 3 \/ d = 4 \/ d = 5 \/ d = 6
                     \/ d = 7 \/ d = 8 \/ d = 9) by lia.
    repeat (destruct Hcases as [-> | Hcases]; [vm_compute; reflexivity |]).
    subst d. vm_compute. reflexivity. }
  assert (Hlen : (12 <= List.length syncAtTen)%nat) by (vm_compute; lia).
  split; [repeat split; assumption || reflexivity |].
  split.
  - destruct (detectConfident Hosts.plain (mkOptions 0 []) 1
                              (newParser (Tok.fromBuffer syncAtTen)))
      as [r st1 | e] eqn:E.
    + pose proof E as E'. vm_compute in E'.
      assert (Hr : r = None) by congruence. subst r.
      assert (Htok : tokenizer st1 = Tok.fromBuffer syncAtTen)
        by (injection E' as <-; reflexivity).
      exact (mpeg_sync_at_ten Hosts.plain 1 0 syncAtTen st1 (nth 11 syncAtTen 0)
               ltac:(lia) E Htok Hsig Hnone Hlen eq_refl eq_refl Hsync Hadts Hlayer).
    + exfalso. vm_compute in E. discriminate.
  - destruct (detectConfident Hosts.plain (mkOptions 10 []) 1
                              (newParser (Tok.fromBuffer syncAtTen)))
      as [r st1 | e] eqn:E.
    + pose proof E as E'. vm_compute in E'.
      assert (Hr : r = None) by congruence. subst r.
      assert (Htok : tokenizer st1 = Tok.fromBuffer syncAtTen)
        by (injection E' as <-; reflexivity).
      exact (mpeg_sync_at_ten Hosts.plain 1 10 syncAtTen st1 (nth 11 syncAtTen 0)
               ltac:(lia) E Htok Hsig Hnone Hlen eq_refl eq_refl Hsync Hadts Hlayer).
    + exfalso. vm_compute in E. discriminate.
Defined.

(** C7, the claim as stated fails: an input may begin with ten zero bytes
    and carry the layer-3 frame sync at offset 10 and still be claimed by an
    earlier arm that looks further into the sample; with [acsp] at offset 36
    the core detector returns icc, for the default tolerance and for the
    tolerance 10 alike. *)
Lemma mpeg_sync_at_ten_counterexample :
  firstn 10 syncAtTenInProfile = repeat 0 10
  /\ nth 10 syncAtTenInProfile 0 = 0xFF
  /\ bitAnd (nth 11 syncAtTenInProfile 0) 0xE0 = 0xE0
  /\ bitAnd (nth 11 syncAtTenInProfile 0) 0x16 <> 0x10
  /\ bitAnd (nth 11 syncAtTenInProfile 0) 0x06 = 0x02
  /\ resultOf (fromBuffer Hosts.plain (mkOptions 0 []) 1 syncAtTenInProfile)
     = Some (Some (mkFileType "icc" "application/vnd.iccprofile"))
  /\ resultOf (fromBuffer Hosts.plain (mkOptions 10 []) 1 syncAtTenInProfile)
     = Some (Some (mkFileType "icc" "application/vnd.iccprofile")).
Proof.
  split; [reflexivity |].
  split; [reflexivity |].
  split; [vm_compute; reflexivity |].
  split; [vm_compute; discriminate |].
  split; [vm_compute; reflexivity |].
  split; vm_compute; reflexivity.
Qed.

(* ================================================================== *)
(** * Further properties of the engine *)
(* ================================================================== *)

Lemma bitAnd_ff_byte (x : Z) : isByte (bitAnd x 0xff).
Proof.
  unfold isByte, bitAnd. change (toInt32 255) with (Z.ones 8).
  rewrite Z.land_ones by lia. apply Z.mod_pos_bound. reflexivity.
Qed.

Lemma stringToBytes_utf16le_shape (s : JSString) :
  List.length (utf16leBytes s) = (2 * List.length s)%nat
  /\ Forall isByte (utf16leBytes s)
  /\ utf16leBytes s = swapPairs (utf16beBytes s).
Proof.
  induction s as [| c rest [IHl [IHb IHs]]]; cbn [utf16leBytes utf16beBytes swapPairs List.length].
  - repeat split. constructor.
  - repeat split.
    + rewrite IHl. lia.
    + repeat constructor; try apply bitAnd_ff_byte. exact IHb.
    + rewrite IHs. reflexivity.
Qed.

Lemma utf16beBytes_shape (s : JSString) :
  List.length (utf16beBytes s) = (2 * List.length s)%nat
  /\ Forall isByte (utf16beBytes s).
Proof.
  induction s as [| c rest [IHl IHb]]; cbn [utf16beBytes List.length].
  - split; [reflexivity | constructor].
  - split; [rewrite IHl; lia |].
    repeat constructor; try apply bitAnd_ff_byte. exact IHb.
Qed.

(** X1. stringToBytes with a UTF-16 encoding. *)
Theorem stringToBytes_utf16_bytes (s : JSString) :
  (List.length (stringToBytes s (Some "utf-16le"%string)) = (2 * List.length s)%nat
   /\ Forall isByte (stringToBytes s (Some "utf-16le"%string)))
  /\ (List.length (stringToBytes s (Some "utf-16be"%string)) = (2 * List.length s)%nat
      /\ Forall isByte (stringToBytes s (Some "utf-16be"%string)))
  /\ stringToBytes s (Some "utf-16le"%string)
     = swapPairs (stringToBytes s (Some "utf-16be"%string)).
Proof.
  change (stringToBytes s (Some "utf-16le"%string)) with (utf16leBytes s).
  change (stringToBytes s (Some "utf-16be"%string)) with (utf16beBytes s).
  destruct (stringToBytes_utf16le_shape s) as [Hl [Hb Hs]].
  destruct (utf16beBytes_shape s) as [Hl' Hb'].
  repeat split; assumption.
Qed.

Lemma codePointHeads_step (c d : Z) (rest : list Z) :
  codePointHeads (c :: d :: rest)
  = if isHighSurrogate c && isLowSurrogate d
    then c :: codePointHeads rest
    else c :: codePointHeads (d :: rest).
Proof. reflexivity. Qed.

Lemma pairFree_step (c d : Z) (rest : list Z) :
  pairFree (c :: d :: rest)
  = negb (isHighSurrogate c && isLowSurrogate d) && pairFree (d :: rest).
Proof. reflexivity. Qed.

Lemma codePointHeads_length (n : nat) :
  forall s, (List.length s <= n)%nat ->
    (List.length (codePointHeads s) <= List.length s)%nat
    /\ (pairFree s = true -> codePointHeads s = s)
    /\ (pairFree s = false -> (List.length (codePointHeads s) < List.length s)%nat).
Proof.
  induction n as [| n IH]; intros s Hn.
  - destruct s; [| cbn in Hn; lia]. cbn. repeat split; auto; discriminate.
  - destruct s as [| c rest]; [cbn; repeat split; auto; discriminate |].
    destruct rest as [| d rest'].
    + cbn. repeat split; auto.
      rewrite andb_false_r. cbn. discriminate.
    + destruct (IH (d :: rest') ltac:(cbn [List.length] in *; lia)) as [L1 [P1 N1]].
      destruct (IH rest' ltac:(cbn [List.length] in *; lia)) as [L2 [P2 N2]].
      rewrite codePointHeads_step, pairFree_step.
      destruct (isHighSurrogate c && isLowSurrogate d) eqn:E; cbn [negb andb].
      * cbn [List.length] in *. split; [lia | split; [discriminate | intros _; lia]].
      * cbn [List.length] in *. split; [lia | split].
        -- intros Hp. f_equal. apply P1. exact Hp.
        -- intros Hp. apply N1 in Hp. lia.
Qed.

Lemma high_not_low (c : Z) : isHighSurrogate c = true -> isLowSurrogate c = false.
Proof.
  unfold isHighSurrogate, isLowSurrogate. intros Hh.
  apply andb_true_iff in Hh. destruct Hh as [_ Hh]. apply Z.leb_le in Hh.
  apply andb_false_iff. left. apply Z.leb_gt. lia.
Qed.

Lemma codePointHeads_pair (n : nat) (hi lo : Z) (post : JSString) :
  isHighSurrogate hi = true -> isLowSurrogate lo = true ->
  forall pre, (List.length pre <= n)%nat ->
    codePointHeads (pre ++ hi :: lo :: post)
    = codePointHeads pre ++ hi :: codePointHeads post.
Proof.
  intros Hhi Hlo. induction n as [| n IH]; intros pre Hn.
  - destruct pre; [| cbn in Hn; lia]. cbn [app].
    rewrite codePointHeads_step, Hhi, Hlo. reflexivity.
  - destruct pre as [| c [| d pre']].
    + cbn [app]. rewrite codePointHeads_step, Hhi, Hlo. reflexivity.
    + cbn [app]. rewrite codePointHeads_step, (high_not_low hi Hhi), andb_false_r.
      rewrite codePointHeads_step, Hhi, Hlo. reflexivity.
    + pose proof (IH pre' ltac:(cbn [List.length] in Hn; lia)) as IH2.
      pose proof (IH (d :: pre') ltac:(cbn [List.length] in *; lia)) as IH1.
      cbn [app] in *. rewrite (codePointHeads_step c d (pre' ++ hi :: lo :: post)).
      rewrite (codePointHeads_step c d pre').
      destruct (isHighSurrogate c && isLowSurrogate d).
      * rewrite IH2. reflexivity.
      * rewrite IH1. reflexivity.
Qed.

(** X2. stringToBytes without a UTF-16 encoding walks the string by code
    points and keeps the first code unit of each.  With no encoding, or any
    encoding other than utf-16le and utf-16be, the result is the string
    itself exactly when no high surrogate of the string is followed by a low
    surrogate; and wherever a high surrogate is followed by a low one, the
    high surrogate is kept and the low one dropped: the result for
    [pre ++ hi :: lo :: post] is the result for [pre], then [hi], then the
    result for [post]. *)
Theorem stringToBytes_default_identity (s : JSString) (encoding : option string) :
  encoding <> Some "utf-16le"%string -> encoding <> Some "utf-16be"%string ->
  (stringToBytes s encoding = s <-> pairFree s = true)
  /\ (forall (pre : JSString) (hi lo : Z) (post : JSString),
         s = pre ++ hi :: lo :: post ->
         isHighSurrogate hi = true -> isLowSurrogate lo = true ->
         stringToBytes s encoding
         = stringToBytes pre encoding ++ hi :: stringToBytes post encoding).
Proof.
  intros Hle Hbe.
  assert (E : forall x, stringToBytes x encoding = codePointHeads x).
  { intros x. unfold stringToBytes. destruct encoding as [e |]; [| reflexivity].
    destruct (String.eqb e "utf-16le") eqn:E1.
    - apply String.eqb_eq in E1. subst e. congruence.
    - destruct (String.eqb e "utf-16be") eqn:E2; [| reflexivity].
      apply String.eqb_eq in E2. subst e. congruence. }
  split.
  - rewrite E.
    destruct (codePointHeads_length (List.length s) s (le_n _)) as [_ [P N]].
    split.
    + intros Heq. destruct (pairFree s) eqn:Hp; [reflexivity |].
      specialize (N eq_refl). rewrite Heq in N. lia.
    + exact P.
  - intros pre hi lo post -> Hhi Hlo. rewrite !E.
    exact (codePointHeads_pair (List.length pre) hi lo post Hhi Hlo pre (le_n _)).
Qed.

Lemma stringToBytes_default_identity_witness :
  stringToBytes (lit "ftyp") None = lit "ftyp"
  /\ stringToBytes unicornText None = [0x41; 0xA7FB; 0xD83E].
Proof.
  split.
  - apply (proj1 (stringToBytes_default_identity (lit "ftyp") None
                    ltac:(discriminate) ltac:(discriminate))).
    reflexivity.
  - exact (proj2 (stringToBytes_default_identity unicornText None
                    ltac:(discriminate) ltac:(discriminate))
                 [0x41; 0xA7FB] 0xD83E 0xDD84 [] eq_refl eq_refl eq_refl).
Defined.

(** ** The sync-safe token on well-formed tags *)

Lemma lor_shiftl_add (b a k : Z) :
  0 <= k -> 0 <= a < 2 ^ k -> Z.lor (Z.shiftl b k) a = b * 2 ^ k + a.
Proof.
  intros Hk Ha.
  assert (Hland : Z.land (Z.shiftl b k) a = 0).
  { apply Z.bits_inj'. intros n Hn. rewrite Z.land_spec, Z.bits_0.
    destruct (Z.ltb_spec n k) as [L | L].
    - rewrite Z.shiftl_spec_low by lia. reflexivity.
    - destruct (Z.eq_dec a 0) as [-> | Hnz]; [rewrite Z.bits_0; apply andb_false_r |].
      rewrite (Z.bits_above_log2 a n); [apply andb_false_r | lia |].
      apply Z.log2_lt_pow2; [lia |].
      apply Z.lt_le_trans with (2 ^ k); [lia |].
      apply Z.pow_le_mono_r; lia. }
  rewrite <- Z.lxor_lor by exact Hland.
  rewrite <- Z.add_nocarry_lxor by exact Hland.
  rewrite Z.shiftl_mul_pow2 by lia. reflexivity.
Qed.

(** X3. On the four bytes of a well-formed sync-safe integer (each below
    128) the token reader returns b0*2^21 + b1*2^14 + b2*2^7 + b3, a value
    below 2^28. *)
Theorem uint32SyncSafeToken_value (b0 b1 b2 b3 : Z) :
  0 <= b0 < 128 -> 0 <= b1 < 128 -> 0 <= b2 < 128 -> 0 <= b3 < 128 ->
  uint32SyncSafeToken_get [b0; b1; b2; b3] 0
  = b0 * 2 ^ 21 + b1 * 2 ^ 14 + b2 * 2 ^ 7 + b3
  /\ 0 <= uint32SyncSafeToken_get [b0; b1; b2; b3] 0 < 2 ^ 28.
Proof.
  intros H0 H1 H2 H3.
  assert (E : uint32SyncSafeToken_get [b0; b1; b2; b3] 0
              = b0 * 2 ^ 21 + b1 * 2 ^ 14 + b2 * 2 ^ 7 + b3).
  { rewrite uint32SyncSafeToken_on_syncsafe by assumption.
    unfold Spec.id3_sync_safe_u32.
    rewrite !land_7f_small by assumption.
    assert (P7 : 2 ^ 7 = 128) by reflexivity.
    assert (P14 : 2 ^ 14 = 16384) by reflexivity.
    assert (P21 : 2 ^ 21 = 2097152) by reflexivity.
    rewrite <- !Z.lor_assoc.
    rewrite (lor_shiftl_add b2 b3 7) by (rewrite ?P7; lia).
    rewrite (lor_shiftl_add b1 _ 14) by (rewrite ?P7, ?P14; lia).
    rewrite (lor_shiftl_add b0 _ 21) by (rewrite ?P7, ?P14, ?P21; lia).
    lia. }
  split; [exact E |].
  rewrite E. change (2 ^ 21) with 2097152. change (2 ^ 14) with 16384.
  change (2 ^ 7) with 128. change (2 ^ 28) with 268435456. lia.
Qed.

Lemma uint32SyncSafeToken_value_witness :
  uint32SyncSafeToken_get [0; 0; 2; 1] 0 = 257.
Proof.
  exact (proj1 (uint32SyncSafeToken_value 0 0 2 1 ltac:(lia) ltac:(lia) ltac:(lia) ltac:(lia))).
Defined.

(** ** The pattern predicate: further consequences *)

Lemma get_skipn {A : Type} (l : list A) (n : nat) (i : nat) :
  get (skipn n l) (Z.of_nat i) = get l (Z.of_nat i + Z.of_nat n).
Proof.
  unfold get.
  destruct (Z.of_nat i <? 0) eqn:E1; [apply Z.ltb_lt in E1; lia |].
  destruct (Z.of_nat i + Z.of_nat n <? 0) eqn:E2; [apply Z.ltb_lt in E2; lia |].
  rewrite nth_error_skipn. f_equal. lia.
Qed.

Lemma firstn_eq_nth_error {A : Type} (h l : list A) :
  firstn (List.length h) l = h <->
  (forall (i : nat) (x : A), nth_error h i = Some x -> nth_error l i = Some x).
Proof.
  revert l. induction h as [| a h IH]; intros l; cbn [List.length firstn].
  - split; [intros _ [| i] x Hi; discriminate | reflexivity].
  - destruct l as [| b l].
    + split; [discriminate |]. intros Hall. specialize (Hall 0%nat a eq_refl). discriminate.
    + split.
      * intros Heq. injection Heq as -> Heq. pose proof (proj1 (IH l) Heq) as Hrest.
        intros [| i] x Hi; cbn [nth_error] in *; [exact Hi | apply Hrest; exact Hi].
      * intros Hall. f_equal.
        -- specialize (Hall 0%nat a eq_refl). cbn in Hall. congruence.
        -- apply IH. intros i x Hi. exact (Hall (S i) x Hi).
Qed.

(** X4. Without a mask the pattern predicate says that the buffer holds the
    header bytes at the offset: for an offset that is not negative it is
    true exactly when the [length headers] bytes of the buffer from the
    offset on are the header; for a negative offset it is false for every
    header that is not empty. *)
Theorem check_unmasked_sublist (buffer headers : list Z) (offset : Z) :
  (0 <= offset ->
   (_check buffer headers (Some offset) None = true
    <-> firstn (List.length headers) (skipn (Z.to_nat offset) buffer) = headers))
  /\ (offset < 0 -> headers <> [] ->
      _check buffer headers (Some offset) None = false).
Proof.
  split.
  - intros Ho. unfold _check. cbn [nullish]. rewrite checkFrom_matches.
    rewrite firstn_eq_nth_error. split.
    + intros Hall i x Hi. specialize (Hall i x Hi). cbn [Z.add] in Hall.
      pose proof (get_skipn buffer (Z.to_nat offset) i) as G.
      rewrite Z2Nat.id in G by lia. rewrite <- G in Hall.
      unfold get in Hall. destruct (Z.of_nat i <? 0) eqn:E; [discriminate |].
      rewrite Nat2Z.id in Hall. exact Hall.
    + intros Hall i x Hi. specialize (Hall i x Hi). cbn [Z.add].
      pose proof (get_skipn buffer (Z.to_nat offset) i) as G.
      rewrite Z2Nat.id in G by lia. rewrite <- G.
      unfold get. destruct (Z.of_nat i <? 0) eqn:E; [apply Z.ltb_lt in E; lia |].
      rewrite Nat2Z.id. exact Hall.
  - intros Ho Hne. destruct headers as [| h rest]; [congruence |].
    unfold _check. cbn [nullish checkFrom].
    unfold get. destruct (0 + offset <? 0) eqn:E; [reflexivity |].
    apply Z.ltb_ge in E. lia.
Qed.

Lemma check_unmasked_sublist_witness :
  _check [0; 0; 0x66; 0x74; 0x79; 0x70] [0x66; 0x74] (Some 2) None = true
  /\ _check [0x66; 0x74] [0x66] (Some (-1)) None = false.
Proof.
  split.
  - apply (proj1 (check_unmasked_sublist [0; 0; 0x66; 0x74; 0x79; 0x70] [0x66; 0x74] 2));
      [lia | reflexivity].
  - apply (proj2 (check_unmasked_sublist [0x66; 0x74] [0x66] (-1))); [lia | discriminate].
Defined.

Lemma land_byte_mask (m x : Z) : 0 <= m < 256 -> Z.land (Z.land m x) m = Z.land m x.
Proof.
  intros Hm. rewrite (Z.land_comm (Z.land m x) m), Z.land_assoc, Z.land_diag. reflexivity.
Qed.

(** X5. Under a mask a header byte can only match when all its bits lie
    inside its mask byte: when the predicate is true, every header byte h
    satisfies h & mask[i] = h, where a mask index past the end of the mask
    reads as zero (so the header byte there is zero). *)
Theorem check_mask_bounds_header (buffer headers mask : list Z) (offset : option Z)
    (i : nat) (h : Z) :
  Forall isByte mask ->
  _check buffer headers offset (Some mask) = true ->
  nth_error headers i = Some h ->
  Z.land h (nullish (get mask (Z.of_nat i)) 0) = h.
Proof.
  intros Hmask Hcheck Hi.
  unfold _check in Hcheck. rewrite checkFrom_matches in Hcheck.
  specialize (Hcheck i h Hi). cbn [Z.add] in Hcheck.
  set (m := nullish (get mask (Z.of_nat i)) 0) in *.
  assert (Hm : 0 <= m < 256).
  { unfold m, get. destruct (Z.of_nat i <? 0); [cbn; lia |].
    destruct (nth_error mask (Z.to_nat (Z.of_nat i))) as [x |] eqn:E; [| cbn; lia].
    cbn [nullish]. apply nth_error_In in E.
    rewrite Forall_forall in Hmask. exact (Hmask x E). }
  rewrite Hcheck. unfold bitAnd.
  rewrite (toInt32_small m) by (cbn; lia).
  apply land_byte_mask. exact Hm.
Qed.

Lemma check_mask_bounds_header_witness :
  _check [0xFF; 0xF1] [0x10] (Some 1) (Some [0x16]) = true
  /\ Z.land 0x10 (nullish (get [0x16] (Z.of_nat 0)) 0) = 0x10.
Proof.
  split; [reflexivity |].
  exact (check_mask_bounds_header [0xFF; 0xF1] [0x10] [0x16] (Some 1) 0 0x10
           ltac:(repeat constructor; unfold isByte; lia) eq_refl eq_refl).
Defined.

(** ** The MPEG frame scan *)

Lemma checkFrom_masked_ext (b1 b2 : list Z) (o1 o2 : Z) (m headers : list Z) :
  forall index : Z,
    (forall i, index <= i < index + Z.of_nat (List.length headers) ->
               nullish (get b1 (i + o1)) 0 = nullish (get b2 (i + o2)) 0) ->
    checkFrom b1 o1 (Some m) index headers = checkFrom b2 o2 (Some m) index headers.
Proof.
  induction headers as [| h rest IH]; intros index Hext; cbn [checkFrom]; [reflexivity |].
  cbn [List.length] in Hext.
  rewrite (Hext index) by lia.
  rewrite (IH (index + 1)) by (intros i Hi; apply Hext; lia).
  reflexivity.
Qed.

Lemma scanMpeg_two_bytes (offset : Z) (buffer : list Z) :
  scanMpeg offset buffer
  = scanMpeg 0 [nullish (get buffer offset) 0; nullish (get buffer (offset + 1)) 0].
Proof.
  set (b0 := nullish (get buffer offset) 0).
  set (b1 := nullish (get buffer (offset + 1)) 0).
  assert (H2 : check [0xff; 0xe0] (Some offset) (Some [0xff; 0xe0]) buffer
               = check [0xff; 0xe0] (Some 0) (Some [0xff; 0xe0]) [b0; b1]).
  { unfold check, _check. cbn [nullish]. apply checkFrom_masked_ext.
    intros i Hi. cbn [List.length] in Hi.
    assert (Hc : i = 0 \/ i = 1) by lia.
    destruct Hc as [-> | ->]; [reflexivity |].
    replace (1 + offset) with (offset + 1) by lia. reflexivity. }
  assert (H1 : forall h m,
             check [h] (Some (offset + 1)) (Some [m]) buffer
             = check [h] (Some (0 + 1)) (Some [m]) [b0; b1]).
  { intros h m. unfold check, _check. cbn [nullish]. apply checkFrom_masked_ext.
    intros i Hi. cbn [List.length] in Hi.
    assert (Hc : i = 0) by lia. subst i. reflexivity. }
  unfold scanMpeg. rewrite H2, !H1. reflexivity.
Qed.

Lemma sameResult_eq (a b : option FileTypeResult) : sameResult a b = true -> a = b.
Proof.
  destruct a as [[e1 m1] |], b as [[e2 m2] |]; cbn; try discriminate; try reflexivity.
  unfold FileTypeResult_eqb. cbn. intros Hab. apply andb_true_iff in Hab.
  destruct Hab as [He Hm]. apply String.eqb_eq in He, Hm. subst. reflexivity.
Qed.

Lemma scanMpeg_table :
  forallb (fun i =>
    forallb (fun j =>
      sameResult (scanMpeg 0 [Z.of_nat i; Z.of_nat j])
                 (frameType (Z.of_nat i) (Z.of_nat j)))
      (seq 0 256))
    (seq 0 256) = true.
Proof. vm_compute. reflexivity. Qed.

Lemma isByte_of_nat (b : Z) : isByte b -> exists n, In n (seq 0 256) /\ b = Z.of_nat n.
Proof.
  intros Hb. exists (Z.to_nat b). split.
  - apply in_seq. unfold isByte in Hb. lia.
  - unfold isByte in Hb. lia.
Qed.

Lemma nullish_get_byte (buffer : list Z) (i : Z) :
  Forall isByte buffer -> isByte (nullish (get buffer i) 0).
Proof.
  intros Hb. unfold get. destruct (i <? 0); [cbn; unfold isByte; lia |].
  destruct (nth_error buffer (Z.to_nat i)) as [x |] eqn:E; [| cbn; unfold isByte; lia].
  cbn [nullish]. apply nth_error_In in E. rewrite Forall_forall in Hb. exact (Hb x E).
Qed.

(** X6. The frame scan decodes the first two bytes of an MPEG audio frame
    header.  On a buffer of bytes, with b0 the byte at the offset and b1 the
    next one (a byte outside the buffer reading as zero), it reports a type
    only when b0 is 0xFF and the three high bits of b1 are set; then the
    layer bits of b1 decide: 01 is mp3, 10 is mp2, 11 is mp1, and 00 is aac
    when bit 4 is set and nothing otherwise. *)
Theorem scanMpeg_frame_header (offset : Z) (buffer : list Z) :
  Forall isByte buffer ->
  scanMpeg offset buffer
  = frameType (nullish (get buffer offset) 0) (nullish (get buffer (offset + 1)) 0).
Proof.
  intros Hb. rewrite scanMpeg_two_bytes.
  destruct (isByte_of_nat _ (nullish_get_byte buffer offset Hb)) as [i [Hi ->]].
  destruct (isByte_of_nat _ (nullish_get_byte buffer (offset + 1) Hb)) as [j [Hj ->]].
  apply sameResult_eq.
  pose proof scanMpeg_table as T.
  rewrite forallb_forall in T. specialize (T i Hi).
  rewrite forallb_forall in T. exact (T j Hj).
Qed.

Lemma scanMpeg_frame_header_witness :
  scanMpeg 2 [0; 0; 0xFF; 0xFB] = Some (mkFileType "mp3" "audio/mpeg").
Proof.
  exact (scanMpeg_frame_header 2 [0; 0; 0xFF; 0xFB]
           ltac:(repeat constructor; unfold isByte; lia)).
Defined.

(** X7. The frame scan needs both header bytes inside the buffer: at a
    negative offset, and at an offset whose next index is past the end of
    the buffer, it reports nothing, whatever the buffer holds. *)
Theorem scanMpeg_needs_two_bytes (offset : Z) (buffer : list Z) :
  offset < 0 \/ Z.of_nat (List.length buffer) <= offset + 1 ->
  scanMpeg offset buffer = None.
Proof.
  intros Hout. rewrite scanMpeg_two_bytes.
  assert (Hz : nullish (get buffer offset) 0 = 0 \/ nullish (get buffer (offset + 1)) 0 = 0).
  { destruct Hout as [Hneg | Hend].
    - left. unfold get. destruct (offset <? 0) eqn:E; [reflexivity | apply Z.ltb_ge in E; lia].
    - right. unfold get. destruct (offset + 1 <? 0); [reflexivity |].
      rewrite (proj2 (nth_error_None buffer (Z.to_nat (offset + 1)))) by lia. reflexivity. }
  destruct Hz as [-> | ->].
  - reflexivity.
  - set (b0 := nullish (get buffer offset) 0).
    unfold scanMpeg, check, _check. cbn [nullish checkFrom].
    change (get [255; 224] 0) with (Some 255).
    change (get [b0; 0] (0 + 0)) with (Some b0). cbn [nullish].
    destruct (negb (255 =? bitAnd 255 b0)); reflexivity.
Qed.

Lemma scanMpeg_needs_two_bytes_witness :
  scanMpeg 0 [0xFF] = None /\ scanMpeg (-1) [0xFB; 0xFF; 0xFB] = None.
Proof.
  split.
  - apply (scanMpeg_needs_two_bytes 0 [0xFF]). right. cbn. lia.
  - apply (scanMpeg_needs_two_bytes (-1) [0xFB; 0xFF; 0xFB]). left. lia.
Defined.

(** ** The imprecise detector only peeks *)

Lemma sig_peeks (P : FileTypeResult -> Prop) (room : Z) (c : Cond) (e m : string) :
  P (mkFileType e m) -> Peeks P room (sig c e m).
Proof.
  intros HP st _. unfold sig, when, found, returns, ret.
  destruct (c (buffer st)).
  - exists (Some (Some (mkFileType e m))), (buffer st). destruct st.
    split; [reflexivity | split; [reflexivity |]].
    intros x Hx. injection Hx as <-. exact HP.
  - exists None, (buffer st). destruct st.
    split; [reflexivity | split; [reflexivity | discriminate]].
Qed.

Lemma expandSample_peeks (P : FileTypeResult -> Prop) (room n : Z) :
  n <= room -> Peeks P room (expandSample n).
Proof.
  intros Hn st Hroom.
  unfold expandSample, exec, bind, Tok.getSize, Tok.peekBuffer, next, ret.
  eexists None, _. split; [reflexivity | split; [| discriminate]].
  cbn [buffer tokenizer].
  rewrite length_firstn, length_app, length_skipn. lia.
Qed.

Lemma block_peeks (P : FileTypeResult -> Prop) (room : Z) (ss : list Stmt) :
  Forall (Peeks P room) ss -> Peeks P room (block ss).
Proof.
  induction 1 as [| s ss Hs _ IH]; intros st Hroom; cbn [block].
  - exists None, (buffer st). destruct st.
    split; [reflexivity | split; [reflexivity | discriminate]].
  - destruct (Hs st Hroom) as [r [b [E [L HP]]]]. rewrite E. destruct r as [v |].
    + exists (Some v), b. split; [reflexivity | split; [exact L | exact HP]].
    + destruct (IH (mkState (tokenizer st) b)) as [r' [b' [E' [L' HP']]]].
      { cbn [buffer]. rewrite L. exact Hroom. }
      exists r', b'. split; [exact E' | split; [| exact HP']].
      cbn [buffer] in L'. congruence.
Qed.

Lemma scanMpeg_types (offset : Z) (b : list Z) (x : FileTypeResult) :
  scanMpeg offset b = Some x -> In x impreciseTypes.
Proof.
  unfold scanMpeg, impreciseTypes.
  repeat match goal with
         | |- context [if ?c then _ else _] => destruct c
         end;
    intros Hx; try discriminate; injection Hx as <-; cbn; tauto.
Qed.

Lemma scanDepths_types (b : list Z) (count : nat) (x : FileTypeResult) :
  forall depth, scanDepths b depth count = Some x -> In x impreciseTypes.
Proof.
  induction count as [| n IH]; intros depth; cbn [scanDepths]; [discriminate |].
  destruct (scanMpeg depth b) as [y |] eqn:E.
  - intros Hx. injection Hx as <-. exact (scanMpeg_types depth b y E).
  - apply IH.
Qed.

(** X8. The imprecise detector only peeks.  On every tokenizer, run with
    a sample buffer that has room for its peeks (eight bytes, and two more
    than the tolerance), it ends without an error and leaves the tokenizer
    where it was, with its size made definite, and the sample buffer at its
    length; a file type it returns is one of mpg, ttf, ico, cur, aac, mp3,
    mp2 and mp1. *)
Theorem detectImprecise_only_peeks (options : Options) (st : State) :
  Z.max 8 (2 + mpegOffsetTolerance options) <= Z.of_nat (List.length (buffer st)) ->
  exists r b,
    detectImprecise options st = Done r (mkState (sized (tokenizer st)) b)
    /\ List.length b = List.length (buffer st)
    /\ (forall x, r = Some x -> In x impreciseTypes).
Proof.
  intros Hroom.
  unfold detectImprecise, body, bind.
  change (Tok.defaultSize st) with (@Done State unit tt (mkState (sized (tokenizer st)) (buffer st))).
  cbv beta iota.
  match goal with
  | |- context [block ?ss ?s0] =>
      assert (Hp : Peeks (fun x => In x impreciseTypes)
                         (Z.max 8 (2 + mpegOffsetTolerance options)) (block ss))
  end.
  { apply block_peeks.
    repeat (apply Forall_cons;
            [first [ apply expandSample_peeks; lia
                   | apply sig_peeks; cbn; tauto
                   | idtac ] |]); [| apply Forall_nil].
    intros s _. unfold withBuffer.
    destruct (_ <=? _).
    - destruct (scanDepths _ _ _) as [x |] eqn:E.
      + exists (Some (Some x)), (buffer s). destruct s.
        split; [reflexivity | split; [reflexivity |]].
        intros y Hy. injection Hy as <-. exact (scanDepths_types _ _ _ _ E).
      + exists None, (buffer s). destruct s.
        split; [reflexivity | split; [reflexivity | discriminate]].
    - exists None, (buffer s). destruct s.
      split; [reflexivity | split; [reflexivity | discriminate]]. }
  destruct (Hp (mkState (sized (tokenizer st)) (buffer st)) Hroom) as [r [b [E [L HP]]]].
  rewrite E. cbn [tokenizer buffer] in *.
  destruct r as [v |].
  - exists v, b. split; [reflexivity | split; [exact L |]].
    intros x Hx. subst v. exact (HP x eq_refl).
  - exists None, b. split; [reflexivity | split; [exact L | discriminate]].
Qed.

Lemma detectImprecise_only_peeks_witness :
  exists r b,
    detectImprecise Hosts.defaults (newParser (Tok.fromBuffer [0xFF; 0xFB])) 
    = Done r (mkState (sized (Tok.fromBuffer [0xFF; 0xFB])) b)
    /\ List.length b = 4100%nat
    /\ (forall x, r = Some x -> In x impreciseTypes).
Proof.
  apply (detectImprecise_only_peeks Hosts.defaults (newParser (Tok.fromBuffer [0xFF; 0xFB]))).
  vm_compute. discriminate.
Defined.

(** ** A UTF-16 little-endian byte order mark reads as an MPEG frame *)

Lemma expandSample_bom16 (k : Z) (rest b1 : list Z) :
  2 <= k -> (2 <= List.length b1)%nat ->
  exists tail,
    expandSample k (mkState (Tok.fromBuffer (0xFF :: 0xFE :: rest)) b1)
    = Done None (mkState (Tok.fromBuffer (0xFF :: 0xFE :: rest)) (0xFF :: 0xFE :: tail))
    /\ List.length (0xFF :: 0xFE :: tail) = List.length b1.
Proof.
  intros Hk Hb.
  unfold expandSample, exec, bind, Tok.getSize, Tok.peekBuffer, next, ret.
  cbn [tokenizer buffer]. unfold Tok.fileSize, Tok.fromBuffer. cbn [size nullish].
  unfold Tok.remaining. cbn [position data Z.to_nat skipn].
  set (m := Z.to_nat (Z.min k (Z.of_nat (List.length (0xFF :: 0xFE :: rest))))).
  assert (Hm : (2 <= m)%nat) by (unfold m; cbn [List.length]; lia).
  clearbody m.
  destruct m as [| [| m']]; [lia | lia |].
  destruct b1 as [| x [| y b1']]; cbn [List.length] in Hb; [lia | lia |].
  cbn [firstn app List.length skipn].
  eexists. split; [reflexivity |].
  cbn [List.length]. rewrite length_firstn, length_app, length_skipn. lia.
Qed.

Lemma detectImprecise_bom16 (tol : Z) (rest b1 : list Z) :
  0 <= tol -> 2 + tol <= Z.of_nat (List.length b1) ->
  exists b2,
    detectImprecise (mkOptions tol []) (mkState (Tok.fromBuffer (0xFF :: 0xFE :: rest)) b1)
    = Done (Some mp1) (mkState (Tok.fromBuffer (0xFF :: 0xFE :: rest)) b2).
Proof.
  intros Htol Hlen.
  unfold detectImprecise, body, bind.
  change (Tok.defaultSize (mkState (Tok.fromBuffer (0xFF :: 0xFE :: rest)) b1))
    with (@Done State unit tt (mkState (Tok.fromBuffer (0xFF :: 0xFE :: rest)) b1)).
  cbn [block].
  destruct (expandSample_bom16 8 rest b1 ltac:(lia) ltac:(lia)) as [t8 [E8 L8]]. rewrite E8.
  rewrite !sig_false by reflexivity.
  cbn [mpegOffsetTolerance].
  destruct (expandSample_bom16 (2 + tol) rest (0xFF :: 0xFE :: t8) ltac:(lia)
              ltac:(cbn [List.length]; lia)) as [t2 [E2 L2]].
  rewrite E2. unfold withBuffer. cbn [buffer].
  destruct (2 + tol <=? _) eqn:Eb; [| apply Z.leb_gt in Eb; lia].
  replace (Z.to_nat (tol + 1)) with (S (Z.to_nat tol)) by lia.
  cbn [scanDepths]. rewrite scanMpeg_two_bytes.
  change (scanMpeg 0 [nullish (get (0xFF :: 0xFE :: t2) 0) 0;
                      nullish (get (0xFF :: 0xFE :: t2) (0 + 1)) 0])
    with (Some mp1).
  eexists. reflexivity.
Qed.

(** X9. A buffer that begins with the UTF-16 little-endian byte order
    mark FF FE and for which the core detector finds nothing (it is none of
    the XML, SketchUp and registry texts the core detector knows) is
    reported as MPEG layer-1 audio: the imprecise detector reads the mark as
    the frame sync.  This holds for every tolerance from 0 on for which two
    bytes more than the tolerance fit in the sample buffer of 4100 bytes,
    that is up to 4098, and for every length of the buffer. *)
Theorem fromBuffer_utf16le_bom_is_mp1 (H : Host) (fuel : nat) (tol : Z)
    (rest : list Z) (st1 : State) :
  0 <= tol -> 2 + tol <= reasonableDetectionSizeInBytes ->
  detectConfident H (mkOptions tol []) fuel
                  (newParser (Tok.fromBuffer (0xFF :: 0xFE :: rest))) = Done None st1 ->
  tokenizer st1 = Tok.fromBuffer (0xFF :: 0xFE :: rest) ->
  resultOf (fromBuffer H (mkOptions tol []) fuel (0xFF :: 0xFE :: rest)) = Some (Some mp1).
Proof.
  intros Htol Hfit Hcore Htok.
  pose proof (detectConfident_sample H (mkOptions tol []) fuel _ _ _ Hcore) as Hsample.
  destruct st1 as [t1 b1]. cbn [tokenizer] in Htok. subst t1. cbn [buffer] in Hsample.
  assert (Hroom : 2 + tol <= Z.of_nat (List.length b1)).
  { rewrite Hsample, freshBuffer_length. unfold reasonableDetectionSizeInBytes in Hfit. lia. }
  destruct (detectImprecise_bom16 tol rest b1 Htol Hroom) as [b2 Himp].
  unfold fromBuffer, fromBufferTraced.
  destruct (1 <? Z.of_nat (List.length (0xFF :: 0xFE :: rest))) eqn:E;
    [| apply Z.ltb_ge in E; cbn [List.length] in E; lia].
  cbn [negb]. unfold fromTokenizerTraced, detectors, detectorsWith.
  cbn [customDetectors map app runDetectors run rid].
  rewrite Hcore. cbn [tokenizer position Tok.fromBuffer newParser].
  change (0 =? 0) with true. cbn [negb].
  rewrite Himp. reflexivity.
Qed.

Lemma fromBuffer_utf16le_bom_is_mp1_witness :
  resultOf (fromBuffer Hosts.plain (mkOptions 4098 []) 1 utf16Hi) = Some (Some mp1).
Proof.
  destruct (detectConfident Hosts.plain (mkOptions 4098 []) 1
                            (newParser (Tok.fromBuffer utf16Hi)))
    as [r st1 | e] eqn:E.
  - pose proof E as E'. vm_compute in E'.
    assert (Hr : r = None) by congruence. subst r.
    assert (Htok : tokenizer st1 = Tok.fromBuffer utf16Hi)
      by (injection E' as <-; reflexivity).
    assert (Htol : 0 <= 4098) by lia.
    assert (Hfit : 2 + 4098 <= reasonableDetectionSizeInBytes) by (vm_compute; discriminate).
    exact (fromBuffer_utf16le_bom_is_mp1 Hosts.plain 1 4098 [0x68; 0; 0x69; 0] st1
             Htol Hfit E Htok).
  - exfalso. vm_compute in E. discriminate.
Defined.

(** ** Errors of a detector *)

Lemma runDetectors_throw (p0 : Z) (pre : list Registered) :
  forall (d : Registered) (post : list Registered) (st st1 : State) (e : Error),
    Passes p0 pre st st1 ->
    run d st1 = Throw e ->
    runDetectors p0 (pre ++ d :: post) st = (map rid pre ++ [rid d], Throw e).
Proof.
  induction pre as [| c pre IH]; intros d post st st1 e Hpass Hrun.
  - inversion Hpass; subst. cbn [app map runDetectors]. rewrite Hrun. reflexivity.
  - inversion Hpass as [| ? ? ? sta ? Hrun_c Hpos Hrest]; subst.
    cbn [app map runDetectors]. rewrite Hrun_c, Z.eqb_refl. cbn [negb].
    rewrite (IH d post sta st1 e Hrest Hrun). reflexivity.
Qed.

(** X10. An error of a detector ends the pipeline with that error: when
    the detectors before it returned no result without moving the tokenizer
    and it throws, [fromTokenizer] throws the same error, and no later
    detector is invoked. *)
Theorem fromTokenizer_propagates_errors (H : Host) (options : Options) (fuel : nat)
    (st st1 : State) (pre : list Registered) (d : Registered)
    (post : list Registered) (e : Error) :
  detectors H options fuel = pre ++ d :: post ->
  Passes (position (tokenizer st)) pre st st1 ->
  run d st1 = Throw e ->
  fromTokenizerTraced (detectors H options fuel) st = (map rid pre ++ [rid d], Throw e)
  /\ fromTokenizer H options fuel st = Throw e.
Proof.
  intros Hsplit Hpass Hrun.
  assert (E : fromTokenizerTraced (detectors H options fuel) st
              = (map rid pre ++ [rid d], Throw e)).
  { unfold fromTokenizerTraced. rewrite Hsplit.
    eapply runDetectors_throw; eassumption. }
  split; [exact E |].
  unfold fromTokenizer, fromTokenizerWith.
  change (detectorsWith options (detectConfident H options fuel))
    with (detectors H options fuel).
  rewrite E. reflexivity.
Qed.

Lemma fromTokenizer_propagates_errors_witness :
  fromTokenizerTraced (detectors Hosts.plain (mkOptions 0 [shrug; thrower]) 1)
                      (newParser (Tok.fromBuffer [0x42; 0x4d]))
  = (["shrug"; "thrower"]%string, Throw EndOfStreamError)
  /\ fromTokenizer Hosts.plain (mkOptions 0 [shrug; thrower]) 1
                   (newParser (Tok.fromBuffer [0x42; 0x4d]))
     = Throw EndOfStreamError.
Proof.
  refine (fromTokenizer_propagates_errors Hosts.plain (mkOptions 0 [shrug; thrower]) 1
            (newParser (Tok.fromBuffer [0x42; 0x4d]))
            (newParser (Tok.fromBuffer [0x42; 0x4d]))
            [registerCustom shrug] (registerCustom thrower) _ EndOfStreamError
            eq_refl _ eq_refl).
  eapply Passes_cons; [reflexivity | reflexivity | apply Passes_nil].
Defined.

(** ** The arms of the core detector that detect again *)

(** X11. The UTF-8 byte order mark is skipped and the core detector runs
    again: when the bytes at the cursor begin with EF BB BF, the outcome of
    the core detector is its own outcome on the tokenizer advanced by three
    bytes; the other detectors of the pipeline are not consulted for the
    text behind the mark. *)
Theorem detectConfident_utf8_bom (H : Host) (options : Options) (fuel : nat)
    (t : Tokenizer) (buf rest : list Z) :
  Tok.remaining t = 0xEF :: 0xBB :: 0xBF :: rest ->
  detectConfident H options (S fuel) (mkState t buf)
  = detectConfident H options fuel (mkState (Tok.advance (sized t) 3) (sample32 t)).
Proof.
  intros Hrem.
  rewrite detectConfident_entry.
  unfold body, confidentStatements, bind.
  rewrite <- (firstn_skipn 8 (statements32 _ _ _ _)), <- app_assoc.
  rewrite block_skip.
  2:{ cbn [firstn statements32]. unfold entryState, sample32. rewrite Hrem.
      repeat constructor. }
  cbn [skipn statements32 app block].
  assert (Hcond : chk [0xef; 0xbb; 0xbf] (buffer (entryState t)) = true).
  { unfold entryState, sample32. cbn [buffer]. rewrite Hrem. reflexivity. }
  unfold bomArm, when. rewrite Hcond.
  unfold bind at 1. rewrite ignore_within.
  2:{ change (Tok.remaining (tokenizer (entryState t))) with (Tok.remaining t).
      rewrite Hrem. cbn [List.length]. lia. }
  unfold returnOf, bind, returns, ret.
  change (mkState (Tok.advance (tokenizer (entryState t)) 3) (buffer (entryState t)))
    with (mkState (Tok.advance (sized t) 3) (sample32 t)).
  destruct (detectConfident H options fuel _) as [r st' | e]; reflexivity.
Qed.

(** X12. A gzip stream is reported as gz or tar.gz: when the bytes at the
    cursor begin with 1F 8B 08, the core detector runs the whole pipeline on
    the inflated stream (a tokenizer of unknown size); when that run returns,
    the result is tar.gz if it found a tar archive and gz in every other
    case, also when it found nothing; when that run throws, the error is the
    outcome. *)
Theorem detectConfident_gzip (H : Host) (options : Options) (fuel : nat)
    (t : Tokenizer) (buf rest : list Z) :
  Tok.remaining t = 0x1F :: 0x8B :: 0x08 :: rest ->
  detectConfident H options (S fuel) (mkState t buf)
  = match fromTokenizer H options fuel
            (mkState (Tok.fromStream (fst (inflate H (sized t)))) (sample32 t)) with
    | Done inner st2 =>
        Done (Some (gzipType inner)) (mkState (snd (inflate H (sized t))) (buffer st2))
    | Throw e => Throw e
    end.
Proof.
  intros Hrem.
  rewrite detectConfident_entry.
  unfold body, confidentStatements, bind.
  rewrite <- (firstn_skipn 11 (statements32 _ _ _ _)), <- app_assoc.
  rewrite block_skip.
  2:{ cbn [firstn statements32]. unfold entryState, sample32. rewrite Hrem.
      repeat constructor. }
  cbn [skipn statements32 app block].
  assert (Hcond : chk [0x1f; 0x8b; 0x8] (buffer (entryState t)) = true).
  { unfold entryState, sample32. cbn [buffer]. rewrite Hrem. reflexivity. }
  unfold gzipArm, when. rewrite Hcond.
  change (tokenizer (entryState t)) with (sized t).
  change (buffer (entryState t)) with (sample32 t).
  destruct (inflate H (sized t)) as [inflated t'].
  cbn [fst snd].
  destruct (fromTokenizer H options fuel _) as [inner st2 | e]; [| reflexivity].
  unfold gzipType. destruct inner as [ft |]; [| reflexivity].
  destruct (String.eqb (ext ft) "tar"); reflexivity.
Qed.

Lemma detectConfident_utf8_bom_witness :
  resultOf (detectConfident Hosts.plain Hosts.defaults 2 (newParser (Tok.fromBuffer bomXml)))
  = Some (Some (mkFileType "xml" "application/xml")).
Proof.
  unfold newParser.
  rewrite (detectConfident_utf8_bom Hosts.plain Hosts.defaults 1 (Tok.fromBuffer bomXml)
             freshBuffer (lit "<?xml version") eq_refl).
  vm_compute. reflexivity.
Defined.

Lemma detectConfident_gzip_witness :
  resultOf (detectConfident tarballHost Hosts.defaults 2 (newParser (Tok.fromBuffer gzipHead)))
  = Some (Some (mkFileType "tar.gz" "application/gzip")).
Proof.
  unfold newParser.
  rewrite (detectConfident_gzip tarballHost Hosts.defaults 1 (Tok.fromBuffer gzipHead)
             freshBuffer [0; 0; 0; 0; 0; 0; 3] eq_refl).
  vm_compute. reflexivity.
Defined.

(** ** The chunk walk of the PNG arm *)

Lemma eqs_eq (a b : JSString) : eqs a b = true <-> a = b.
Proof.
  revert b. induction a as [| x a IH]; intros [| y b]; cbn [eqs];
    try (split; [discriminate | discriminate]); [split; reflexivity |].
  rewrite andb_true_iff, Z.eqb_eq, IH. split.
  - intros [-> ->]. reflexivity.
  - intros E. injection E as -> ->. split; reflexivity.
Qed.

Lemma eqs_neq (a b : JSString) : a <> b -> eqs a b = false.
Proof.
  intros Hne. destruct (eqs a b) eqn:E; [| reflexivity].
  apply eqs_eq in E. contradiction.
Qed.

Lemma readBuffer_sees (n : nat) (st : State) (bytes rest : list Z) :
  Sees st (bytes ++ rest) -> List.length bytes = n ->
  exists st',
    Tok.readBuffer (Z.of_nat n) st = Done bytes st'
    /\ Sees st' rest
    /\ position (tokenizer st') = position (tokenizer st) + Z.of_nat n
    /\ Tok.fileSize (tokenizer st') = Tok.fileSize (tokenizer st)
    /\ buffer st' = buffer st.
Proof.
  intros [Hp [Hrem Hsize]] Hlen.
  rewrite (readBuffer_within n st bytes rest Hrem Hlen).
  eexists. split; [reflexivity |].
  cbn [tokenizer buffer].
  split; [| split; [reflexivity | split; reflexivity]].
  unfold Sees. cbn [tokenizer]. split; [| split].
  - unfold Tok.advance. cbn [position]. lia.
  - rewrite remaining_advance by lia. rewrite Hrem, Nat2Z.id, <- Hlen.
    rewrite skipn_app, Nat.sub_diag, skipn_all. reflexivity.
  - unfold Tok.advance, Tok.fileSize in *. cbn [position size].
    rewrite length_app in Hsize. lia.
Qed.

Lemma ignore_sees (n : nat) (st : State) (bytes rest : list Z) :
  Sees st (bytes ++ rest) -> List.length bytes = n ->
  exists st',
    Tok.ignore (Z.of_nat n) st = Done tt st'
    /\ Sees st' rest
    /\ position (tokenizer st') = position (tokenizer st) + Z.of_nat n
    /\ Tok.fileSize (tokenizer st') = Tok.fileSize (tokenizer st)
    /\ buffer st' = buffer st.
Proof.
  intros [Hp [Hrem Hsize]] Hlen.
  rewrite ignore_within by (rewrite Hrem, length_app; lia).
  eexists. split; [reflexivity |].
  cbn [tokenizer buffer].
  split; [| split; [reflexivity | split; reflexivity]].
  unfold Sees. cbn [tokenizer]. split; [| split].
  - unfold Tok.advance. cbn [position]. lia.
  - rewrite remaining_advance by lia. rewrite Hrem, Nat2Z.id, <- Hlen.
    rewrite skipn_app, Nat.sub_diag, skipn_all. reflexivity.
  - unfold Tok.advance, Tok.fileSize in *. cbn [position size].
    rewrite length_app in Hsize. lia.
Qed.

Lemma UINT32_BE_four (a b c d : Z) :
  Token.UINT32_BE [a; b; c; d] 0 = 2 ^ 24 * a + 2 ^ 16 * b + 2 ^ 8 * c + d.
Proof. reflexivity. Qed.

Lemma UINT32_BE_be32 (n : Z) : 0 <= n < 2 ^ 32 -> Token.UINT32_BE (be32 n) 0 = n.
Proof.
  intros Hn. unfold be32. rewrite UINT32_BE_four.
  change (2 ^ 32) with 4294967296 in Hn.
  change (2 ^ 24) with 16777216. change (2 ^ 16) with 65536. change (2 ^ 8) with 256.
  Z.div_mod_to_equations. lia.
Qed.

Lemma INT32_BE_be32 (n : Z) : 0 <= n < 2 ^ 31 -> Token.INT32_BE (be32 n) 0 = n.
Proof.
  intros Hn. unfold Token.INT32_BE.
  rewrite UINT32_BE_be32 by (change (2 ^ 32) with (2 * 2 ^ 31); lia).
  apply toInt32_small. lia.
Qed.

Lemma pngChunks_walk (H : Host) (key rest : list Z) (n : Z) :
  decodesAscii H "latin1" ->
  key = lit "IDAT" \/ key = lit "acTL" -> 0 <= n < 2 ^ 31 ->
  forall (pre : list Chunk) (fuel : nat) (st : State),
    Forall passedChunk pre -> (List.length pre < fuel)%nat ->
    (pre = [] \/ rest <> []) ->
    Sees st (List.concat (map chunkBytes pre) ++ be32 n ++ key ++ rest) ->
    exists st',
      pngChunks H fuel st
      = Done (Some (if eqs key (lit "acTL") then apng else png)) st'.
Proof.
  intros Hdec Hkey Hn.
  assert (Hkey4 : List.length key = 4%nat) by (destruct Hkey as [-> | ->]; reflexivity).
  assert (Hkeya : Forall isAscii key)
    by (destruct Hkey as [-> | ->]; repeat constructor; unfold isAscii; cbn; lia).
  induction pre as [| c pre IH]; intros fuel st Hpre Hfuel Hrest HS.
  - destruct fuel as [| f]; [cbn in Hfuel; lia |].
    cbn [map List.concat app] in HS.
    destruct (readBuffer_sees 4 st (be32 n) (key ++ rest) HS eq_refl)
      as [st1 [E1 [HS1 _]]].
    destruct (readBuffer_sees 4 st1 key rest HS1 Hkey4) as [st2 [E2 _]].
    change (Z.of_nat 4) with 4 in E1, E2.
    cbn [pngChunks]. unfold bind at 1. rewrite E1. unfold bind at 1. rewrite E2.
    rewrite INT32_BE_be32 by exact Hn.
    destruct (n <? 0) eqn:En; [apply Z.ltb_lt in En; lia |].
    rewrite (Hdec key Hkeya).
    exists st2. destruct Hkey as [-> | ->]; reflexivity.
  - destruct fuel as [| f]; [cbn in Hfuel; lia |].
    inversion Hpre as [| ? ? Hc Hpre']; subst.
    destruct Hc as [Ht4 [Hta [Hni [Hna [Hlen Hcrc]]]]].
    assert (Hr : rest <> []) by (destruct Hrest as [Hnil | Hr]; [discriminate | exact Hr]).
    cbn [map List.concat] in HS. unfold chunkBytes in HS at 1.
    rewrite <- !app_assoc in HS.
    set (REST := List.concat (map chunkBytes pre) ++ be32 n ++ key ++ rest) in *.
    destruct (readBuffer_sees 4 st _ _ HS eq_refl) as [st1 [E1 [HS1 _]]].
    destruct (readBuffer_sees 4 st1 _ _ HS1 Ht4) as [st2 [E2 [HS2 _]]].
    rewrite app_assoc in HS2.
    destruct (ignore_sees (List.length (chunkData c) + 4) st2 _ _ HS2
                ltac:(rewrite length_app; lia))
      as [st3 [E3 [HS3 _]]].
    change (Z.of_nat 4) with 4 in E1, E2.
    rewrite Nat2Z.inj_add in E3. change (Z.of_nat 4) with 4 in E3.
    cbn [pngChunks]. unfold bind at 1. rewrite E1. unfold bind at 1. rewrite E2.
    rewrite INT32_BE_be32 by lia.
    destruct (Z.of_nat (List.length (chunkData c)) <? 0) eqn:En;
      [apply Z.ltb_lt in En; lia |].
    rewrite (Hdec (chunkType c) Hta).
    rewrite (eqs_neq _ _ Hni), (eqs_neq _ _ Hna).
    unfold bind at 1. rewrite E3.
    unfold bind, Tok.getPosition, Tok.getSize.
    destruct HS3 as [Hp3 [Hrem3 Hsize3]].
    assert (HL : 9 <= Z.of_nat (List.length REST)).
    { unfold REST. rewrite !length_app. cbn [be32 List.length].
      destruct rest; [congruence |]. cbn [List.length]. lia. }
    destruct (position (tokenizer st3) + 8 <? Tok.fileSize (tokenizer st3)) eqn:Ec;
      [| apply Z.ltb_ge in Ec; lia].
    apply IH.
    + exact Hpre'.
    + cbn [List.length] in Hfuel. lia.
    + right. exact Hr.
    + split; [exact Hp3 | split; [exact Hrem3 | exact Hsize3]].
Qed.

Lemma entryState_sees (t : Tokenizer) (bytes : list Z) :
  0 <= position t -> Tok.remaining t = bytes ->
  position t + Z.of_nat (List.length bytes) <= Tok.fileSize t ->
  Sees (entryState t) bytes.
Proof.
  intros Hp Hrem Hsize. split; [exact Hp | split; [exact Hrem | exact Hsize]].
Qed.

Lemma detectConfident_png (H : Host) (options : Options) (fuel : nat)
    (t : Tokenizer) (buf : list Z) (pre : list Chunk) (key rest : list Z) (n : Z) :
  decodesAscii H "latin1" ->
  key = lit "IDAT" \/ key = lit "acTL" -> 0 <= n < 2 ^ 31 ->
  Forall passedChunk pre -> (List.length pre < fuel)%nat ->
  (pre = [] \/ rest <> []) ->
  Sees (entryState t)
       (pngSignature ++ List.concat (map chunkBytes pre) ++ be32 n ++ key ++ rest) ->
  exists st',
    detectConfident H options (S fuel) (mkState t buf)
    = Done (Some (if eqs key (lit "acTL") then apng else png)) st'.
Proof.
  intros Hdec Hkey Hn Hpre Hfuel Hrest HS.
  pose proof HS as [_ [Hrem _]].
  change (Tok.remaining (tokenizer (entryState t))) with (Tok.remaining t) in Hrem.
  rewrite detectConfident_entry.
  unfold body, confidentStatements, bind.
  rewrite <- (firstn_skipn 76 (statements32 _ _ _ _)), <- app_assoc.
  rewrite block_skip.
  2:{ cbn [firstn statements32]. unfold entryState, sample32. rewrite Hrem.
      cbn [pngSignature app]. repeat constructor. }
  cbn [skipn statements32 app block].
  assert (Hcond : chk [0x89; 0x50; 0x4e; 0x47; 0x0d; 0x0a; 0x1a; 0x0a]
                      (buffer (entryState t)) = true).
  { unfold entryState, sample32. cbn [buffer]. rewrite Hrem. reflexivity. }
  unfold pngArm, when. rewrite Hcond.
  destruct (ignore_sees 8 (entryState t) pngSignature _ HS eq_refl) as [st1 [E1 [HS1 _]]].
  change (Z.of_nat 8) with 8 in E1.
  unfold bind at 1. rewrite E1.
  destruct (pngChunks_walk H key rest n Hdec Hkey Hn pre fuel st1 Hpre Hfuel Hrest HS1)
    as [st' E'].
  unfold returnOf, bind. rewrite E'. exists st'. reflexivity.
Qed.

(** X13. The PNG arm tells an animated PNG by the chunk that comes first.
    For a buffer made of the PNG signature, chunks of other types (each
    with its length, four ASCII type characters, data and checksum) and
    then the header of an IDAT or an acTL chunk, detection without custom
    detectors returns apng when that chunk is acTL and png when it is IDAT:
    apng exactly when an acTL chunk comes before the first IDAT chunk.  The
    host's latin1 decoder is taken to read ASCII bytes as themselves, and
    when chunks were passed over, at least one byte follows the header
    found. *)
Theorem fromBuffer_png_chunk_walk (H : Host) (tol : Z) (fuel : nat)
    (pre : list Chunk) (key rest : list Z) (n : Z) :
  decodesAscii H "latin1" ->
  key = lit "IDAT" \/ key = lit "acTL" -> 0 <= n < 2 ^ 31 ->
  Forall passedChunk pre -> (List.length pre < fuel)%nat ->
  (pre = [] \/ rest <> []) ->
  resultOf (fromBuffer H (mkOptions tol []) (S fuel)
              (pngSignature ++ List.concat (map chunkBytes pre) ++ be32 n ++ key ++ rest))
  = Some (Some (if eqs key (lit "acTL") then apng else png)).
Proof.
  intros Hdec Hkey Hn Hpre Hfuel Hrest.
  set (input := pngSignature ++ List.concat (map chunkBytes pre) ++ be32 n ++ key ++ rest).
  assert (HS : Sees (entryState (Tok.fromBuffer input)) input).
  { apply entryState_sees; [cbn; lia | reflexivity |].
    unfold Tok.fileSize, Tok.fromBuffer. cbn [position size nullish]. lia. }
  destruct (detectConfident_png H (mkOptions tol []) fuel (Tok.fromBuffer input) freshBuffer
              pre key rest n Hdec Hkey Hn Hpre Hfuel Hrest HS) as [st' E].
  unfold fromBuffer, fromBufferTraced.
  destruct (1 <? Z.of_nat (List.length input)) eqn:El.
  2:{ apply Z.ltb_ge in El. unfold input in El. rewrite length_app in El.
      cbn [pngSignature List.length] in El. lia. }
  cbn [negb]. unfold fromTokenizerTraced, detectors, detectorsWith.
  cbn [customDetectors map app runDetectors run rid].
  change (newParser (Tok.fromBuffer input)) with (mkState (Tok.fromBuffer input) freshBuffer).
  rewrite E. destruct (eqs key (lit "acTL")); reflexivity.
Qed.

Lemma plain_decodesAscii (label : string) :
  label <> "utf8"%string -> label <> "utf-8"%string ->
  label <> "utf-16le"%string -> label <> "utf-16be"%string ->
  decodesAscii Hosts.plain label.
Proof.
  intros H1 H2 H3 H4 bytes Hb. cbn [Hosts.plain decodeText]. unfold TextDecoder.decode.
  apply String.eqb_neq in H1, H2, H3, H4. rewrite H1, H2, H3, H4. cbn [orb].
  unfold TextDecoder.windows1252.
  induction Hb as [| b bytes Hb _ IH]; [reflexivity |].
  cbn [map]. rewrite IH. unfold isAscii in Hb.
  destruct (0x80 <=? b) eqn:E; [apply Z.leb_le in E; lia | reflexivity].
Qed.

Lemma fromBuffer_png_chunk_walk_witness :
  resultOf (fromBuffer Hosts.plain (mkOptions 0 []) 4
              (pngSignature ++ List.concat (map chunkBytes [ihdr; gama])
               ++ be32 8 ++ lit "acTL" ++ [0; 0; 0; 1; 0; 0; 0; 0]))
  = Some (Some apng).
Proof.
  assert (Hdec : decodesAscii Hosts.plain "latin1")
    by (apply plain_decodesAscii; discriminate).
  assert (Hpre : Forall passedChunk [ihdr; gama]).
  { repeat constructor; cbn; unfold isAscii; try lia; discriminate. }
  assert (Hfuel : (List.length [ihdr; gama] < 3)%nat) by (cbn; lia).
  assert (Hn : 0 <= 8 < 2 ^ 31) by lia.
  assert (Hrest : [ihdr; gama] = [] \/ [0; 0; 0; 1; 0; 0; 0; 0] <> [])
    by (right; discriminate).
  pose proof (fromBuffer_png_chunk_walk Hosts.plain 0 3 [ihdr; gama] (lit "acTL")
           [0; 0; 0; 1; 0; 0; 0; 0] 8 Hdec (or_intror eq_refl) Hn Hpre Hfuel Hrest) as W.
  exact W.
Defined.

(** ** The directory walk of the TIFF arm *)

Lemma UINT16_u16 (bigEndian : bool) (n : Z) (tail : list Z) :
  0 <= n < 65536 -> Token.UINT16 bigEndian (u16 bigEndian n ++ tail) 0 = n.
Proof.
  intros Hn. destruct bigEndian; cbn [u16 app Token.UINT16].
  - change (Token.UINT16_BE (?a :: ?b :: tail) 0) with (256 * a + b).
    Z.div_mod_to_equations. lia.
  - change (Token.UINT16_LE (?a :: ?b :: tail) 0) with (a + 256 * b).
    Z.div_mod_to_equations. lia.
Qed.

Lemma u16_length (bigEndian : bool) (n : Z) : List.length (u16 bigEndian n) = 2%nat.
Proof. destruct bigEndian; reflexivity. Qed.

Lemma readTiffTag_entry (bigEndian : bool) (e : TiffEntry) (st : State) (rest : list Z) :
  wellFormedEntry e ->
  Sees st (entryBytes bigEndian e ++ rest) ->
  exists st',
    readTiffTag bigEndian st = Done (rawType (entryTag e)) st' /\ Sees st' rest.
Proof.
  intros [Htag Hlen] HS. unfold entryBytes in HS. rewrite <- app_assoc in HS.
  destruct (readBuffer_sees 2 st _ _ HS (u16_length bigEndian _)) as [st1 [E1 [HS1 _]]].
  destruct (ignore_sees 10 st1 _ _ HS1 Hlen) as [st2 [E2 [HS2 _]]].
  change (Z.of_nat 2) with 2 in E1. change (Z.of_nat 10) with 10 in E2.
  unfold readTiffTag, bind. rewrite E1, E2.
  rewrite <- (app_nil_r (u16 bigEndian (entryTag e))).
  rewrite UINT16_u16 by exact Htag.
  exists st2. split; [reflexivity | exact HS2].
Qed.

Lemma readTiffTags_walk (bigEndian : bool) (rest : list Z) :
  forall (entries : list TiffEntry) (st : State),
    Forall wellFormedEntry entries ->
    Sees st (List.concat (map (entryBytes bigEndian) entries) ++ rest) ->
    exists st',
      readTiffTags bigEndian (List.length entries) st = Done (firstRaw entries) st'.
Proof.
  induction entries as [| e entries IH]; intros st Hwf HS.
  - exists st. reflexivity.
  - inversion Hwf as [| ? ? He Hwf']; subst.
    cbn [map List.concat] in HS. rewrite <- app_assoc in HS.
    destruct (readTiffTag_entry bigEndian e st _ He HS) as [st1 [E1 HS1]].
    cbn [List.length readTiffTags firstRaw]. unfold bind. rewrite E1.
    destruct (rawType (entryTag e)) as [type |].
    + exists st1. reflexivity.
    + apply IH; assumption.
Qed.

Lemma readTiffIFD_walk (bigEndian : bool) (entries : list TiffEntry) (rest : list Z)
    (st : State) :
  Forall wellFormedEntry entries -> Z.of_nat (List.length entries) < 65536 ->
  Sees st (u16 bigEndian (Z.of_nat (List.length entries))
           ++ List.concat (map (entryBytes bigEndian) entries) ++ rest) ->
  exists st', readTiffIFD bigEndian st = Done (firstRaw entries) st'.
Proof.
  intros Hwf Hcount HS.
  destruct (readBuffer_sees 2 st _ _ HS (u16_length bigEndian _)) as [st1 [E1 [HS1 _]]].
  change (Z.of_nat 2) with 2 in E1.
  unfold readTiffIFD, bind. rewrite E1.
  rewrite <- (app_nil_r (u16 bigEndian _)).
  rewrite UINT16_u16 by lia.
  destruct (Z.of_nat (List.length entries) =? 0) eqn:E0.
  - apply Z.eqb_eq in E0. destruct entries; [| cbn [List.length] in E0; lia].
    exists st1. reflexivity.
  - rewrite Nat2Z.id. exact (readTiffTags_walk bigEndian rest entries st1 Hwf HS1).
Qed.

Lemma tiff_not_canon (bigEndian : bool) (n : Z) (head tail : list Z) :
  List.length head = 8%nat ->
  u16 bigEndian n <> lit "CR" ->
  strAt "CR" 8 (head ++ u16 bigEndian n ++ tail) = false.
Proof.
  intros Hh Hne.
  do 8 (destruct head as [| ? head]; [discriminate |]).
  destruct head; [| discriminate].
  unfold strAt, checkString, check, _check.
  destruct bigEndian; cbn [u16 app] in *.
  - change (stringToBytes (lit "CR") None) with [0x43; 0x52].
    cbn [nullish checkFrom].
    change (get (?a0 :: ?a1 :: ?a2 :: ?a3 :: ?a4 :: ?a5 :: ?a6 :: ?a7 :: ?c0 :: ?c1 :: tail) (0 + 8))
      with (Some c0).
    change (get (?a0 :: ?a1 :: ?a2 :: ?a3 :: ?a4 :: ?a5 :: ?a6 :: ?a7 :: ?c0 :: ?c1 :: tail) (0 + 1 + 8))
      with (Some c1).
    cbv beta iota.
    destruct (0x43 =? _) eqn:E1; [| reflexivity].
    destruct (0x52 =? _) eqn:E2; [| reflexivity].
    apply Z.eqb_eq in E1, E2. exfalso. apply Hne. rewrite <- E1, <- E2. reflexivity.
  - change (stringToBytes (lit "CR") None) with [0x43; 0x52].
    cbn [nullish checkFrom].
    change (get (?a0 :: ?a1 :: ?a2 :: ?a3 :: ?a4 :: ?a5 :: ?a6 :: ?a7 :: ?c0 :: ?c1 :: tail) (0 + 8))
      with (Some c0).
    change (get (?a0 :: ?a1 :: ?a2 :: ?a3 :: ?a4 :: ?a5 :: ?a6 :: ?a7 :: ?c0 :: ?c1 :: tail) (0 + 1 + 8))
      with (Some c1).
    cbv beta iota.
    destruct (0x43 =? _) eqn:E1; [| reflexivity].
    destruct (0x52 =? _) eqn:E2; [| reflexivity].
    apply Z.eqb_eq in E1, E2. exfalso. apply Hne. rewrite <- E1, <- E2. reflexivity.
Qed.

Lemma sample32_cells (t : Tokenizer) (a X : list Z) :
  Tok.remaining t = a ++ X -> (List.length a <= 32)%nat ->
  exists tail, sample32 t = a ++ tail.
Proof.
  intros Hrem Hlen. unfold sample32. rewrite Hrem.
  rewrite firstn_app, (firstn_all2 a) by lia.
  rewrite <- app_assoc. eexists. reflexivity.
Qed.

Lemma u16_value (bigEndian : bool) (n : Z) :
  0 <= n < 65536 ->
  exists c0 c1, u16 bigEndian n = [c0; c1]
                /\ (if bigEndian then 256 * c0 + c1 else c0 + 256 * c1) = n.
Proof.
  intros Hn. destruct bigEndian; cbn [u16]; eexists _, _; (split; [reflexivity |]);
    Z.div_mod_to_equations; lia.
Qed.

Lemma readTiffHeader_directory (bigEndian : bool) (entries : list TiffEntry)
    (rest : list Z) (t : Tokenizer) :
  Forall wellFormedEntry entries -> Z.of_nat (List.length entries) < 65536 ->
  u16 bigEndian (Z.of_nat (List.length entries)) <> lit "CR" ->
  nikonLike entries = false ->
  Sees (entryState t)
       (tiffHeader bigEndian ++ u16 bigEndian (Z.of_nat (List.length entries))
        ++ List.concat (map (entryBytes bigEndian) entries) ++ rest) ->
  exists st',
    readTiffHeader bigEndian (entryState t)
    = Done (Some (nullish (firstRaw entries) tif)) st'.
Proof.
  intros Hwf Hcount Hcr Hnef HS.
  pose proof HS as [_ [Hrem _]].
  change (Tok.remaining (tokenizer (entryState t))) with (Tok.remaining t) in Hrem.
  set (count := Z.of_nat (List.length entries)) in *.
  (* the cells of the sample the header reader looks at *)
  assert (Hcells : exists tail,
             sample32 t = tiffHeader bigEndian ++ u16 bigEndian count ++ tail
             /\ (forall e es, entries = e :: es ->
                   exists tail', tail = u16 bigEndian (entryTag e) ++ tail')).
  { destruct entries as [| e es].
    - rewrite app_assoc in Hrem.
      destruct (sample32_cells t _ _ Hrem) as [tail Ht].
      { rewrite length_app, u16_length. destruct bigEndian; cbn; lia. }
      exists tail. rewrite <- app_assoc in Ht. split; [exact Ht | discriminate].
    - assert (Hrem' : Tok.remaining t
                      = (tiffHeader bigEndian ++ u16 bigEndian count
                         ++ u16 bigEndian (entryTag e))
                        ++ (entryFields e
                            ++ List.concat (map (entryBytes bigEndian) es) ++ rest)).
      { rewrite Hrem. cbn [map List.concat]. unfold entryBytes.
        rewrite <- !app_assoc. reflexivity. }
      destruct (sample32_cells t _ _ Hrem') as [tail Ht].
      { rewrite !length_app, !u16_length. destruct bigEndian; cbn; lia. }
      exists (u16 bigEndian (entryTag e) ++ tail).
      rewrite <- !app_assoc in Ht. split; [exact Ht |].
      intros e' es' E. injection E as <- <-. exists tail. reflexivity. }
  destruct Hcells as [tail [HB Htail]].
  assert (Hcanon : strAt "CR" 8 (sample32 t) = false).
  { rewrite HB. apply tiff_not_canon; [destruct bigEndian; reflexivity | exact Hcr]. }
  destruct (ignore_sees 8 (entryState t) _ _ HS ltac:(destruct bigEndian; reflexivity))
    as [st1 [E1 [HS1 _]]].
  change (Z.of_nat 8) with 8 in E1.
  destruct (readTiffIFD_walk bigEndian entries rest st1 Hwf Hcount HS1) as [st' E'].
  destruct (u16_value bigEndian count ltac:(unfold count; lia)) as [c0 [c1 [Hu Hval]]].
  assert (Hnikon :
            ((Token.UINT16 bigEndian (sample32 t) 8 =? 0x1c)
             && (Token.UINT16 bigEndian (sample32 t) 10 =? 0xfe))
            || ((Token.UINT16 bigEndian (sample32 t) 8 =? 0x1f)
                && (Token.UINT16 bigEndian (sample32 t) 10 =? 0x0b)) = false).
  { assert (H8 : Token.UINT16 bigEndian (sample32 t) 8 = count).
    { rewrite HB, Hu. rewrite <- Hval. destruct bigEndian; reflexivity. }
    rewrite H8.
    destruct entries as [| e es].
    - unfold count. cbn [List.length Z.of_nat]. reflexivity.
    - destruct (Htail e es eq_refl) as [tail' ->].
      inversion Hwf as [| ? ? [He _] _]; subst.
      destruct (u16_value bigEndian (entryTag e) He) as [t0 [t1 [Hu' Hval']]].
      assert (H10 : Token.UINT16 bigEndian (sample32 t) 10 = entryTag e).
      { rewrite HB, Hu, Hu'. rewrite <- Hval'. destruct bigEndian; reflexivity. }
      rewrite H10. exact Hnef. }
  exists st'.
  unfold readTiffHeader.
  change (buffer (entryState t)) with (sample32 t).
  assert (Hv : Token.UINT16 bigEndian (sample32 t) 2 = 42).
  { rewrite HB. destruct bigEndian; reflexivity. }
  assert (Ho : Token.UINT32 bigEndian (sample32 t) 4 = 8).
  { rewrite HB. destruct bigEndian; reflexivity. }
  rewrite Hv, Ho, Hcanon, Hnikon.
  change (42 =? 42) with true. cbv iota.
  change ((6 <=? 8) && false) with false. cbv iota.
  change ((6 <=? 8) && (8 <=? 8) && false) with false. cbv iota.
  unfold bind. rewrite E1, E'. reflexivity.
Qed.

Lemma detectConfident_tiff (H : Host) (options : Options) (fuel : nat)
    (bigEndian : bool) (entries : list TiffEntry) (rest : list Z)
    (t : Tokenizer) (buf : list Z) :
  Forall wellFormedEntry entries -> Z.of_nat (List.length entries) < 65536 ->
  u16 bigEndian (Z.of_nat (List.length entries)) <> lit "CR" ->
  nikonLike entries = false ->
  Sees (entryState t)
       (tiffHeader bigEndian ++ u16 bigEndian (Z.of_nat (List.length entries))
        ++ List.concat (map (entryBytes bigEndian) entries) ++ rest) ->
  exists st',
    detectConfident H options (S fuel) (mkState t buf)
    = Done (Some (nullish (firstRaw entries) tif)) st'.
Proof.
  intros Hwf Hcount Hcr Hnef HS.
  destruct (readTiffHeader_directory bigEndian entries rest t Hwf Hcount Hcr Hnef HS)
    as [st' E'].
  pose proof HS as [_ [Hrem _]].
  change (Tok.remaining (tokenizer (entryState t))) with (Tok.remaining t) in Hrem.
  exists st'.
  rewrite detectConfident_entry.
  unfold body, confidentStatements, bind.
  destruct bigEndian.
  - rewrite <- (firstn_skipn 38 (statements32 _ _ _ _)), <- app_assoc.
    rewrite block_skip.
    2:{ cbn [firstn statements32]. unfold entryState, sample32. rewrite Hrem.
        cbn [tiffHeader app]. repeat constructor. }
    cbn [skipn statements32 app block].
    assert (Hcond : chk [0x4d; 0x4d] (buffer (entryState t)) = true).
    { unfold entryState, sample32. cbn [buffer]. rewrite Hrem. reflexivity. }
    unfold tiffArm, when. rewrite Hcond.
    unfold bind. rewrite E'. reflexivity.
  - rewrite <- (firstn_skipn 37 (statements32 _ _ _ _)), <- app_assoc.
    rewrite block_skip.
    2:{ cbn [firstn statements32]. unfold entryState, sample32. rewrite Hrem.
        cbn [tiffHeader app]. repeat constructor. }
    cbn [skipn statements32 app block].
    assert (Hcond : chk [0x49; 0x49] (buffer (entryState t)) = true).
    { unfold entryState, sample32. cbn [buffer]. rewrite Hrem. reflexivity. }
    unfold tiffArm, when. rewrite Hcond.
    unfold bind. rewrite E'. reflexivity.
Qed.

(** X14. The TIFF arm walks the first image file directory.  For a buffer
    made of a TIFF header of either byte order whose directory follows it
    (version 42, directory offset 8), the number of entries and the entries
    of twelve bytes each, detection without custom detectors returns the raw
    format of the first entry whose tag stands for one (50341 is arw, 50706
    is dng) and tif when there is none, also for an empty directory.  This
    holds when the two bytes of the entry count are not the letters CR and
    the directory does not begin like a Nikon file (28 entries with the
    first tag 254, or 31 entries with the first tag 11), the cases the
    header reader answers before it walks. *)
Theorem fromBuffer_tiff_directory (H : Host) (tol : Z) (fuel : nat)
    (bigEndian : bool) (entries : list TiffEntry) (rest : list Z) :
  Forall wellFormedEntry entries -> Z.of_nat (List.length entries) < 65536 ->
  u16 bigEndian (Z.of_nat (List.length entries)) <> lit "CR" ->
  nikonLike entries = false ->
  resultOf (fromBuffer H (mkOptions tol []) (S fuel)
              (tiffHeader bigEndian ++ u16 bigEndian (Z.of_nat (List.length entries))
               ++ List.concat (map (entryBytes bigEndian) entries) ++ rest))
  = Some (Some (nullish (firstRaw entries) tif)).
Proof.
  intros Hwf Hcount Hcr Hnef.
  set (input := tiffHeader bigEndian ++ u16 bigEndian (Z.of_nat (List.length entries))
                ++ List.concat (map (entryBytes bigEndian) entries) ++ rest).
  assert (HS : Sees (entryState (Tok.fromBuffer input)) input).
  { apply entryState_sees; [cbn; lia | reflexivity |].
    unfold Tok.fileSize, Tok.fromBuffer. cbn [position size nullish]. lia. }
  destruct (detectConfident_tiff H (mkOptions tol []) fuel bigEndian entries rest
              (Tok.fromBuffer input) freshBuffer Hwf Hcount Hcr Hnef HS) as [st' E].
  unfold fromBuffer, fromBufferTraced.
  destruct (1 <? Z.of_nat (List.length input)) eqn:El.
  2:{ apply Z.ltb_ge in El. unfold input in El. rewrite length_app in El.
      destruct bigEndian; cbn [tiffHeader List.length] in El; lia. }
  cbn [negb]. unfold fromTokenizerTraced, detectors, detectorsWith.
  cbn [customDetectors map app runDetectors run rid].
  change (newParser (Tok.fromBuffer input)) with (mkState (Tok.fromBuffer input) freshBuffer).
  rewrite E. reflexivity.
Qed.

Lemma fromBuffer_tiff_directory_witness :
  resultOf (fromBuffer Hosts.plain (mkOptions 0 []) 1
              (tiffHeader false ++ u16 false (Z.of_nat (List.length dngEntries))
               ++ List.concat (map (entryBytes false) dngEntries) ++ [0; 0; 0; 0]))
  = Some (Some (mkFileType "dng" "image/x-adobe-dng")).
Proof.
  assert (Hwf : Forall wellFormedEntry dngEntries).
  { repeat constructor; cbn; lia. }
  assert (Hcount : Z.of_nat (List.length dngEntries) < 65536) by (cbn; lia).
  assert (Hcr : u16 false (Z.of_nat (List.length dngEntries)) <> lit "CR")
    by (cbn; discriminate).
  pose proof (fromBuffer_tiff_directory Hosts.plain 0 0 false dngEntries [0; 0; 0; 0]
                Hwf Hcount Hcr eq_refl) as W.
  exact W.
Defined.

(** ** The element walk of the EBML arm *)

Lemma in_seq_Z (lo len : nat) (z : Z) :
  Z.of_nat lo <= z < Z.of_nat lo + Z.of_nat len -> exists n, In n (seq lo len) /\ z = Z.of_nat n.
Proof.
  intros Hz. exists (Z.to_nat z). split; [apply in_seq; lia | lia].
Qed.

Lemma fieldWidth_table :
  forallb (fun w =>
    forallb (fun b =>
      negb ((2 ^ (8 - Z.of_nat w) <=? Z.of_nat b) && (Z.of_nat b <? 2 ^ (9 - Z.of_nat w)))
      || ((fieldWidth (Z.of_nat b) 0x80 0 9 =? Z.of_nat w - 1)
          && (bitXor (Z.of_nat b) (shr 0x80 (Z.of_nat w - 1)) mod 256
              =? Z.of_nat b - 2 ^ (8 - Z.of_nat w))))
      (seq 0 256))
    (seq 1 8) = true.
Proof. vm_compute. reflexivity. Qed.

Lemma fieldWidth_marker (w : nat) (b : Z) :
  (1 <= w <= 8)%nat -> isByte b ->
  2 ^ (8 - Z.of_nat w) <= b < 2 ^ (9 - Z.of_nat w) ->
  fieldWidth b 0x80 0 9 = Z.of_nat w - 1
  /\ bitXor b (shr 0x80 (Z.of_nat w - 1)) mod 256 = b - 2 ^ (8 - Z.of_nat w).
Proof.
  intros Hw Hb Hm.
  pose proof fieldWidth_table as T. rewrite forallb_forall in T.
  specialize (T w ltac:(apply in_seq; lia)). rewrite forallb_forall in T.
  destruct (in_seq_Z 0 256 b ltac:(unfold isByte in Hb; lia)) as [n [Hn ->]].
  specialize (T n Hn).
  destruct (2 ^ (8 - Z.of_nat w) <=? Z.of_nat n) eqn:E1; [| apply Z.leb_gt in E1; lia].
  destruct (Z.of_nat n <? 2 ^ (9 - Z.of_nat w)) eqn:E2; [| apply Z.ltb_ge in E2; lia].
  cbn [andb negb orb] in T. apply andb_true_iff in T. destruct T as [T1 T2].
  apply Z.eqb_eq in T1, T2. split; assumption.
Qed.

Lemma readField_field (w : nat) (field rest : list Z) (st : State) :
  headerField w field -> Sees st (field ++ rest) ->
  exists st', readField st = Done field st' /\ Sees st' rest.
Proof.
  intros [Hlen [Hw [Hbytes Hmark]]] HS.
  destruct field as [| b field']; [cbn in Hlen; lia |].
  cbn [hd] in Hmark.
  assert (Hb : isByte b) by (inversion Hbytes; assumption).
  destruct (fieldWidth_marker w b Hw Hb Hmark) as [Hfw _].
  destruct (readBuffer_sees w st _ _ HS Hlen) as [st' [E [HS' _]]].
  exists st'. split; [| exact HS'].
  unfold readField, bind, Tok.peekUint8.
  destruct HS as [_ [Hrem _]]. rewrite Hrem. cbn [app].
  rewrite Hfw. replace (Z.of_nat w - 1 + 1) with (Z.of_nat w) by lia. exact E.
Qed.

Lemma size_decode (w : nat) (field : list Z) :
  headerField w field ->
  nullish (Token.getUintBE
             (subarray (bitXor (nth 0 field 0)
                               (shr 0x80 (Z.of_nat (List.length field) - 1)) mod 256
                        :: tl field)
                       (Z.of_nat (List.length field)
                        - Z.min 6 (Z.of_nat (List.length field)))
                       (Z.of_nat (List.length field)))) 0
  = fieldNumber field mod 2 ^ 48.
Proof.
  intros [Hlen [Hw [Hbytes Hmark]]].
  destruct field as [| b0 field]; [cbn in Hlen; lia |].
  cbn [hd] in Hmark. cbn [nth tl].
  assert (Hb0 : isByte b0) by (inversion Hbytes; assumption).
  destruct (fieldWidth_marker w b0 Hw Hb0 Hmark) as [_ Hx].
  rewrite Hlen, Hx. clear Hx.
  assert (Hrest : Forall isByte field) by (inversion Hbytes; assumption).
  unfold fieldNumber, beValue. rewrite Hlen.
  destruct w as [| [| [| [| [| [| [| [| [| w]]]]]]]]]; try (cbn in Hw; lia).
  all: cbn [List.length] in Hlen.
  all: repeat (destruct field as [| ? field]; cbn [List.length] in Hlen; try discriminate Hlen).
  all: repeat match goal with
              | H : Forall isByte (_ :: _) |- _ => inversion H; clear H; subst
              end.
  all: unfold isByte in *.
  all: unfold subarray, Token.getUintBE.
  all: cbn in Hmark; cbn.
  all: repeat match goal with
              | |- context [Pos.to_nat ?p] =>
                  let v := eval vm_compute in (Pos.to_nat p) in
                  change (Pos.to_nat p) with v
              end.
  all: cbn.
  all: Z.div_mod_to_equations; lia.
Qed.

Lemma getUintBE_field (w : nat) (field : list Z) :
  headerField w field ->
  Token.getUintBE field = if (w <=? 6)%nat then Some (beValue field) else None.
Proof.
  intros [Hlen [Hw _]]. unfold Token.getUintBE. rewrite Hlen.
  destruct (w <=? 6)%nat eqn:E.
  - apply Nat.leb_le in E.
    destruct (1 <=? Z.of_nat w) eqn:E1; [| apply Z.leb_gt in E1; lia].
    destruct (Z.of_nat w <=? 6) eqn:E2; [| apply Z.leb_gt in E2; lia].
    reflexivity.
  - apply Nat.leb_gt in E.
    destruct (Z.of_nat w <=? 6) eqn:E2; [apply Z.leb_le in E2; lia |].
    rewrite andb_false_r. reflexivity.
Qed.

(** The step of the walk over the children of the EBML header: one element
    header read, with the state after it. *)
Lemma readElement_header_aux (w1 w2 : nat) (ids sizes rest : list Z) (st : State) :
  headerField w1 ids -> headerField w2 sizes ->
  Sees st (ids ++ sizes ++ rest) ->
  exists st',
    readElement st
    = Done (if (w1 <=? 6)%nat then Some (beValue ids) else None,
            fieldNumber sizes mod 2 ^ 48) st'
    /\ Sees st' rest.
Proof.
  intros Hid Hsize HS.
  destruct (readField_field w1 ids _ st Hid HS) as [st1 [E1 HS1]].
  destruct (readField_field w2 sizes _ st1 Hsize HS1) as [st2 [E2 HS2]].
  exists st2. split; [| exact HS2].
  unfold readElement, bind. rewrite E1, E2. unfold ret.
  rewrite (getUintBE_field w1 ids Hid), (size_decode w2 sizes Hsize). reflexivity.
Qed.

(** X15. The header of an EBML element is read as two self-delimiting
    fields.  When the bytes at the cursor are an id field and a size field
    (the zero bits in front of the marker bit of the first byte give the
    width, one to eight bytes), [readElement] consumes exactly these two
    fields; the id is the number the id field spells, marker included, and
    is missing for an id of more than six bytes; the length is the number
    of the size field without its marker bit, reduced modulo 2^48: of a
    size field of seven or eight bytes only the six low bytes count. *)
Theorem readElement_header (w1 w2 : nat) (ids sizes rest : list Z) (st : State) :
  headerField w1 ids -> headerField w2 sizes ->
  Sees st (ids ++ sizes ++ rest) ->
  exists st',
    readElement st
    = Done (if (w1 <=? 6)%nat then Some (beValue ids) else None,
            fieldNumber sizes mod 2 ^ 48) st'
    /\ Sees st' rest.
Proof.
  intros Hid Hsize HS.
  destruct (readField_field w1 ids _ st Hid HS) as [st1 [E1 HS1]].
  destruct (readField_field w2 sizes _ st1 Hsize HS1) as [st2 [E2 HS2]].
  exists st2. split; [| exact HS2].
  unfold readElement, bind. rewrite E1, E2. unfold ret.
  rewrite (getUintBE_field w1 ids Hid), (size_decode w2 sizes Hsize). reflexivity.
Qed.

Lemma readElement_header_witness :
  exists st',
    readElement (newParser (Tok.fromBuffer [0x42; 0x82; 0x84; 0x77; 0x65; 0x62; 0x6d]))
    = Done (Some 0x4282, 4) st'
    /\ Sees st' [0x77; 0x65; 0x62; 0x6d].
Proof.
  assert (Hid : headerField 2 [0x42; 0x82]).
  { split; [reflexivity | split; [lia | split]].
    - repeat constructor; unfold isByte; lia.
    - cbn. lia. }
  assert (Hsize : headerField 1 [0x84]).
  { split; [reflexivity | split; [lia | split]].
    - repeat constructor; unfold isByte; lia.
    - cbn. lia. }
  assert (HS : Sees (newParser (Tok.fromBuffer [0x42; 0x82; 0x84; 0x77; 0x65; 0x62; 0x6d]))
                    ([0x42; 0x82] ++ [0x84] ++ [0x77; 0x65; 0x62; 0x6d])).
  { split; [cbn; lia | split; [reflexivity | cbn; lia]]. }
  pose proof (readElement_header 2 1 [0x42; 0x82] [0x84] [0x77; 0x65; 0x62; 0x6d] _
                Hid Hsize HS) as W.
  exact W.
Defined.

Lemma docType_case {A : Type} (o : option Z) (a b : A) :
  o <> Some 0x4282 ->
  match o with Some 0x4282 => a | _ => b end = b.
Proof.
  intros Hne. destruct o as [z |]; [| reflexivity].
  destruct z as [| p | p]; try reflexivity.
  repeat (destruct p as [p | p |]; try reflexivity).
  exfalso. apply Hne. reflexivity.
Qed.

Lemma replaceNulTail_padding (name : JSString) (k : nat) :
  Forall (fun c => c <> 0) name -> replaceNulTail (name ++ repeat 0 k) = name.
Proof.
  induction 1 as [| c name Hc _ IH]; cbn [app replaceNulTail].
  - destruct k as [| k]; [reflexivity |]. cbn [repeat replaceNulTail].
    assert (Hnl : forallb (fun d => negb (isLineTerminator d)) (repeat 0 k) = true).
    { induction k as [| k IHk]; [reflexivity |]. cbn [repeat forallb]. rewrite IHk. reflexivity. }
    rewrite Hnl. reflexivity.
  - destruct (c =? 0) eqn:E; [apply Z.eqb_eq in E; contradiction |].
    cbn [andb]. rewrite IH. reflexivity.
Qed.

Lemma readChildren_walk (H : Host) (wD : nat) (sizeD doc rest : list Z) :
  headerField wD sizeD ->
  Z.of_nat (List.length doc) = fieldNumber sizeD mod 2 ^ 48 ->
  forall (pre : list Element) (fuel : nat) (children : Z) (st : State),
    Forall passedElement pre -> (List.length pre < fuel)%nat ->
    Z.of_nat (List.length pre) < children ->
    Sees st (List.concat (map elementBytes pre) ++ [0x42; 0x82] ++ sizeD ++ doc ++ rest) ->
    exists st',
      readChildren H fuel children st
      = Done (Some (replaceNulTail (decodeText H "utf8" doc))) st'.
Proof.
  intros HsD Hdoc.
  assert (HidD : headerField 2 [0x42; 0x82]).
  { split; [reflexivity | split; [lia | split]].
    - repeat constructor; unfold isByte; lia.
    - cbn. lia. }
  induction pre as [| e pre IH]; intros fuel children st Hpre Hfuel Hch HS.
  - destruct fuel as [| f]; [cbn in Hfuel; lia |].
    cbn [map List.concat app] in HS.
    change (66 :: 130 :: sizeD ++ doc ++ rest) with ([0x42; 0x82] ++ sizeD ++ doc ++ rest) in HS.
    destruct (readElement_header_aux 2 wD _ _ _ st HidD HsD HS) as [st1 [E1 HS1]].
    cbn [List.length Z.of_nat] in Hch.
    cbn [readChildren].
    destruct (0 <? children) eqn:Ec; [| apply Z.ltb_ge in Ec; lia].
    unfold bind at 1. rewrite E1. cbn [fst snd Nat.leb].
    change (beValue [0x42; 0x82]) with 0x4282. cbv iota.
    rewrite <- Hdoc.
    destruct (readBuffer_sees (List.length doc) st1 doc rest HS1 eq_refl) as [st2 [E2 _]].
    unfold bind. rewrite E2. exists st2. reflexivity.
  - destruct fuel as [| f]; [cbn in Hfuel; lia |].
    inversion Hpre as [| ? ? He Hpre']; subst.
    destruct He as [[w1 Hid] [[w2 Hsz] [Hne Hpay]]].
    cbn [map List.concat] in HS. unfold elementBytes in HS at 1.
    rewrite <- !app_assoc in HS.
    destruct (readElement_header_aux w1 w2 _ _ _ st Hid Hsz HS) as [st1 [E1 HS1]].
    destruct (ignore_sees (List.length (payload e)) st1 _ _ HS1 eq_refl) as [st2 [E2 [HS2 _]]].
    rewrite Hpay in E2.
    cbn [List.length] in Hch, Hfuel.
    cbn [readChildren].
    destruct (0 <? children) eqn:Ec; [| apply Z.ltb_ge in Ec; lia].
    unfold bind at 1. rewrite E1. cbn [fst snd].
    rewrite docType_case.
    2:{ destruct (w1 <=? 6)%nat; [| discriminate]. congruence. }
    unfold bind at 1. rewrite E2.
    apply IH; [exact Hpre' | lia | lia | exact HS2].
Qed.

Lemma detectConfident_ebml (H : Host) (options : Options) (fuel : nat)
    (t : Tokenizer) (buf : list Z) (w0 wD : nat) (size0 sizeD : list Z)
    (pre : list Element) (name : JSString) (k : nat) (rest : list Z) :
  decodesAscii H "utf8" ->
  headerField w0 size0 -> headerField wD sizeD ->
  Forall passedElement pre -> (List.length pre < fuel)%nat ->
  Z.of_nat (List.length pre) < fieldNumber size0 mod 2 ^ 48 ->
  name = lit "webm" \/ name = lit "matroska" ->
  Z.of_nat (List.length (name ++ repeat 0 k)) = fieldNumber sizeD mod 2 ^ 48 ->
  Sees (entryState t)
       (ebmlSignature ++ size0 ++ List.concat (map elementBytes pre)
        ++ [0x42; 0x82] ++ sizeD ++ (name ++ repeat 0 k) ++ rest) ->
  exists st',
    detectConfident H options (S fuel) (mkState t buf) = Done (docType name) st'.
Proof.
  intros Hdec Hs0 HsD Hpre Hfuel Hch Hname Hlen HS.
  pose proof HS as [_ [Hrem _]].
  change (Tok.remaining (tokenizer (entryState t))) with (Tok.remaining t) in Hrem.
  assert (Hid0 : headerField 4 ebmlSignature).
  { split; [reflexivity | split; [lia | split]].
    - repeat constructor; unfold isByte; lia.
    - cbn. lia. }
  destruct (readElement_header_aux 4 w0 _ _ _ (entryState t) Hid0 Hs0 HS) as [st1 [E1 HS1]].
  destruct (readChildren_walk H wD sizeD (name ++ repeat 0 k) rest HsD Hlen pre fuel
              (fieldNumber size0 mod 2 ^ 48) st1 Hpre Hfuel Hch HS1) as [st2 E2].
  assert (Hascii : Forall isAscii (name ++ repeat 0 k)).
  { apply Forall_app. split.
    - destruct Hname as [-> | ->]; repeat constructor; unfold isAscii; cbn; lia.
    - clear. induction k as [| k IH]; [constructor |].
      cbn [repeat]. constructor; [unfold isAscii; lia | exact IH]. }
  assert (Hnz : Forall (fun c => c <> 0) name).
  { destruct Hname as [-> | ->]; repeat constructor; cbn; discriminate. }
  rewrite (Hdec _ Hascii), (replaceNulTail_padding name k Hnz) in E2.
  exists st2.
  rewrite detectConfident_entry.
  unfold body, confidentStatements, bind.
  rewrite <- (firstn_skipn 40 (statements32 _ _ _ _)), <- app_assoc.
  rewrite block_skip.
  2:{ cbn [firstn statements32]. unfold entryState, sample32. rewrite Hrem.
      cbn [ebmlSignature app]. repeat constructor. }
  cbn [skipn statements32 app block].
  assert (Hcond : chk [0x1a; 0x45; 0xdf; 0xa3] (buffer (entryState t)) = true).
  { unfold entryState, sample32. cbn [buffer]. rewrite Hrem. reflexivity. }
  unfold ebmlArm, when. rewrite Hcond.
  unfold bind. rewrite E1. cbn [snd]. rewrite E2.
  destruct Hname as [-> | ->]; reflexivity.
Qed.

(** X16. The EBML arm finds the document type.  For a buffer made of the
    EBML signature, the size field of the header, elements other than the
    DocType element (each with its id field, its size field and a payload
    of that size) and then the DocType element 42 82 with the name webm or
    matroska, padded with any number of NUL bytes, detection without custom
    detectors returns webm for the first name and mkv for the second.  The
    elements passed over are fewer than the number the header's size field
    gives, which the walk uses as its count, and the host's utf8 decoder is
    taken to read ASCII bytes as themselves. *)
Theorem fromBuffer_ebml_doctype (H : Host) (tol : Z) (fuel : nat)
    (w0 wD : nat) (size0 sizeD : list Z)
    (pre : list Element) (name : JSString) (k : nat) (rest : list Z) :
  decodesAscii H "utf8" ->
  headerField w0 size0 -> headerField wD sizeD ->
  Forall passedElement pre -> (List.length pre < fuel)%nat ->
  Z.of_nat (List.length pre) < fieldNumber size0 mod 2 ^ 48 ->
  name = lit "webm" \/ name = lit "matroska" ->
  Z.of_nat (List.length (name ++ repeat 0 k)) = fieldNumber sizeD mod 2 ^ 48 ->
  resultOf (fromBuffer H (mkOptions tol []) (S fuel)
              (ebmlSignature ++ size0 ++ List.concat (map elementBytes pre)
               ++ [0x42; 0x82] ++ sizeD ++ (name ++ repeat 0 k) ++ rest))
  = Some (docType name).
Proof.
  intros Hdec Hs0 HsD Hpre Hfuel Hch Hname Hlen.
  set (input := ebmlSignature ++ size0 ++ List.concat (map elementBytes pre)
                ++ [0x42; 0x82] ++ sizeD ++ (name ++ repeat 0 k) ++ rest).
  assert (HS : Sees (entryState (Tok.fromBuffer input)) input).
  { apply entryState_sees; [cbn; lia | reflexivity |].
    unfold Tok.fileSize, Tok.fromBuffer. cbn [position size nullish]. lia. }
  destruct (detectConfident_ebml H (mkOptions tol []) fuel (Tok.fromBuffer input) freshBuffer
              w0 wD size0 sizeD pre name k rest Hdec Hs0 HsD Hpre Hfuel Hch Hname Hlen HS)
    as [st' E].
  unfold fromBuffer, fromBufferTraced.
  destruct (1 <? Z.of_nat (List.length input)) eqn:El.
  2:{ apply Z.ltb_ge in El. unfold input in El. rewrite length_app in El.
      cbn [ebmlSignature List.length] in El. lia. }
  cbn [negb]. unfold fromTokenizerTraced, detectors, detectorsWith.
  cbn [customDetectors map app runDetectors run rid].
  change (newParser (Tok.fromBuffer input)) with (mkState (Tok.fromBuffer input) freshBuffer).
  rewrite E. destruct Hname as [-> | ->]; reflexivity.
Qed.

Lemma fromBuffer_ebml_doctype_witness :
  resultOf (fromBuffer Hosts.plain (mkOptions 0 []) 4
              (ebmlSignature ++ [0x9f]
               ++ List.concat (map elementBytes [ebmlVersion; ebmlReadVersion])
               ++ [0x42; 0x82] ++ [0x88] ++ (lit "matroska" ++ repeat 0 0) ++ [0x42; 0x87]))
  = Some (Some (mkFileType "mkv" "video/matroska")).
Proof.
  assert (Hdec : decodesAscii Hosts.plain "utf8").
  { intros bytes Hb. cbn [Hosts.plain decodeText]. unfold TextDecoder.decode.
    cbn [String.eqb Ascii.eqb Bool.eqb orb]. unfold TextDecoder.utf8.
    assert (Hrun : TextDecoder.utf8Run None bytes = bytes).
    { induction Hb as [| b bytes Hb _ IH]; [reflexivity |].
      cbn [TextDecoder.utf8Run]. unfold isAscii in Hb.
      destruct (b <=? 0x7F) eqn:E; [| apply Z.leb_gt in E; lia].
      rewrite IH. reflexivity. }
    rewrite Hrun. destruct Hb as [| b bytes Hb _]; [reflexivity |].
    cbn [TextDecoder.stripBOM]. unfold isAscii in Hb.
    destruct (b =? 0xFEFF) eqn:E; [apply Z.eqb_eq in E; lia | reflexivity]. }
  assert (Hf : forall b, 128 <= b < 256 -> headerField 1 [b]).
  { intros b Hb. split; [reflexivity | split; [lia | split]].
    - repeat constructor; unfold isByte; lia.
    - cbn. lia. }
  assert (Hid : forall b, isByte b -> headerField 2 [0x42; b]).
  { intros b Hb. split; [reflexivity | split; [lia | split]].
    - constructor; [unfold isByte; lia | constructor; [exact Hb | constructor]].
    - cbn. lia. }
  assert (Hel : forall b, isByte b -> b <> 0x82 ->
                 passedElement (mkElement [0x42; b] [0x81] [1])).
  { intros b Hb Hne. split; [exists 2%nat; apply Hid; exact Hb |].
    split; [exists 1%nat; apply Hf; lia |].
    split; [| reflexivity].
    cbn [idField]. unfold beValue. cbn [fold_left]. lia. }
  assert (Hpre : Forall passedElement [ebmlVersion; ebmlReadVersion]).
  { constructor; [apply Hel; [unfold isByte; lia | lia] |].
    constructor; [apply Hel; [unfold isByte; lia | lia] | constructor]. }
  assert (Hfuel : (List.length [ebmlVersion; ebmlReadVersion] < 3)%nat) by (cbn; lia).
  assert (Hch : Z.of_nat (List.length [ebmlVersion; ebmlReadVersion])
                < fieldNumber [0x9f] mod 2 ^ 48) by (vm_compute; reflexivity).
  assert (Hlen : Z.of_nat (List.length (lit "matroska" ++ repeat 0 0))
                 = fieldNumber [0x88] mod 2 ^ 48) by (vm_compute; reflexivity).
  pose proof (fromBuffer_ebml_doctype Hosts.plain 0 3 1 1 [0x9f] [0x88]
                [ebmlVersion; ebmlReadVersion] (lit "matroska") 0 [0x42; 0x87]
                Hdec (Hf 0x9f ltac:(lia)) (Hf 0x88 ltac:(lia)) Hpre Hfuel Hch
                (or_intror eq_refl) Hlen) as W.
  exact W.
Defined.

(** ** Signatures answered from the first bytes *)

Lemma fromBuffer_core_result (H : Host) (tol : Z) (fuel : nat) (input : list Z)
    (r : FileTypeResult) :
  (2 <= List.length input)%nat ->
  resultOf (detectConfident H (mkOptions tol []) fuel (newParser (Tok.fromBuffer input)))
  = Some (Some r) ->
  resultOf (fromBuffer H (mkOptions tol []) fuel input) = Some (Some r).
Proof.
  intros Hlen Hcore. unfold fromBuffer, fromBufferTraced.
  destruct (1 <? Z.of_nat (List.length input)) eqn:El; [| apply Z.ltb_ge in El; lia].
  cbn [negb]. unfold fromTokenizerTraced, detectors, detectorsWith.
  cbn [customDetectors map app runDetectors run rid].
  destruct (detectConfident H (mkOptions tol []) fuel (newParser (Tok.fromBuffer input)))
    as [[x |] st' | e]; cbn [resultOf] in Hcore; try discriminate.
  injection Hcore as ->. reflexivity.
Qed.

(** X17. A buffer that begins with one of the listed signatures is
    reported as the file type of that signature, whatever bytes follow it,
    whatever the host and the tolerance: for these formats nothing behind
    the signature is looked at, and no arm earlier in the battery can claim
    the buffer. *)
Theorem fromBuffer_magic_number (H : Host) (tol : Z) (fuel : nat)
    (magic : list Z) (type : FileTypeResult) (rest : list Z) :
  In (magic, type) magicNumbers ->
  resultOf (fromBuffer H (mkOptions tol []) (S fuel) (magic ++ rest)) = Some (Some type).
Proof.
  intros Hin. unfold magicNumbers in Hin. cbn [In] in Hin.
  repeat (destruct Hin as [Heq | Hin];
          [ injection Heq as <- <-; apply fromBuffer_core_result;
            [ cbn [lit app List.length]; lia | vm_compute; reflexivity ] |]).
  contradiction.
Qed.

Lemma fromBuffer_magic_number_witness :
  resultOf (fromBuffer Hosts.plain (mkOptions 0 []) 1 (lit "%PDF" ++ lit "-1.7"))
  = Some (Some (mkFileType "pdf" "application/pdf")).
Proof.
  apply (fromBuffer_magic_number Hosts.plain 0 0 (lit "%PDF")
           (mkFileType "pdf" "application/pdf") (lit "-1.7")).
  unfold magicNumbers. cbn [In]. do 38 right. left. reflexivity.
Defined.

(** ** The callback of the ZIP arm *)

Lemma startsWith_app (p rest : JSString) : startsWith (p ++ rest) p = true.
Proof.
  induction p as [| c p IH]; [destruct rest; reflexivity |].
  cbn [app startsWith]. rewrite Z.eqb_refl, IH. reflexivity.
Qed.

Lemma skipDigits_app (ds rest : JSString) :
  Forall isDigit ds ->
  Text.skipDigits (ds ++ 46 :: rest) = 46 :: rest.
Proof.
  induction 1 as [| d ds Hd _ IH]; [reflexivity |].
  cbn [app Text.skipDigits]. unfold isDigit in Hd.
  destruct (48 <=? d) eqn:E1; [| apply Z.leb_gt in E1; lia].
  destruct (d <=? 57) eqn:E2; [| apply Z.leb_gt in E2; lia].
  exact IH.
Qed.

Lemma testDex_found (pre ds post : JSString) :
  Forall isDigit ds ->
  Text.testDex (pre ++ lit "classes" ++ ds ++ lit ".dex" ++ post) = true.
Proof.
  intros Hds. induction pre as [| c pre IH].
  - cbn [app]. 
    assert (Hat : Text.dexAt (lit "classes" ++ ds ++ lit ".dex" ++ post) = true).
    { unfold Text.dexAt. rewrite startsWith_app. cbn [andb].
      change (skipn 7 (lit "classes" ++ ds ++ lit ".dex" ++ post))
        with (ds ++ 46 :: (lit "dex" ++ post)).
      rewrite (skipDigits_app ds _ Hds).
      exact (startsWith_app (lit ".dex") post). }
    destruct (lit "classes" ++ ds ++ lit ".dex" ++ post) eqn:E;
      cbn [Text.testDex]; rewrite Hat; reflexivity.
  - cbn [app Text.testDex]. rewrite IH. apply orb_true_r.
Qed.

(** X18. The callback of the ZIP arm takes every entry whose name
    contains [classes], any digits and [.dex] for the bytecode of an Android
    package: whatever stands before and after in the name, it assigns apk,
    asks for no handler and stops the walk.  The pattern is not anchored,
    so a name such as [lib/myclasses.dexter] is taken too. *)
Theorem zipCallback_dex_anywhere (toLowerCase : JSString -> JSString)
    (pre ds post : JSString) :
  Forall isDigit ds ->
  Zip.zipCallback toLowerCase (pre ++ lit "classes" ++ ds ++ lit ".dex" ++ post)
  = apkAction.
Proof.
  intros Hds.
  pose proof (testDex_found pre ds post Hds) as Hdex.
  set (filename := pre ++ lit "classes" ++ ds ++ lit ".dex" ++ post) in *.
  assert (Hother : forall name : string,
             Text.testDex (lit name) = false -> eqs filename (lit name) = false).
  { intros name Hno. apply eqs_neq. intros E. rewrite E in Hdex. congruence. }
  unfold Zip.zipCallback.
  rewrite !Hother by (vm_compute; reflexivity).
  rewrite Hdex. reflexivity.
Qed.

Lemma zipCallback_dex_anywhere_witness :
  Zip.zipCallback Zip.asciiLower (lit "lib/my" ++ lit "classes" ++ lit "2" ++ lit ".dex" ++ lit "ter")
  = apkAction.
Proof.
  apply (zipCallback_dex_anywhere Zip.asciiLower (lit "lib/my") (lit "2") (lit "ter")).
  repeat constructor; unfold isDigit; cbn; lia.
Defined.

Lemma lastIndexOfFrom_absent (s : JSString) :
  forall i found, ~ In 34 s -> Text.lastIndexOfFrom s [34] i found = found.
Proof.
  induction s as [| c s IH]; intros i found Hno; [reflexivity |].
  cbn [Text.lastIndexOfFrom startsWith].
  destruct (34 =? c) eqn:E; [apply Z.eqb_eq in E; exfalso; apply Hno; left; congruence |].
  cbn [andb]. apply IH. intros Hin. apply Hno. right. exact Hin.
Qed.

Lemma lastIndexOfFrom_quote (pre mime : JSString) :
  ~ In 34 mime ->
  forall i found,
    Text.lastIndexOfFrom (pre ++ 34 :: mime) [34] i found = i + Z.of_nat (List.length pre).
Proof.
  intros Hno. induction pre as [| c pre IH]; intros i found.
  - cbn [app Text.lastIndexOfFrom startsWith List.length].
    change (34 =? 34) with true. cbn [andb].
    destruct mime; rewrite lastIndexOfFrom_absent by exact Hno; cbn; lia.
  - cbn [app Text.lastIndexOfFrom List.length]. rewrite IH. lia.
Qed.

(** X19. The handler of the entry [[Content_Types].xml] reads the file
    type off the main part of the package.  When the first [.main+xml"] in
    the decoded content ends a quoted content type, so that the content is
    some text, a quotation mark, a type without quotation marks, [.main+xml"]
    and the rest, the handler sets the file type to what
    [getFileTypeFromMimeType] answers for that type, whatever it was
    before. *)
Theorem contentTypesHandler_main_part (toLowerCase : JSString -> JSString)
    (fileData : list Z) (fileType : option FileTypeResult)
    (pre mime post : JSString) :
  TextDecoder.decode "utf-8" fileData
  = (pre ++ 34 :: mime) ++ (lit ".main+xml" ++ [34]) ++ post ->
  ~ In 34 mime ->
  Text.indexOf (TextDecoder.decode "utf-8" fileData) (lit ".main+xml" ++ [34])
  = Z.of_nat (List.length (pre ++ 34 :: mime)) ->
  Zip.contentTypesHandler toLowerCase fileData fileType
  = Zip.getFileTypeFromMimeType toLowerCase mime.
Proof.
  intros Hxml Hno Hfirst.
  unfold Zip.contentTypesHandler. cbv zeta.
  rewrite Hfirst.
  destruct (Z.of_nat (List.length (pre ++ 34 :: mime)) =? -1) eqn:E;
    [apply Z.eqb_eq in E; lia |].
  rewrite Hxml.
  assert (Hslice : Text.slice ((pre ++ 34 :: mime) ++ (lit ".main+xml" ++ [34]) ++ post) 0
                              (Z.max 0 (Z.of_nat (List.length (pre ++ 34 :: mime))))
                   = pre ++ 34 :: mime).
  { unfold Text.slice. rewrite Z.max_r, Z.sub_0_r, Nat2Z.id by lia.
    cbn [Z.to_nat skipn]. rewrite firstn_app, Nat.sub_diag, firstn_all, firstn_O, app_nil_r.
    reflexivity. }
  rewrite Hslice.
  unfold Text.lastIndexOf. rewrite (lastIndexOfFrom_quote pre mime Hno).
  unfold Text.sliceFrom.
  replace (Z.to_nat (Z.max 0 (0 + Z.of_nat (List.length pre) + 1)))
    with (List.length pre + 1)%nat by lia.
  rewrite skipn_app, skipn_all2 by lia.
  replace (List.length pre + 1 - List.length pre)%nat with 1%nat by lia.
  reflexivity.
Qed.

Lemma contentTypesHandler_main_part_witness :
  Zip.contentTypesHandler Zip.asciiLower wordContentTypes None
  = Some (mkFileType "docx"
            "application/vnd.openxmlformats-officedocument.wordprocessingml.document").
Proof.
  rewrite (contentTypesHandler_main_part Zip.asciiLower wordContentTypes None
             (lit "<Types><Override PartName=" ++ [34] ++ lit "/word/document.xml" ++ [34]
              ++ lit " ContentType=")
             (lit "application/vnd.openxmlformats-officedocument.wordprocessingml.document")
             (lit "/></Types>")).
  - vm_compute. reflexivity.
  - vm_compute. reflexivity.
  - vm_compute. intros Hin. repeat (destruct Hin as [Hin | Hin]; [discriminate |]). exact Hin.
  - vm_compute. reflexivity.
Defined.

(** ** Containers that end before their header *)

Lemma readBuffer_short (n : Z) (st : State) :
  Z.of_nat (List.length (Tok.remaining (tokenizer st))) < n ->
  Tok.readBuffer n st = Throw EndOfStreamError.
Proof.
  intros Hn. unfold Tok.readBuffer.
  destruct (_ <? n) eqn:E; [reflexivity |].
  apply Z.ltb_ge in E. rewrite length_firstn in E. lia.
Qed.

Lemma ignore_short (n : Z) (st : State) :
  Z.of_nat (List.length (Tok.remaining (tokenizer st))) < n ->
  Tok.ignore n st = Throw EndOfStreamError.
Proof.
  intros Hn. unfold Tok.ignore.
  destruct (_ <? n) eqn:E; [reflexivity | apply Z.ltb_ge in E; lia].
Qed.

(** Skipping [k] bytes and then reading [n] fails when fewer than [k + n]
    bytes are left. *)
Lemma skip_then_read_short (k n : nat) (st : State) {A : Type}
    (next : list Z -> M A) :
  0 <= position (tokenizer st) ->
  (List.length (Tok.remaining (tokenizer st)) < k + n)%nat ->
  bind (Tok.ignore (Z.of_nat k)) (fun _ => bind (Tok.readBuffer (Z.of_nat n)) next) st
  = Throw EndOfStreamError.
Proof.
  intros Hp Hlen. unfold bind at 1.
  destruct (Nat.lt_ge_cases (List.length (Tok.remaining (tokenizer st))) k) as [Hk | Hk].
  - rewrite ignore_short by lia. reflexivity.
  - rewrite ignore_within by lia. unfold bind.
    rewrite readBuffer_short; [reflexivity |].
    cbn [tokenizer]. rewrite remaining_advance by lia.
    rewrite length_skipn, Nat2Z.id. lia.
Qed.

Lemma detectConfident_ogg_truncated (H : Host) (options : Options) (fuel : nat)
    (t : Tokenizer) (buf rest : list Z) :
  0 <= position t -> Tok.remaining t = lit "OggS" ++ rest ->
  (List.length rest < 32)%nat ->
  detectConfident H options (S fuel) (mkState t buf) = Throw EndOfStreamError.
Proof.
  intros Hp Hrem Hlen.
  rewrite detectConfident_entry.
  unfold body, confidentStatements, bind.
  rewrite <- (firstn_skipn 24 (statements32 _ _ _ _)), <- app_assoc.
  rewrite block_skip.
  2:{ cbn [firstn statements32]. unfold entryState, sample32. rewrite Hrem.
      cbn [lit app]. repeat constructor. }
  cbn [skipn statements32 app block].
  assert (Hcond : str "OggS" (buffer (entryState t)) = true).
  { unfold entryState, sample32. cbn [buffer]. rewrite Hrem. reflexivity. }
  unfold oggArm, when. rewrite Hcond.
  change 28 with (Z.of_nat 28). change 8 with (Z.of_nat 8).
  rewrite skip_then_read_short; [reflexivity | exact Hp |].
  change (Tok.remaining (tokenizer (entryState t))) with (Tok.remaining t).
  rewrite Hrem, length_app. cbn [lit List.length]. lia.
Qed.

Lemma detectConfident_id3_truncated (H : Host) (options : Options) (fuel : nat)
    (t : Tokenizer) (buf rest : list Z) :
  0 <= position t -> Tok.remaining t = lit "ID3" ++ rest ->
  (List.length rest < 7)%nat ->
  detectConfident H options (S fuel) (mkState t buf) = Throw EndOfStreamError.
Proof.
  intros Hp Hrem Hlen.
  rewrite detectConfident_entry.
  unfold body, confidentStatements, bind.
  rewrite <- (firstn_skipn 13 (statements32 _ _ _ _)), <- app_assoc.
  rewrite block_skip.
  2:{ cbn [firstn statements32]. unfold entryState, sample32. rewrite Hrem.
      cbn [lit app]. repeat constructor. }
  cbn [skipn statements32 app block].
  assert (Hcond : str "ID3" (buffer (entryState t)) = true).
  { unfold entryState, sample32. cbn [buffer]. rewrite Hrem. reflexivity. }
  unfold id3Arm, when. rewrite Hcond.
  change 6 with (Z.of_nat 6). change uint32SyncSafeToken_len with (Z.of_nat 4).
  rewrite skip_then_read_short; [reflexivity | exact Hp |].
  change (Tok.remaining (tokenizer (entryState t))) with (Tok.remaining t).
  rewrite Hrem, length_app. cbn [lit List.length]. lia.
Qed.

Lemma detectConfident_png_truncated (H : Host) (options : Options) (fuel : nat)
    (t : Tokenizer) (buf rest : list Z) :
  0 <= position t -> Tok.remaining t = pngSignature ++ rest ->
  (List.length rest < 8)%nat ->
  detectConfident H options (S (S fuel)) (mkState t buf) = Throw EndOfStreamError.
Proof.
  intros Hp Hrem Hlen.
  rewrite detectConfident_entry.
  unfold body, confidentStatements, bind.
  rewrite <- (firstn_skipn 76 (statements32 _ _ _ _)), <- app_assoc.
  rewrite block_skip.
  2:{ cbn [firstn statements32]. unfold entryState, sample32. rewrite Hrem.
      cbn [pngSignature app]. repeat constructor. }
  cbn [skipn statements32 app block].
  assert (Hcond : chk [0x89; 0x50; 0x4e; 0x47; 0x0d; 0x0a; 0x1a; 0x0a]
                      (buffer (entryState t)) = true).
  { unfold entryState, sample32. cbn [buffer]. rewrite Hrem. reflexivity. }
  unfold pngArm, when. rewrite Hcond.
  unfold bind at 1. rewrite ignore_within.
  2:{ change (Tok.remaining (tokenizer (entryState t))) with (Tok.remaining t).
      rewrite Hrem, length_app. cbn [pngSignature List.length]. lia. }
  set (st1 := mkState (Tok.advance (tokenizer (entryState t)) 8) (buffer (entryState t))).
  assert (Hrem1 : Tok.remaining (tokenizer st1) = rest).
  { unfold st1. cbn [tokenizer]. rewrite remaining_advance by (cbn; lia).
    change (Tok.remaining (tokenizer (entryState t))) with (Tok.remaining t).
    rewrite Hrem. reflexivity. }
  unfold returnOf, bind. cbn [pngChunks]. unfold bind at 1.
  destruct (Nat.lt_ge_cases (List.length rest) 4) as [H4 | H4].
  - rewrite readBuffer_short by (rewrite Hrem1; lia). reflexivity.
  - assert (E4 : Tok.readBuffer (Z.of_nat 4) st1
                 = Done (firstn 4 rest)
                        (mkState (Tok.advance (tokenizer st1) (Z.of_nat 4)) (buffer st1))).
    { apply (readBuffer_within 4 st1 (firstn 4 rest) (skipn 4 rest)).
      - rewrite Hrem1, firstn_skipn. reflexivity.
      - rewrite length_firstn. lia. }
    change (Z.of_nat 4) with 4 in E4. rewrite E4.
    unfold bind at 1.
    rewrite readBuffer_short; [reflexivity |].
    cbn [tokenizer]. rewrite remaining_advance.
    2:{ unfold st1. cbn. lia. }
    2:{ lia. }
    rewrite Hrem1, length_skipn. change (Z.to_nat 4) with 4%nat. lia.
Qed.

Lemma fromBuffer_core_throws (H : Host) (tol : Z) (fuel : nat) (input : list Z)
    (e : Error) :
  (2 <= List.length input)%nat ->
  detectConfident H (mkOptions tol []) fuel (newParser (Tok.fromBuffer input)) = Throw e ->
  fromBuffer H (mkOptions tol []) fuel input = Throw e.
Proof.
  intros Hlen Hcore. unfold fromBuffer, fromBufferTraced.
  destruct (1 <? Z.of_nat (List.length input)) eqn:El; [| apply Z.ltb_ge in El; lia].
  cbn [negb]. unfold fromTokenizerTraced, detectors, detectorsWith.
  cbn [customDetectors map app runDetectors run rid].
  rewrite Hcore. reflexivity.
Qed.

(** X20. A container that ends before the bytes its arm reads makes the
    detection fail with an end-of-stream error instead of returning a
    result: without custom detectors, [fromBuffer] throws on a buffer that
    begins with OggS and has fewer than 36 bytes, on one that begins with
    the PNG signature and has fewer than eight bytes behind it, and on one
    that begins with ID3 and has fewer than ten bytes. *)
Theorem fromBuffer_truncated_container (H : Host) (tol : Z) (fuel : nat)
    (rest : list Z) :
  ((List.length rest < 32)%nat ->
   fromBuffer H (mkOptions tol []) (S fuel) (lit "OggS" ++ rest) = Throw EndOfStreamError)
  /\ ((List.length rest < 8)%nat ->
      fromBuffer H (mkOptions tol []) (S (S fuel)) (pngSignature ++ rest)
      = Throw EndOfStreamError)
  /\ ((List.length rest < 7)%nat ->
      fromBuffer H (mkOptions tol []) (S fuel) (lit "ID3" ++ rest) = Throw EndOfStreamError).
Proof.
  split; [| split]; intros Hlen; apply fromBuffer_core_throws.
  - rewrite length_app. cbn [lit List.length]. lia.
  - apply (detectConfident_ogg_truncated H (mkOptions tol []) fuel
             (Tok.fromBuffer (lit "OggS" ++ rest)) freshBuffer rest);
      [cbn; lia | reflexivity | exact Hlen].
  - rewrite length_app. cbn [pngSignature List.length]. lia.
  - apply (detectConfident_png_truncated H (mkOptions tol []) fuel
             (Tok.fromBuffer (pngSignature ++ rest)) freshBuffer rest);
      [cbn; lia | reflexivity | exact Hlen].
  - rewrite length_app. cbn [lit List.length]. lia.
  - apply (detectConfident_id3_truncated H (mkOptions tol []) fuel
             (Tok.fromBuffer (lit "ID3" ++ rest)) freshBuffer rest);
      [cbn; lia | reflexivity | exact Hlen].
Qed.

Lemma fromBuffer_truncated_container_witness :
  fromBuffer Hosts.plain (mkOptions 0 []) 1 (lit "OggS" ++ [0; 2; 0; 0])
  = Throw EndOfStreamError.
Proof.
  apply (proj1 (fromBuffer_truncated_container Hosts.plain 0 0 [0; 2; 0; 0])).
  cbn. lia.
Defined.

(** X21. A sample that is too small for the header hides the file type of
    a stream: for a stream whose first chunk begins with OggS,
    [toDetectionStream] attaches no file type, and does not throw, when the
    sample size is between 4 and 35 or the chunk has fewer than 36 bytes;
    the end of stream met while detecting is caught. *)
Theorem toDetectionStream_small_sample (H : Host) (tol : Z) (fuel : nat)
    (sampleSize : Z) (rest : list Z) :
  4 <= sampleSize ->
  sampleSize < 36 \/ (List.length rest < 32)%nat ->
  Streams.toDetectionStream H (mkOptions tol []) (S fuel) sampleSize
                            (Some (lit "OggS" ++ rest))
  = Done None None.
Proof.
  intros Hmin Hsmall.
  unfold Streams.toDetectionStream, subarray.
  rewrite Z.sub_0_r. cbn [Z.to_nat skipn].
  assert (Hcut : firstn (Z.to_nat sampleSize) (lit "OggS" ++ rest)
                 = lit "OggS" ++ firstn (Z.to_nat sampleSize - 4) rest).
  { rewrite firstn_app. cbn [lit List.length].
    rewrite firstn_all2 by (cbn [List.length]; lia). reflexivity. }
  rewrite Hcut.
  rewrite fromBuffer_core_throws with (e := EndOfStreamError); [reflexivity | |].
  - rewrite length_app. cbn [lit List.length]. lia.
  - apply (detectConfident_ogg_truncated H (mkOptions tol []) fuel
             (Tok.fromBuffer (lit "OggS" ++ firstn (Z.to_nat sampleSize - 4) rest))
             freshBuffer (firstn (Z.to_nat sampleSize - 4) rest));
      [cbn; lia | reflexivity |].
    rewrite length_firstn. destruct Hsmall as [Hs | Hr]; lia.
Qed.

Lemma toDetectionStream_small_sample_witness :
  Streams.toDetectionStream Hosts.plain (mkOptions 0 []) 1 16
    (Some (lit "OggS" ++ repeat 0 24 ++ lit "OpusHead"))
  = Done None None.
Proof.
  apply (toDetectionStream_small_sample Hosts.plain 0 0 16 (repeat 0 24 ++ lit "OpusHead"));
    [lia | left; lia].
Defined.

(** ** Detection from a stream *)

(** X22. Detection from a stream or a blob has no shortcut for short
    inputs: whatever the stream delivers, also nothing at all or a single
    byte, the first custom detector is invoked on a tokenizer over the
    stream, and when it returns a file type that is the result and no other
    detector is invoked. *)
Theorem fromStream_consults_detectors (H : Host) (options : Options) (fuel : nat)
    (bytes : list Z) (d : Detector) (ds : list Detector)
    (r : FileTypeResult) (t' : Tokenizer) :
  customDetectors options = d :: ds ->
  detect d (Tok.fromStream bytes) = Done (Some r) t' ->
  Streams.fromStreamTraced H options fuel bytes
  = ([id d], Done (Some r) (mkState t' freshBuffer))
  /\ Streams.fromBlob H options fuel bytes = Done (Some r) (mkState t' freshBuffer).
Proof.
  intros Hcustom Hdetect.
  assert (E : Streams.fromStreamTraced H options fuel bytes
              = ([id d], Done (Some r) (mkState t' freshBuffer))).
  { unfold Streams.fromStreamTraced, fromTokenizerTraced, detectors, detectorsWith.
    rewrite Hcustom. cbn [map app runDetectors run rid registerCustom].
    cbn [newParser tokenizer buffer]. rewrite Hdetect. reflexivity. }
  split; [exact E |].
  unfold Streams.fromBlob, Streams.fromStream. rewrite E. reflexivity.
Qed.

Lemma fromStream_consults_detectors_witness :
  Streams.fromStreamTraced Hosts.plain (mkOptions 0 [alwaysUnicorn]) 1 []
  = (["unicorn"%string],
     Done (Some (mkFileType "unicorn" "application/unicorn"))
          (mkState (Tok.fromStream []) freshBuffer))
  /\ Streams.fromBlob Hosts.plain (mkOptions 0 [alwaysUnicorn]) 1 []
     = Done (Some (mkFileType "unicorn" "application/unicorn"))
            (mkState (Tok.fromStream []) freshBuffer).
Proof.
  exact (fromStream_consults_detectors Hosts.plain (mkOptions 0 [alwaysUnicorn]) 1 []
           alwaysUnicorn [] (mkFileType "unicorn" "application/unicorn")
           (Tok.fromStream []) eq_refl eq_refl).
Defined.

(** ** The tolerance of the frame scan *)

Lemma scanDepths_grows (b b' : list Z) (n : nat) (r : FileTypeResult) :
  forall (depth : Z) (n' : nat),
    scanDepths b depth n = Some r ->
    (forall d, depth <= d < depth + Z.of_nat n -> scanMpeg d b' = scanMpeg d b) ->
    (n <= n')%nat ->
    scanDepths b' depth n' = Some r.
Proof.
  induction n as [| n IH]; intros depth n' Hscan Hsame Hn; cbn [scanDepths] in Hscan;
    [discriminate |].
  destruct n' as [| n']; [lia |]. cbn [scanDepths].
  rewrite (Hsame depth) by lia.
  destruct (scanMpeg depth b) as [x |]; [exact Hscan |].
  apply (IH (depth + 1) n' Hscan); [| lia].
  intros d Hd. apply Hsame. lia.
Qed.

Lemma scanMpeg_same_cells (d : Z) (b b' : list Z) :
  get b d = get b' d -> get b (d + 1) = get b' (d + 1) ->
  scanMpeg d b' = scanMpeg d b.
Proof.
  intros H0 H1. rewrite (scanMpeg_two_bytes d b'), (scanMpeg_two_bytes d b).
  rewrite H0, H1. reflexivity.
Qed.

(** The sample after a peek of [n] bytes that fit in the buffer. *)
Lemma expandSample_run (n : Z) (st : State) :
  n <= Z.of_nat (List.length (buffer st)) ->
  expandSample n st
  = Done None
      (mkState (tokenizer st)
         (firstn (Z.to_nat (Z.min n (Tok.fileSize (tokenizer st))))
                 (Tok.remaining (tokenizer st))
          ++ skipn (List.length
                      (firstn (Z.to_nat (Z.min n (Tok.fileSize (tokenizer st))))
                              (Tok.remaining (tokenizer st))))
                   (buffer st))).
Proof.
  intros Hn. unfold expandSample, exec, bind, Tok.getSize.
  rewrite peekBuffer_fits; [reflexivity |].
  rewrite length_firstn. lia.
Qed.

Lemma peek_cells (R b : list Z) (m m' : nat) (bound : Z) :
  (m <= m')%nat ->
  (Z.of_nat m < bound -> m' = m \/ (List.length R <= m)%nat) ->
  forall i, 0 <= i < bound ->
    get (firstn m R ++ skipn (List.length (firstn m R)) b) i
    = get (firstn m' R ++ skipn (List.length (firstn m' R)) b) i.
Proof.
  intros Hm Hshort i Hi.
  destruct (Z.ltb_spec (Z.of_nat m) bound) as [Hlt | Hge].
  - destruct (Hshort Hlt) as [-> | Hall]; [reflexivity |].
    rewrite !firstn_all2 by lia. reflexivity.
  - destruct (Nat.le_gt_cases (List.length R) m) as [Hall | Hin].
    + rewrite !firstn_all2 by lia. reflexivity.
    + rewrite (get_prefix R _ m i) by lia.
      destruct (Nat.le_gt_cases (List.length R) m') as [Hall' | Hin'].
      * rewrite (firstn_all2 R) by lia. unfold get.
        destruct (i <? 0); [reflexivity |].
        rewrite nth_error_app1 by lia. reflexivity.
      * rewrite (get_prefix R _ m' i) by lia. reflexivity.
Qed.

(** X23. A larger tolerance never loses a file type of the imprecise
    detector: when the detector returns a file type with the tolerance t,
    it returns the same file type with every tolerance t' from t on, the
    sample buffer having room for the peeks. *)
Theorem detectImprecise_tolerance_monotone (o1 o2 : Options) (st st1 : State)
    (r : FileTypeResult) :
  0 <= mpegOffsetTolerance o1 <= mpegOffsetTolerance o2 ->
  Z.max 8 (2 + mpegOffsetTolerance o2) <= Z.of_nat (List.length (buffer st)) ->
  detectImprecise o1 st = Done (Some r) st1 ->
  exists st2, detectImprecise o2 st = Done (Some r) st2.
Proof.
  intros Htol Hroom Hrun.
  set (t1 := mpegOffsetTolerance o1) in *. set (t2 := mpegOffsetTolerance o2) in *.
  unfold detectImprecise, body, bind in *.
  change (Tok.defaultSize st)
    with (@Done State unit tt (mkState (sized (tokenizer st)) (buffer st))) in *.
  cbv beta iota in *.
  set (st0 := mkState (sized (tokenizer st)) (buffer st)) in *.
  set (common := [ expandSample 8;
                   sig (chk [0x0; 0x0; 0x1; 0xba] ||| chk [0x0; 0x0; 0x1; 0xb3])%detect
                       "mpg" "video/mpeg";
                   sig (chk [0x00; 0x01; 0x00; 0x00; 0x00]) "ttf" "font/ttf";
                   sig (chk [0x00; 0x00; 0x01; 0x00]) "ico" "image/x-icon";
                   sig (chk [0x00; 0x00; 0x02; 0x00]) "cur" "image/x-icon" ]).
  assert (Hsplit : forall o,
             block [ expandSample 8;
                     sig (chk [0x0; 0x0; 0x1; 0xba] ||| chk [0x0; 0x0; 0x1; 0xb3])%detect
                         "mpg" "video/mpeg";
                     sig (chk [0x00; 0x01; 0x00; 0x00; 0x00]) "ttf" "font/ttf";
                     sig (chk [0x00; 0x00; 0x01; 0x00]) "ico" "image/x-icon";
                     sig (chk [0x00; 0x00; 0x02; 0x00]) "cur" "image/x-icon";
                     expandSample (2 + mpegOffsetTolerance o);
                     withBuffer (fun b =>
                       if 2 + mpegOffsetTolerance o <=? Z.of_nat (List.length b) then
                         match scanDepths b 0 (Z.to_nat (mpegOffsetTolerance o + 1)) with
                         | Some type => returns (Some type)
                         | None => next
                         end
                       else next) ] st0
             = match block common st0 with
               | Done None s8 =>
                   block [ expandSample (2 + mpegOffsetTolerance o);
                           withBuffer (fun b =>
                             if 2 + mpegOffsetTolerance o <=? Z.of_nat (List.length b) then
                               match scanDepths b 0 (Z.to_nat (mpegOffsetTolerance o + 1)) with
                               | Some type => returns (Some type)
                               | None => next
                               end
                             else next) ] s8
               | Done (Some v) s8 => Done (Some v) s8
               | Throw e => Throw e
               end).
  { intros o. exact (block_app common _ st0). }
  rewrite (Hsplit o1) in Hrun. rewrite (Hsplit o2). clear Hsplit.
  fold t1 in Hrun. fold t2.
  assert (Hcommon : Peeks (fun _ => True) 8 (block common)).
  { apply block_peeks. unfold common.
    repeat (apply Forall_cons;
            [first [ apply expandSample_peeks; lia | apply sig_peeks; exact I ] |]).
    apply Forall_nil. }
  destruct (Hcommon st0 ltac:(unfold st0; cbn [buffer]; lia)) as [r8 [b8 [E8 [L8 _]]]].
  rewrite E8 in Hrun. rewrite E8. clear E8.
  destruct r8 as [v |].
  { exists st1. exact Hrun. }
  cbn [block] in *.
  assert (L8' : Z.max 8 (2 + t2) <= Z.of_nat (List.length b8)).
  { rewrite L8. unfold st0. cbn [buffer]. exact Hroom. }
  rewrite (expandSample_run (2 + t1)) in Hrun by (cbn [buffer]; lia).
  rewrite (expandSample_run (2 + t2)) by (cbn [buffer]; lia).
  cbn [tokenizer buffer] in *. unfold withBuffer in *. cbn [buffer] in *.
  set (R := Tok.remaining (tokenizer st0)) in *.
  set (size := Tok.fileSize (tokenizer st0)) in *.
  set (m1 := Z.to_nat (Z.min (2 + t1) size)) in *.
  set (m2 := Z.to_nat (Z.min (2 + t2) size)) in *.
  set (B1 := firstn m1 R ++ skipn (List.length (firstn m1 R)) b8) in *.
  set (B2 := firstn m2 R ++ skipn (List.length (firstn m2 R)) b8) in *.
  assert (Hcells : forall i, 0 <= i < 2 + t1 -> get B1 i = get B2 i).
  { apply peek_cells; unfold m1, m2; lia. }
  assert (HB2 : (2 + t2 <=? Z.of_nat (List.length B2)) = true).
  { apply Z.leb_le. unfold B2. rewrite length_app, length_skipn.
    unfold st0 in L8. cbn [buffer] in L8. lia. }
  rewrite HB2.
  destruct (2 + t1 <=? Z.of_nat (List.length B1)); [| discriminate].
  destruct (scanDepths B1 0 (Z.to_nat (t1 + 1))) as [x |] eqn:Escan; [| discriminate].
  rewrite (scanDepths_grows B1 B2 (Z.to_nat (t1 + 1)) x 0 (Z.to_nat (t2 + 1)) Escan).
  - eexists. unfold returns, ret in *. cbv beta iota in *.
    injection Hrun as Hx _. rewrite <- Hx. reflexivity.
  - intros d Hd. apply scanMpeg_same_cells; apply Hcells; lia.
  - lia.
Qed.

Lemma detectImprecise_tolerance_monotone_witness :
  exists st2,
    detectImprecise (mkOptions 10 []) (newParser (Tok.fromBuffer [0; 0; 0xFF; 0xFB; 0x90]))
    = Done (Some mp3) st2.
Proof.
  assert (Hrun : detectImprecise (mkOptions 2 [])
                   (newParser (Tok.fromBuffer [0; 0; 0xFF; 0xFB; 0x90]))
                 = Done (Some mp3)
                        (mkState (Tok.fromBuffer [0; 0; 0xFF; 0xFB; 0x90])
                                 ([0; 0; 0xFF; 0xFB] ++ 0x90 :: repeat 0 4095))).
  { vm_compute. reflexivity. }
  assert (Hroom : Z.max 8 (2 + mpegOffsetTolerance (mkOptions 10 []))
                  <= Z.of_nat (List.length
                       (buffer (newParser (Tok.fromBuffer [0; 0; 0xFF; 0xFB; 0x90])))))
    by (vm_compute; discriminate).
  assert (Htol : 0 <= mpegOffsetTolerance (mkOptions 2 [])
                 <= mpegOffsetTolerance (mkOptions 10 [])) by (cbn; lia).
  exact (detectImprecise_tolerance_monotone (mkOptions 2 []) (mkOptions 10 []) _ _ mp3
           Htol Hroom Hrun).
Defined.
